(** * Position tracking of the Andover monitoring front ends

    A shallow embedding of the two GPS trackers of the repository:
    - [Trj]: the stand-alone tracker of [trj.js], fed by the browser's
      geolocation watch;
    - [Krakatau]: the tracker embedded in the dashboard component of
      [krakatau-andover-fe-master/script.js], fed by polled vehicle telemetry.

    JavaScript Numbers are modelled by the real numbers, which leaves
    rounding, NaN and the infinities out; the distance and the odometer,
    where these matter, are embedded again over binary64 numbers
    ([Binary64]).  Mutable globals become records that
    are passed through the functions; the browser (DOM status line, timers,
    geolocation watches, toasts) is a record of its own next to the tracker
    state, so that "nothing was subscribed" or "no retry was scheduled" can be
    stated. *)

From Stdlib Require Import Floats.
From Stdlib Require Import Reals Lra Lia List Bool String Ascii ZArith Sorted.
From Stdlib Require Import DecimalString.
Import ListNotations.
Local Open Scope R_scope.
Set Warnings "-inexact-float".

(** ** JavaScript numbers *)

Module JS.

(** The relational operators as boolean functions. *)
Definition ltb (a b : R) : bool := if Rlt_dec a b then true else false.
Definition leb (a b : R) : bool := if Rle_dec a b then true else false.
Definition gtb (a b : R) : bool := ltb b a.
Definition geb (a b : R) : bool := leb b a.

(** [Math.min]. *)
Definition min (a b : R) : R := if Rle_dec a b then a else b.

(** [Math.atan2(y, x)], with the quadrant conventions of ECMAScript. *)
Definition atan2 (y x : R) : R :=
  if Rlt_dec 0 x then atan (y / x)
  else if Rlt_dec x 0 then
    (if Rle_dec 0 y then atan (y / x) + PI else atan (y / x) - PI)
  else if Rlt_dec 0 y then PI / 2
  else if Rlt_dec y 0 then - (PI / 2)
  else 0.

(** A value read from a JSON payload where a number is expected: the
    number, [null], or nothing at all. *)
Inductive value : Type :=
| Undefined
| Null
| Num (r : R).

(** ToBoolean: [undefined], [null] and [0] are falsy. *)
Definition truthy (v : value) : bool :=
  match v with
  | Undefined | Null => false
  | Num r => if Req_dec_T r 0 then false else true
  end.

(** [v === 0]. *)
Definition is_zero (v : value) : bool :=
  match v with
  | Num r => if Req_dec_T r 0 then true else false
  | _ => false
  end.

(** ToNumber, used only on values that passed a truthiness test. *)
Definition to_number (v : value) : R :=
  match v with
  | Num r => r
  | _ => 0
  end.

(** ToBoolean on a number: only 0 is falsy. *)
Definition truthy_number (r : R) : bool :=
  if Req_dec_T r 0 then false else true.

(** [Math.floor]. *)
Definition floor (r : R) : R := IZR (Int_part r).

(** The remainder operator [%]: the quotient is truncated towards zero. *)
Definition rem (a b : R) : R :=
  let q := a / b in
  a - b * (if Rle_dec 0 q then floor q else - floor (- q)).

(** [s.split(sep)] for a separator of one character. *)
Fixpoint split (sep : ascii) (s : string) : list string :=
  match s with
  | EmptyString => [EmptyString]
  | String c rest =>
      if Ascii.eqb c sep then EmptyString :: split sep rest
      else match split sep rest with
           | w :: ws => String c w :: ws
           | [] => [String c EmptyString]
           end
  end.

(** [l.join(sep)]. *)
Fixpoint join (sep : string) (l : list string) : string :=
  match l with
  | [] => EmptyString
  | [w] => w
  | w :: rest => String.append w (String.append sep (join sep rest))
  end.

(** [String(n)] for a natural number. *)
Definition string_of_nat (n : nat) : string :=
  NilZero.string_of_uint (Nat.to_uint n).

End JS.

(** ** The drawing surface

    What a function draws is the list of calls it makes on the 2D context,
    in order.  Texts built from numbers keep the numbers. *)

Module Canvas2D.

Inductive Text : Type :=
| Plain (s : string)
| Number (r : R)
| Coordinates (x y : R).

Inductive Cmd : Type :=
| ClearRect (x y w h : R)
| BeginPath
| ClosePath
| MoveTo (x y : R)
| LineTo (x y : R)
| Arc (x y radius startAngle endAngle : R)
| Stroke
| Fill
| FillText (t : Text) (x y : R)
| Save
| Restore
| Translate (x y : R)
| Rotate (angle : R)
| StrokeStyle (s : string)
| FillStyle (s : string)
| LineWidth (w : R)
| LineCap (s : string)
| LineJoin (s : string)
| Font (s : string).

End Canvas2D.

(** [l[l.length - 1]], guarded by [l.length > 0]. *)
Fixpoint last_item {A : Type} (l : list A) : option A :=
  match l with
  | [] => None
  | [a] => Some a
  | _ :: rest => last_item rest
  end.

(** ** The haversine distance

    [calculateDistance] is the same function in both files, up to where the
    earth radius is stored.  Over the reals its [a] lies between 0 and 1;
    what rounding does to it is the subject of [Binary64]. *)

Definition haversine (EARTH_RADIUS lat1 lon1 lat2 lon2 : R) : R :=
  let dLat := (lat2 - lat1) * PI / 180 in
  let dLon := (lon2 - lon1) * PI / 180 in
  let a := sin (dLat / 2) ^ 2 +
           cos (lat1 * PI / 180) * cos (lat2 * PI / 180) *
           sin (dLon / 2) ^ 2 in
  EARTH_RADIUS * 2 * JS.atan2 (sqrt a) (sqrt (1 - a)).

(** ** [trj.js]: the tracker fed by the browser's geolocation watch *)

Module Trj.

(** *** Configuration ([CONFIG]) *)

Definition SCALE : R := 3.
Definition MARGIN : R := 40.
Definition MIN_DISTANCE : R := 1.
Definition MIN_TIME_BETWEEN : R := 1000.
Definition EARTH_RADIUS : R := 6371000.
Definition GPS_TIMEOUT : R := 15000.
Definition AUTO_RETRY_DELAY : R := 3000.
Definition GRID_SIZES : list R := [1; 2; 5; 10; 20; 50; 100].

(** *** Data *)

Record Origin : Type := mkOrigin { o_lat : R; o_lon : R }.

Record PathPoint : Type := mkPoint {
  x : R; y : R; lat : R; lon : R;
  timestamp : R; accuracy : R; speed : R
}.

Record Canvas : Type := mkCanvas { width : R; height : R }.

(** The global [state].  [canvas] is the canvas as [init] leaves it; the
    drawing context is not part of the model. *)
Record State : Type := mkState {
  canvas : Canvas;
  watchId : option nat;
  originGPS : option Origin;
  path : list PathPoint;
  totalDistance : R;
  startTime : option R;
  lastUpdateTime : R;
  pixelsPerMeter : R
}.

(** What [updateStatus] writes into the page (the message without its
    leading pictograph). *)
Record Status : Type := mkStatus {
  message : string;
  type : string;
  statusValue : string
}.

(** Callbacks handed to [setTimeout]. *)
Inductive Callback : Type := CallStartTracking.

(** The page around the tracker: the tracker state, the status line (absent
    until the first [updateStatus]), whether [navigator.geolocation]
    exists, the position watches registered so far, the pending timers
    with their delays, and how often the canvas was redrawn. *)
Record Page : Type := mkPage {
  state : State;
  status : option Status;
  geolocation : bool;
  watches : list nat;
  timers : list (Callback * R);
  redraws : nat
}.

(** A [GeolocationPosition]: [speed] may be [null]. *)
Record Coords : Type := mkCoords {
  latitude : R; longitude : R; c_accuracy : R; c_speed : option R
}.

(** A [GeolocationPositionError]: the code and the three constants the
    error object carries. *)
Record PositionError : Type := mkError { code : Z }.
Definition PERMISSION_DENIED : Z := 1%Z.
Definition POSITION_UNAVAILABLE : Z := 2%Z.
Definition TIMEOUT : Z := 3%Z.

Definition with_state (s : State) (p : Page) : Page :=
  mkPage s (status p) (geolocation p) (watches p) (timers p) (redraws p).

(** *** Coordinate conversion *)

Definition gpsToXY (s : State) (lat lon : R) : R * R :=
  match originGPS s with
  | None => (0, 0)
  | Some o =>
      let dLat := lat - o_lat o in
      let dLon := lon - o_lon o in
      let x := dLon * (PI / 180) * EARTH_RADIUS * cos (o_lat o * PI / 180) in
      let y := dLat * (PI / 180) * EARTH_RADIUS in
      (x, y)
  end.

Definition xyToCanvas (s : State) (x y : R) : R * R :=
  let canvasX := MARGIN + (x * pixelsPerMeter s) in
  let canvasY := height (canvas s) - MARGIN - (y * pixelsPerMeter s) in
  (canvasX, canvasY).

Definition calculateDistance (lat1 lon1 lat2 lon2 : R) : R :=
  let dLat := (lat2 - lat1) * PI / 180 in
  let dLon := (lon2 - lon1) * PI / 180 in
  let a := sin (dLat / 2) ^ 2 +
           cos (lat1 * PI / 180) * cos (lat2 * PI / 180) *
           sin (dLon / 2) ^ 2 in
  EARTH_RADIUS * 2 * JS.atan2 (sqrt a) (sqrt (1 - a)).

(** *** Grid spacing *)

(** The loop of [getGridSpacing]: [sizes] is scanned from its last element
    down to its first; [rev_sizes] is that scan order. *)
Fixpoint scan (viewRange : R) (rev_sizes : list R) : option R :=
  match rev_sizes with
  | [] => None
  | s :: rest => if JS.geb (viewRange / s) 4 then Some s
                 else scan viewRange rest
  end.

Definition spacing (viewRange : R) : R :=
  match scan viewRange (rev GRID_SIZES) with
  | Some s => s
  | None => nth 0 GRID_SIZES 0
  end.

Definition viewRange (s : State) : R :=
  (width (canvas s) - MARGIN * 2) / pixelsPerMeter s.

Definition getGridSpacing (s : State) : R := spacing (viewRange s).

(** *** Status line, redraw *)

Definition updateStatus (msg ty val : string) (p : Page) : Page :=
  mkPage (state p) (Some (mkStatus msg ty val)) (geolocation p)
         (watches p) (timers p) (redraws p).

(** [updateInfo] and [drawCanvas] only write to the page; the tracker
    state is read, never written.  One more frame is counted. *)
Definition drawCanvas (p : Page) : Page :=
  mkPage (state p) (status p) (geolocation p) (watches p) (timers p)
         (S (redraws p)).

(** *** GPS functions *)

(** [navigator.geolocation.watchPosition]: registers a watch and returns
    its identifier. *)
Definition watchPosition (p : Page) : nat * Page :=
  let id := S (List.length (watches p)) in
  (id, mkPage (state p) (status p) (geolocation p) (id :: watches p)
              (timers p) (redraws p)).

Definition startTracking (p : Page) : Page :=
  if negb (geolocation p) then
    updateStatus "GPS not supported" "error" "Not Supported" p
  else
    let p := updateStatus "Searching GPS signal..." "searching" "Searching" p in
    let '(id, p) := watchPosition p in
    let s := state p in
    with_state (mkState (canvas s) (Some id) (originGPS s) (path s)
                        (totalDistance s) (startTime s) (lastUpdateTime s)
                        (pixelsPerMeter s)) p.

(** [handlePosition(position)], with the value [Date.now()] returns. *)
Definition handlePosition (c : Coords) (now : R) (p : Page) : Page :=
  let lat := latitude c in
  let lon := longitude c in
  let acc := c_accuracy c in
  let speed := (match c_speed c with Some v => v | None => 0 end) * 3.6 in
  let timestamp := now in
  (* Set origin on first position *)
  let p :=
    match originGPS (state p) with
    | Some _ => p
    | None =>
        let s := state p in
        let p := with_state
                   (mkState (canvas s) (watchId s) (Some (mkOrigin lat lon))
                            (path s) (totalDistance s) (Some timestamp)
                            (lastUpdateTime s) (pixelsPerMeter s)) p in
        updateStatus "GPS Locked! Tracking..." "locked" "Tracking" p
    end in
  (* Check if enough distance/time elapsed *)
  let s := state p in
  let check : option State :=
    match last_item (path s) with
    | None => Some s
    | Some l =>
        let dist := calculateDistance (Trj.lat l) (Trj.lon l) lat lon in
        let timeDiff := timestamp - lastUpdateTime s in
        if JS.ltb dist MIN_DISTANCE && JS.ltb timeDiff MIN_TIME_BETWEEN
        then None
        else if JS.geb dist MIN_DISTANCE
        then Some (mkState (canvas s) (watchId s) (originGPS s) (path s)
                           (totalDistance s + dist) (startTime s)
                           (lastUpdateTime s) (pixelsPerMeter s))
        else Some s
    end in
  match check with
  | None => p
  | Some s =>
      let s := mkState (canvas s) (watchId s) (originGPS s) (path s)
                       (totalDistance s) (startTime s) timestamp
                       (pixelsPerMeter s) in
      let xy := gpsToXY s lat lon in
      let s := mkState (canvas s) (watchId s) (originGPS s)
                       (path s ++ [mkPoint (fst xy) (snd xy) lat lon
                                           timestamp acc speed])
                       (totalDistance s) (startTime s) (lastUpdateTime s)
                       (pixelsPerMeter s) in
      drawCanvas (with_state s p)
  end.

Definition setTimeout (cb : Callback) (delay : R) (p : Page) : Page :=
  mkPage (state p) (status p) (geolocation p) (watches p)
         (timers p ++ [(cb, delay)]) (redraws p).

Definition handleError (e : PositionError) (p : Page) : Page :=
  if Z.eqb (code e) PERMISSION_DENIED then
    updateStatus "GPS Permission Denied" "error" "Permission Denied" p
  else if Z.eqb (code e) POSITION_UNAVAILABLE then
    updateStatus "GPS Unavailable" "error" "Unavailable" p
  else if Z.eqb (code e) TIMEOUT then
    (* Auto retry; returns before [updateStatus] *)
    setTimeout CallStartTracking AUTO_RETRY_DELAY p
  else
    updateStatus "GPS Error" "error" "Error" p.

(** *** Initialisation and resizing *)

(** [resizeCanvas], with the container's client size. *)
Definition resizeCanvas (clientWidth clientHeight : R) (p : Page) : Page :=
  let size := JS.min clientWidth clientHeight - 20 in
  let s := state p in
  drawCanvas
    (with_state (mkState (mkCanvas size size) (watchId s) (originGPS s)
                         (path s) (totalDistance s) (startTime s)
                         (lastUpdateTime s) (pixelsPerMeter s)) p).

(** The page once [init] has run: the initial [state] with its canvas sized
    to the container, and the start of tracking scheduled. *)
Definition init (clientWidth clientHeight : R) (geo : bool) : Page :=
  let p := mkPage (mkState (mkCanvas 0 0) None None [] 0 None 0 SCALE)
                  None geo [] [] 0 in
  let p := resizeCanvas clientWidth clientHeight p in
  setTimeout CallStartTracking 500 p.

(** *** The event loop *)

(** What the browser can deliver to the page: a position, a position
    error, the expiry of the [n]-th pending timer, a window resize. *)
Inductive Event : Type :=
| Position (c : Coords) (now : R)
| Failure (e : PositionError)
| Expire (n : nat)
| Resize (clientWidth clientHeight : R).

Fixpoint remove_nth {A : Type} (n : nat) (l : list A) : list A :=
  match n, l with
  | _, [] => []
  | O, _ :: rest => rest
  | S m, a :: rest => a :: remove_nth m rest
  end.

Definition expire (n : nat) (p : Page) : Page :=
  match nth_error (timers p) n with
  | None => p
  | Some (CallStartTracking, _) =>
      startTracking
        (mkPage (state p) (status p) (geolocation p) (watches p)
                (remove_nth n (timers p)) (redraws p))
  end.

Definition handle (ev : Event) (p : Page) : Page :=
  match ev with
  | Position c now => handlePosition c now p
  | Failure e => handleError e p
  | Expire n => expire n p
  | Resize w h => resizeCanvas w h p
  end.

(** Events are processed one at a time, each to completion. *)
Definition run (evs : list Event) (p : Page) : Page :=
  fold_left (fun q ev => handle ev q) evs p.

(** The pages a session can be in. *)
Definition reachable (p : Page) : Prop :=
  exists cw ch geo evs, p = run evs (init cw ch geo).

(** *** Drawing *)

(** [array.forEach((p, i) => ...)]: the elements with their indices. *)
Definition indexed {A : Type} (l : list A) : list (nat * A) :=
  combine (seq 0 (List.length l)) l.

Definition drawAxes (s : State) : list Canvas2D.Cmd :=
  let origin := xyToCanvas s 0 0 in
  [Canvas2D.StrokeStyle "#0f0"; Canvas2D.LineWidth 2;
   (* Y axis *)
   Canvas2D.BeginPath;
   Canvas2D.MoveTo (fst origin) MARGIN;
   Canvas2D.LineTo (fst origin) (height (canvas s) - MARGIN);
   Canvas2D.Stroke;
   (* X axis *)
   Canvas2D.BeginPath;
   Canvas2D.MoveTo MARGIN (snd origin);
   Canvas2D.LineTo (width (canvas s) - MARGIN) (snd origin);
   Canvas2D.Stroke;
   (* Labels *)
   Canvas2D.FillStyle "#0f0"; Canvas2D.Font "bold 11px monospace";
   Canvas2D.FillText (Canvas2D.Plain "Y (N)") 5 20;
   Canvas2D.FillText (Canvas2D.Plain "X (E)")
                     (width (canvas s) - 45) (height (canvas s) - 8)].

Definition drawOrigin (s : State) : list Canvas2D.Cmd :=
  let origin := xyToCanvas s 0 0 in
  [Canvas2D.BeginPath;
   Canvas2D.Arc (fst origin) (snd origin) 7 0 (2 * PI);
   Canvas2D.FillStyle "#ff0"; Canvas2D.Fill;
   Canvas2D.StrokeStyle "#fff"; Canvas2D.LineWidth 2; Canvas2D.Stroke;
   Canvas2D.FillStyle "#ff0"; Canvas2D.Font "bold 12px monospace";
   Canvas2D.FillText (Canvas2D.Plain "(0,0)")
                     (fst origin + 12) (snd origin - 5)].

(** A loop [for (let x = start; x <= limit; x += step) body(x)] over
    numbers, run for at most [fuel] iterations; [None] when the fuel does
    not suffice. *)
Fixpoint forLoop (fuel : nat) (body : R -> list Canvas2D.Cmd)
         (limit step : R) (x : R) : option (list Canvas2D.Cmd) :=
  match fuel with
  | O => None
  | S fuel' =>
      if JS.leb x limit then
        match forLoop fuel' body limit step (x + step) with
        | Some rest => Some (body x ++ rest)
        | None => None
        end
      else Some []
  end.

(** The bodies of the two loops of [drawGrid]. *)
Definition gridLineX (s : State) (x : R) : list Canvas2D.Cmd :=
  let coords := xyToCanvas s x 0 in
  if JS.ltb (fst coords) MARGIN || JS.gtb (fst coords) (width (canvas s) - MARGIN)
  then []
  else
    [Canvas2D.BeginPath;
     Canvas2D.MoveTo (fst coords) MARGIN;
     Canvas2D.LineTo (fst coords) (height (canvas s) - MARGIN);
     Canvas2D.Stroke] ++
    if JS.gtb (fst coords) (MARGIN + 15)
    then [Canvas2D.FillText (Canvas2D.Number x) (fst coords - 8)
                            (height (canvas s) - MARGIN + 12)]
    else [].

Definition gridLineY (s : State) (y : R) : list Canvas2D.Cmd :=
  let coords := xyToCanvas s 0 y in
  if JS.ltb (snd coords) MARGIN
     || JS.gtb (snd coords) (height (canvas s) - MARGIN)
  then []
  else
    [Canvas2D.BeginPath;
     Canvas2D.MoveTo MARGIN (snd coords);
     Canvas2D.LineTo (width (canvas s) - MARGIN) (snd coords);
     Canvas2D.Stroke] ++
    if JS.ltb (snd coords) (height (canvas s) - MARGIN - 10)
    then [Canvas2D.FillText (Canvas2D.Number y) 5 (snd coords + 3)]
    else [].

Definition drawGrid (fuel : nat) (s : State) : option (list Canvas2D.Cmd) :=
  let spacing := getGridSpacing s in
  let maxView := (width (canvas s) - MARGIN * 2) / pixelsPerMeter s in
  (* Vertical lines (X) *)
  match forLoop fuel (gridLineX s) maxView spacing 0 with
  | None => None
  | Some vertical =>
      (* Horizontal lines (Y) *)
      match forLoop fuel (gridLineY s) maxView spacing 0 with
      | None => None
      | Some horizontal =>
          Some ([Canvas2D.StrokeStyle "#111"; Canvas2D.LineWidth 1;
                 Canvas2D.Font "9px monospace"; Canvas2D.FillStyle "#333"]
                ++ vertical ++ horizontal)
      end
  end.

(** The direction arrow of [drawPath], at the last point. *)
Definition drawArrow (s : State) (coords : R * R) : list Canvas2D.Cmd :=
  if (1 <? List.length (path s))%nat then
    match nth_error (path s) (List.length (path s) - 2) with
    | Some prev =>
        let prevCoords := xyToCanvas s (x prev) (y prev) in
        let angle := JS.atan2 (snd coords - snd prevCoords)
                              (fst coords - fst prevCoords) in
        [Canvas2D.Save;
         Canvas2D.Translate (fst coords) (snd coords);
         Canvas2D.Rotate angle;
         Canvas2D.BeginPath;
         Canvas2D.MoveTo 15 0; Canvas2D.LineTo 10 (-5); Canvas2D.LineTo 10 5;
         Canvas2D.ClosePath;
         Canvas2D.FillStyle "#f00"; Canvas2D.Fill;
         Canvas2D.Restore]
    | None => []
    end
  else [].

(** The first half of [drawPath]: the line through the points. *)
Definition drawPathLine (s : State) : list Canvas2D.Cmd :=
  [Canvas2D.BeginPath] ++
  flat_map (fun ip : nat * PathPoint =>
              let coords := xyToCanvas s (x (snd ip)) (y (snd ip)) in
              if (fst ip =? 0)%nat
              then [Canvas2D.MoveTo (fst coords) (snd coords)]
              else [Canvas2D.LineTo (fst coords) (snd coords)])
           (indexed (path s)) ++
  [Canvas2D.StrokeStyle "#0af"; Canvas2D.LineWidth 3;
   Canvas2D.LineCap "round"; Canvas2D.LineJoin "round"; Canvas2D.Stroke].

(** The body of the second [forEach] of [drawPath]: the mark of the point
    [p] at index [i]. *)
Definition drawPathPoint (s : State) (ip : nat * PathPoint)
  : list Canvas2D.Cmd :=
  let p := snd ip in
  let coords := xyToCanvas s (x p) (y p) in
  let isLast := (fst ip =? List.length (path s) - 1)%nat in
  [Canvas2D.BeginPath;
   Canvas2D.Arc (fst coords) (snd coords) (if isLast then 8 else 3)
                0 (2 * PI)] ++
  if isLast then
    (* Current position *)
    [Canvas2D.FillStyle "#f00"; Canvas2D.Fill;
     Canvas2D.StrokeStyle "#fff"; Canvas2D.LineWidth 2; Canvas2D.Stroke;
     (* Coordinate label *)
     Canvas2D.FillStyle "#f00"; Canvas2D.Font "bold 11px monospace";
     Canvas2D.FillText (Canvas2D.Coordinates (x p) (y p))
                       (fst coords + 12) (snd coords - 8)] ++
    (* Direction arrow *)
    drawArrow s coords
  else
    (* Path points *)
    [Canvas2D.FillStyle "#0f0"; Canvas2D.Fill].

Definition drawPath (s : State) : list Canvas2D.Cmd :=
  drawPathLine s ++ flat_map (drawPathPoint s) (indexed (path s)).

(** *** Data access *)

(** The minutes and seconds [updateInfo] shows, before padding; nothing is
    shown while [startTime] is falsy. *)
Definition elapsedClock (s : State) (timestamp : R) : option (R * R) :=
  match startTime s with
  | Some t =>
      if JS.truthy_number t then
        let elapsed := JS.floor ((timestamp - t) / 1000) in
        let minutes := JS.floor (elapsed / 60) in
        let seconds := JS.rem elapsed 60 in
        Some (minutes, seconds)
      else None
  | None => None
  end.

Record TrackingData : Type := mkData {
  d_origin : option Origin;
  d_totalDistance : R;
  totalPoints : nat;
  duration : R;
  points : list PathPoint
}.

(** [window.getTrackingData], with the value [Date.now()] returns; [None]
    is the [null] it answers without data. *)
Definition getTrackingData (now : R) (s : State) : option TrackingData :=
  if (List.length (path s) =? 0)%nat then None
  else Some (mkData (originGPS s) (totalDistance s) (List.length (path s))
                    (match startTime s with
                     | Some t => if JS.truthy_number t
                                 then (now - t) / 1000 else 0
                     | None => 0
                     end)
                    (path s)).

(** [window.exportCSV].  How JavaScript prints a number is left to three
    parameters: [toFixed] for [x.toFixed(digits)], [toString] for the
    number in a template, [toISOString] for
    [new Date(t).toISOString()].  [None] is the [undefined] it answers
    without data. *)
Definition csvHeader : string :=
  "x_meters,y_meters,latitude,longitude,accuracy,speed,timestamp".

Definition csvRow (toFixed : R -> nat -> string) (toString : R -> string)
           (toISOString : R -> string) (p : PathPoint) : string :=
  String.append (toFixed (x p) 3%nat) (String.append ","
  (String.append (toFixed (y p) 3%nat) (String.append ","
  (String.append (toString (lat p)) (String.append ","
  (String.append (toString (lon p)) (String.append ","
  (String.append (toString (accuracy p)) (String.append ","
  (String.append (toString (speed p)) (String.append ","
  (toISOString (timestamp p))))))))))))).

Definition newline : ascii := "010"%char.

Definition exportCSV (toFixed : R -> nat -> string) (toString : R -> string)
           (toISOString : R -> string) (s : State) : option string :=
  if (List.length (path s) =? 0)%nat then None
  else Some (JS.join (String newline EmptyString)
               (csvHeader
                :: map (csvRow toFixed toString toISOString) (path s))).

End Trj.

(** ** [script.js]: the tracker of the dashboard, fed by vehicle telemetry *)

Module Krakatau.

(** *** Data *)

Record Origin : Type := mkOrigin { o_lat : R; o_lon : R }.

Record PathPoint : Type := mkPoint {
  x : R; y : R; lat : R; lon : R;
  timestamp : R; accuracy : R; speed : R
}.

(** The canvas element: its bitmap size and the size the layout gives it. *)
Record Canvas : Type := mkCanvas {
  width : R; height : R; clientWidth : R; clientHeight : R
}.

(** The constant members of [gpsTracker]. *)
Definition CANVAS_SIZE : R := 600.
Definition MARGIN : R := 40.
Definition EARTH_RADIUS : R := 6371000.

(** The members of [gpsTracker] that change.  [canvas] stands for both
    [canvas] and [ctx], which [initGPSCanvas] sets together. *)
Record GpsTracker : Type := mkTracker {
  canvas : option Canvas;
  watchId : option nat;
  originGPS : option Origin;
  path : list PathPoint;
  totalDistance : R;
  startTime : option R;
  lastUpdateTime : option R;
  pixelsPerMeter : R;
  isTracking : bool;
  retryCount : nat
}.

(** The two members of [vehicleData] the tracker reads. *)
Record VehicleData : Type := mkVehicle { v_lat : JS.value; long : JS.value }.

Inductive ToastKind : Type := success | info | warning | error.

Inductive Callback : Type := CallStartGPSTracking.

(** The component and the browser around it: the toasts shown so far, the
    pending timers, whether [navigator.geolocation] exists, the active
    position watches and the next watch identifier, the number of frames
    drawn, and whether the page binds the global names [ctx] and [canvas]
    (nothing in the script does). *)
Record App : Type := mkApp {
  vehicleData : VehicleData;
  gpsTracker : GpsTracker;
  toasts : list (ToastKind * string);
  timers : list (Callback * R);
  geolocation : bool;
  watches : list nat;
  next_watch : nat;
  frames : nat;
  ctx_bound : bool
}.

(** How a call ends: normally, or with an uncaught [ReferenceError]. *)
Inductive Completion : Type := Normal | ReferenceError.

Definition with_tracker (g : GpsTracker) (a : App) : App :=
  mkApp (vehicleData a) g (toasts a) (timers a) (geolocation a)
        (watches a) (next_watch a) (frames a) (ctx_bound a).

Definition toastr (k : ToastKind) (msg : string) (a : App) : App :=
  mkApp (vehicleData a) (gpsTracker a) (toasts a ++ [(k, msg)]) (timers a)
        (geolocation a) (watches a) (next_watch a) (frames a) (ctx_bound a).

Definition setTimeout (cb : Callback) (delay : R) (a : App) : App :=
  mkApp (vehicleData a) (gpsTracker a) (toasts a) (timers a ++ [(cb, delay)])
        (geolocation a) (watches a) (next_watch a) (frames a) (ctx_bound a).

(** *** Coordinate conversion *)

(** [gpsToLocalXY]: [None] stands for the [ReferenceError] that the two
    [ctx.fillText] lines before the [return] raise when the page binds no
    global [ctx]. *)
Definition gpsToLocalXY (a : App) (lat lon : R) : option (R * R) :=
  match originGPS (gpsTracker a) with
  | None => Some (0, 0)
  | Some o =>
      let dLat := lat - o_lat o in
      let dLon := lon - o_lon o in
      let x := dLon * (PI / 180) * EARTH_RADIUS * cos (o_lat o * PI / 180) in
      let y := dLat * (PI / 180) * EARTH_RADIUS in
      if ctx_bound a then Some (x, y) else None
  end.

Definition xyToCanvas (g : GpsTracker) (c : Canvas) (x y : R) : R * R :=
  let canvasX := MARGIN + (x * pixelsPerMeter g) in
  let canvasY := height c - MARGIN - (y * pixelsPerMeter g) in
  (canvasX, canvasY).

Definition viewRange (g : GpsTracker) (c : Canvas) : R :=
  (width c - MARGIN * 2) / pixelsPerMeter g.

Definition spacing (viewRange : R) : R :=
  if JS.gtb viewRange 500 then 100
  else if JS.gtb viewRange 200 then 50
  else if JS.gtb viewRange 100 then 20
  else if JS.gtb viewRange 50 then 10
  else if JS.gtb viewRange 20 then 5
  else if JS.gtb viewRange 10 then 2
  else 1.

Definition getGridSpacing (g : GpsTracker) (c : Canvas) : R :=
  spacing (viewRange g c).

Definition calculateDistance (lat1 lon1 lat2 lon2 : R) : R :=
  let dLat := (lat2 - lat1) * PI / 180 in
  let dLon := (lon2 - lon1) * PI / 180 in
  let a := sin (dLat / 2) ^ 2 +
           cos (lat1 * PI / 180) * cos (lat2 * PI / 180) *
           sin (dLon / 2) ^ 2 in
  EARTH_RADIUS * 2 * JS.atan2 (sqrt a) (sqrt (1 - a)).

(** *** Drawing *)

(** [drawGPSCanvas]: nothing without a drawing context; otherwise one
    frame is drawn, and [drawExamplePattern], called last, sets the bitmap
    size to the client size. *)
Definition drawGPSCanvas (a : App) : App :=
  match canvas (gpsTracker a) with
  | None => a
  | Some c =>
      let g := gpsTracker a in
      let c := mkCanvas (clientWidth c) (clientHeight c)
                        (clientWidth c) (clientHeight c) in
      mkApp (vehicleData a)
            (mkTracker (Some c) (watchId g) (originGPS g) (path g)
                       (totalDistance g) (startTime g) (lastUpdateTime g)
                       (pixelsPerMeter g) (isTracking g) (retryCount g))
            (toasts a) (timers a) (geolocation a) (watches a)
            (next_watch a) (S (frames a)) (ctx_bound a)
  end.

(** *** Position updates *)

(** The test [!lat || !lon || lat === 0 || lon === 0]. *)
Definition invalid (v : VehicleData) : bool :=
  negb (JS.truthy (v_lat v)) || negb (JS.truthy (long v)) ||
  JS.is_zero (v_lat v) || JS.is_zero (long v).

(** [updateGPSPosition], with the value [Date.now()] returns. *)
Definition updateGPSPosition (now : R) (a : App) : App * Completion :=
  if invalid (vehicleData a) then (a, Normal)
  else
    let lat := JS.to_number (v_lat (vehicleData a)) in
    let lon := JS.to_number (long (vehicleData a)) in
    let timestamp := now in
    let a :=
      match originGPS (gpsTracker a) with
      | Some _ => a
      | None =>
          let g := gpsTracker a in
          toastr success "Origin GPS ditetapkan dari vehicleData!"
            (with_tracker
               (mkTracker (canvas g) (watchId g) (Some (mkOrigin lat lon))
                          (path g) (totalDistance g) (Some timestamp)
                          (lastUpdateTime g) (pixelsPerMeter g)
                          (isTracking g) (retryCount g)) a)
      end in
    let g := gpsTracker a in
    let check : option App :=
      match last_item (path g) with
      | None => Some a
      | Some l =>
          let dist := calculateDistance (Krakatau.lat l) (Krakatau.lon l)
                                        lat lon in
          if JS.ltb dist 0.5 then None
          else Some (with_tracker
                       (mkTracker (canvas g) (watchId g) (originGPS g)
                                  (path g) (totalDistance g + dist)
                                  (startTime g) (lastUpdateTime g)
                                  (pixelsPerMeter g) (isTracking g)
                                  (retryCount g)) a)
      end in
    match check with
    | None => (a, Normal)
    | Some a =>
        match gpsToLocalXY a lat lon with
        | None => (a, ReferenceError)
        | Some xy =>
            let g := gpsTracker a in
            let pt := mkPoint (fst xy) (snd xy) lat lon timestamp 1.0 0 in
            (drawGPSCanvas
               (with_tracker
                  (mkTracker (canvas g) (watchId g) (originGPS g)
                             (path g ++ [pt]) (totalDistance g)
                             (startTime g) (lastUpdateTime g)
                             (pixelsPerMeter g) (isTracking g)
                             (retryCount g)) a),
             Normal)
        end
    end.

Definition updateGPSFromVehicle (now : R) (a : App) : App * Completion :=
  if negb (isTracking (gpsTracker a)) then (a, Normal)
  else if invalid (vehicleData a) then (a, Normal)
  else updateGPSPosition now a.

(** *** Starting, stopping, clearing *)

Definition watchPosition (a : App) : nat * App :=
  let id := next_watch a in
  (id, mkApp (vehicleData a) (gpsTracker a) (toasts a) (timers a)
             (geolocation a) (id :: watches a) (S id) (frames a)
             (ctx_bound a)).

Definition clearWatch (id : nat) (a : App) : App :=
  mkApp (vehicleData a) (gpsTracker a) (toasts a) (timers a)
        (geolocation a) (filter (fun w => negb (Nat.eqb w id)) (watches a))
        (next_watch a) (frames a) (ctx_bound a).

Definition set_retryCount (n : nat) (a : App) : App :=
  let g := gpsTracker a in
  with_tracker (mkTracker (canvas g) (watchId g) (originGPS g) (path g)
                          (totalDistance g) (startTime g) (lastUpdateTime g)
                          (pixelsPerMeter g) (isTracking g) n) a.

(** [startGPSTracking], with the value [Date.now()] returns. *)
Definition startGPSTracking (now : R) (a : App) : App :=
  (* Check already tracking *)
  if isTracking (gpsTracker a) then
    toastr info "GPS Tracking already active" a
  else if invalid (vehicleData a) then
    let a := toastr warning "Waiting for valid GPS data from vehicle..." a in
    let a := set_retryCount (S (retryCount (gpsTracker a))) a in
    if (retryCount (gpsTracker a) <? 10)%nat then
      setTimeout CallStartGPSTracking 2000 a
    else
      let a := toastr error "Cannot start tracking. GPS data not available." a in
      set_retryCount 0 a
  else
    let lat := JS.to_number (v_lat (vehicleData a)) in
    let lon := JS.to_number (long (vehicleData a)) in
    let g := gpsTracker a in
    let a := with_tracker
               (mkTracker (canvas g) (watchId g) (Some (mkOrigin lat lon))
                          (path g) (totalDistance g) (Some now)
                          (lastUpdateTime g) (pixelsPerMeter g) true 0) a in
    let a := toastr success "GPS Started!" a in
    (* Optional: browser GPS as fallback *)
    if geolocation a then
      let '(id, a) := watchPosition a in
      let g := gpsTracker a in
      with_tracker
        (mkTracker (canvas g) (Some id) (originGPS g) (path g)
                   (totalDistance g) (startTime g) (lastUpdateTime g)
                   (pixelsPerMeter g) (isTracking g) (retryCount g)) a
    else a.

(** The success callback of the fallback watch. *)
Definition fallbackPosition (latitude longitude : R) (a : App) : App :=
  let v := vehicleData a in
  if negb (JS.truthy (v_lat v)) || JS.is_zero (v_lat v) then
    mkApp (mkVehicle (JS.Num latitude) (JS.Num longitude)) (gpsTracker a)
          (toasts a) (timers a) (geolocation a) (watches a) (next_watch a)
          (frames a) (ctx_bound a)
  else a.

Definition stopGPSTracking (a : App) : App :=
  let a := match watchId (gpsTracker a) with
           | Some id => clearWatch id a
           | None => a
           end in
  let g := gpsTracker a in
  let a := with_tracker
             (mkTracker (canvas g) (watchId g) (originGPS g) (path g)
                        (totalDistance g) (startTime g) (lastUpdateTime g)
                        (pixelsPerMeter g) false (retryCount g)) a in
  toastr info "Tracking stopped" a.

(** [clearGPSPath], with the user's answer to the [confirm] dialog. *)
Definition clearGPSPath (confirmed : bool) (a : App) : App :=
  if negb confirmed then a
  else
    let a := if isTracking (gpsTracker a) then stopGPSTracking a else a in
    let g := gpsTracker a in
    let a := with_tracker
               (mkTracker (canvas g) (watchId g) None [] 0 None
                          (lastUpdateTime g) (pixelsPerMeter g)
                          (isTracking g) 0) a in
    let a := drawGPSCanvas a in
    toastr success "GPS data cleared" a.

(** *** The event loop *)

(** The component as [x_data] creates it, in a page with or without the
    canvas element, geolocation, and global [ctx]/[canvas] bindings. *)
Definition initial (c : option Canvas) (geo ctx_glob : bool) : App :=
  mkApp (mkVehicle (JS.Num 0) (JS.Num 0))
        (mkTracker c None None [] 0 None None 3 false 0)
        [] [] geo [] 1%nat 0 ctx_glob.

(** What reaches the tracker: a telemetry poll with its payload, the START,
    STOP and CLEAR buttons, a position of the fallback watch, the expiry of
    a retry timer. *)
Inductive Event : Type :=
| Poll (v : VehicleData) (now : R)
| Start (now : R)
| Stop
| Clear (confirmed : bool)
| Fallback (latitude longitude : R)
| Expire (n : nat) (now : R).

Fixpoint remove_nth {A : Type} (n : nat) (l : list A) : list A :=
  match n, l with
  | _, [] => []
  | O, _ :: rest => rest
  | S m, a :: rest => a :: remove_nth m rest
  end.

(** An uncaught error ends the handler; what was written before stays. *)
Definition handle (ev : Event) (a : App) : App :=
  match ev with
  | Poll v now =>
      fst (updateGPSFromVehicle now
             (mkApp v (gpsTracker a) (toasts a) (timers a) (geolocation a)
                    (watches a) (next_watch a) (frames a) (ctx_bound a)))
  | Start now => startGPSTracking now a
  | Stop => stopGPSTracking a
  | Clear confirmed => clearGPSPath confirmed a
  | Fallback la lo => fallbackPosition la lo a
  | Expire n now =>
      match nth_error (timers a) n with
      | None => a
      | Some (CallStartGPSTracking, _) =>
          startGPSTracking now
            (mkApp (vehicleData a) (gpsTracker a) (toasts a)
                   (remove_nth n (timers a)) (geolocation a) (watches a)
                   (next_watch a) (frames a) (ctx_bound a))
      end
  end.

Definition run (evs : list Event) (a : App) : App :=
  fold_left (fun b ev => handle ev b) evs a.

Definition reachable (a : App) : Prop :=
  exists c geo ctx_glob evs, a = run evs (initial c geo ctx_glob).

End Krakatau.

(** ** [script.js]: the dashboard around the tracker

    Screens, login and the two cameras with their waypoints.  A method
    that writes on one side of its request only ([saveWaypoints] before it,
    [captureImage] after it) runs in one step here, with the answer of the
    server as an input: [true] when the request succeeds.  A method that
    reads before its [await] and writes after it is cut there. *)

Module Panel.

Record Camera : Type := mkCamera {
  streamUrl : string;
  waypointsText : string;
  waypoints : list string;
  image : string;
  refreshImage : nat;
  refreshStream : nat
}.

Inductive ToastKind : Type := success | info | warning | error.

Record Panel : Type := mkPanel {
  currentScreen : string;
  currentMode : string;
  loginUsername : string;
  loginPassword : string;
  ipAddress : string;
  surfaceCamera : Camera;
  underwaterCamera : Camera;
  toasts : list (ToastKind * string)
}.

Definition correctUsername : string := "krakatau".
Definition correctPassword : string := "andover".

(** The component as [x_data] creates it. *)
Definition initial : Panel :=
  mkPanel "menu" "monitoring" "" "" "http://192.168.1.100:5001"
          (mkCamera "" "" [] "" 0 0) (mkCamera "" "" [] "" 0 0) [].

Definition toastr (k : ToastKind) (msg : string) (u : Panel) : Panel :=
  mkPanel (currentScreen u) (currentMode u) (loginUsername u)
          (loginPassword u) (ipAddress u) (surfaceCamera u)
          (underwaterCamera u) (toasts u ++ [(k, msg)]).

(** *** Screens and login *)

Definition selectMonitoring (u : Panel) : Panel :=
  toastr info "Monitoring mode activated"
    (mkPanel "dashboard" "monitoring" (loginUsername u) (loginPassword u)
             (ipAddress u) (surfaceCamera u) (underwaterCamera u) (toasts u)).

Definition showLogin (u : Panel) : Panel :=
  mkPanel "login" (currentMode u) "" "" (ipAddress u) (surfaceCamera u)
          (underwaterCamera u) (toasts u).

Definition login (u : Panel) : Panel :=
  if String.eqb (loginUsername u) correctUsername
     && String.eqb (loginPassword u) correctPassword
  then toastr success "Login successful! Control mode activated"
         (mkPanel "dashboard" "control" (loginUsername u) (loginPassword u)
                  (ipAddress u) (surfaceCamera u) (underwaterCamera u)
                  (toasts u))
  else toastr error "Invalid username or password!" u.

Definition logout (u : Panel) : Panel :=
  toastr info "Logged out successfully"
    (mkPanel "menu" "monitoring" "" "" (ipAddress u) (surfaceCamera u)
             (underwaterCamera u) (toasts u)).

Definition backToMenu (u : Panel) : Panel :=
  mkPanel "menu" (currentMode u) (loginUsername u) (loginPassword u)
          (ipAddress u) (surfaceCamera u) (underwaterCamera u) (toasts u).

(** The two input fields of the login form. *)
Definition typeUsername (t : string) (u : Panel) : Panel :=
  mkPanel (currentScreen u) (currentMode u) t (loginPassword u)
          (ipAddress u) (surfaceCamera u) (underwaterCamera u) (toasts u).

Definition typePassword (t : string) (u : Panel) : Panel :=
  mkPanel (currentScreen u) (currentMode u) (loginUsername u) t
          (ipAddress u) (surfaceCamera u) (underwaterCamera u) (toasts u).

Inductive Action : Type :=
| SelectMonitoring
| ShowLogin
| TypeUsername (t : string)
| TypePassword (t : string)
| Login
| Logout
| BackToMenu.

Definition act (a : Action) (u : Panel) : Panel :=
  match a with
  | SelectMonitoring => selectMonitoring u
  | ShowLogin => showLogin u
  | TypeUsername t => typeUsername t u
  | TypePassword t => typePassword t u
  | Login => login u
  | Logout => logout u
  | BackToMenu => backToMenu u
  end.

Definition run (acts : list Action) (u : Panel) : Panel :=
  fold_left (fun v a => act a v) acts u.

(** *** Cameras and waypoints

    The methods of the surface camera and of the underwater camera are the
    same text up to the camera they name. *)

Inductive Which : Type := Surface | Underwater.

Definition name (w : Which) : string :=
  match w with Surface => "surface" | Underwater => "underwater" end.

Definition camera (w : Which) (u : Panel) : Camera :=
  match w with
  | Surface => surfaceCamera u
  | Underwater => underwaterCamera u
  end.

Definition with_camera (w : Which) (c : Camera) (u : Panel) : Panel :=
  match w with
  | Surface =>
      mkPanel (currentScreen u) (currentMode u) (loginUsername u)
              (loginPassword u) (ipAddress u) c (underwaterCamera u)
              (toasts u)
  | Underwater =>
      mkPanel (currentScreen u) (currentMode u) (loginUsername u)
              (loginPassword u) (ipAddress u) (surfaceCamera u) c
              (toasts u)
  end.

(** [saveSurfaceWaypoints] and [saveUnderwaterWaypoints]. *)
Definition saveWaypoints (w : Which) (ok : bool) (u : Panel) : Panel :=
  let c := camera w u in
  if String.eqb (waypointsText c) "" then
    toastr error
      (String.append "Waypoints for "
         (String.append (name w) " camera cannot be empty")) u
  else
    let u := with_camera w
               (mkCamera (streamUrl c) (waypointsText c)
                         (JS.split " " (waypointsText c)) (image c)
                         (refreshImage c) (refreshStream c)) u in
    if ok then
      toastr success
        (String.append "Waypoints for "
           (String.append (name w) " camera saved successfully!")) u
    else
      toastr error
        (String.append "Failed to save waypoints for "
           (String.append (name w) " camera")) u.

(** [captureSurfaceImage] and [captureUnderwaterImage]: the error of a
    failed request is caught inside. *)
Definition captureImage (w : Which) (ok : bool) (u : Panel) : Panel :=
  let c := camera w u in
  if ok then
    let n := S (refreshImage c) in
    toastr success
      (String.append "Image for "
         (String.append (name w) " camera captured successfully!"))
      (with_camera w
         (mkCamera (streamUrl c) (waypointsText c) (waypoints c)
                   (String.append (ipAddress u)
                      (String.append "/camera/"
                         (String.append (name w)
                            (String.append "-latest?refresh="
                                           (JS.string_of_nat n)))))
                   n (refreshStream c)) u)
  else
    toastr error
      (String.append "Failed to capture "
         (String.append (name w) " image")) u.

(** [waypointCaptureSurfaceAuto] and [waypointCaptureUnderwaterAuto], with
    [String(currentWP)].  The method waits for the capture and is cut at
    that [await]: [waypointCaptureAuto] runs up to it and tells whether a
    capture is requested, writing nothing; [waypointCaptureAutoSettled] runs
    what follows once the capture has settled, on the panel as it is by
    then: the rest of [captureImage], and the update of the waypoint list,
    which is read again. *)
Definition waypointCaptureAuto (w : Which) (currentWP : string) (u : Panel)
  : bool :=
  let wps := waypoints (camera w u) in
  if (List.length wps =? 0)%nat then false
  else existsb (String.eqb currentWP) wps.

Definition waypointCaptureAutoSettled (w : Which) (currentWP : string)
           (ok : bool) (u : Panel) : Panel :=
  let u := captureImage w ok u in
  let c := camera w u in
  let kept := filter (fun wp => negb (String.eqb wp currentWP))
                     (waypoints c) in
  let u := with_camera w
             (mkCamera (streamUrl c) (JS.join " " kept) kept (image c)
                       (refreshImage c) (refreshStream c)) u in
  toastr success
    (String.append "Auto-captured image for "
       (String.append (name w)
          (String.append " waypoint "
             (String.append currentWP "!")))) u.

End Panel.

(** ** The earlier dashboard

    The unnamed source file holds an earlier dashboard, without tracker; its
    [connectGcs] waits for a [fetch].  The method is cut at its [await]:
    [connectGcs] runs up to the request, [connectGcsSettled] runs what
    follows once the request has settled. *)

Module Earlier.

Inductive ToastKind : Type := success | info | warning | error.

(** How the awaited [fetch] settles: a response with its [ok] flag, or a
    rejection (network failure, or the abort after five seconds). *)
Inductive Settlement : Type :=
| Response (ok : bool)
| Rejected.

(** [vehicleData.app_connect], [isConnecting], the number of requests under
    way, and the toasts shown. *)
Record Dashboard : Type := mkDashboard {
  app_connect : bool;
  isConnecting : bool;
  requests : nat;
  toasts : list (ToastKind * string)
}.

Definition initial : Dashboard := mkDashboard false false 0 [].

Definition connectGcs (u : Dashboard) : Dashboard :=
  if isConnecting u then u
  else mkDashboard (app_connect u) true (S (requests u))
                   (toasts u ++ [(info, "Connecting to GCS..."%string)]).

Definition connectGcsSettled (r : Settlement) (u : Dashboard) : Dashboard :=
  let u :=
    match r with
    | Response true =>
        mkDashboard true (isConnecting u) (requests u)
          (toasts u ++ [(success, "Successfully connected to GCS!"%string)])
    | _ =>
        mkDashboard false (isConnecting u) (requests u)
          (toasts u
           ++ [(error, "GCS not found or connection refused."%string)])
    end in
  (* finally *)
  mkDashboard (app_connect u) false (pred (requests u)) (toasts u).

Definition disconnectGcs (u : Dashboard) : Dashboard :=
  mkDashboard false (isConnecting u) (requests u)
              (toasts u ++ [(warning, "Disconnected from GCS."%string)]).

(** A click on connect, a click on disconnect, or the settling of a
    request, which can only happen while one is under way. *)
Inductive Event : Type :=
| Connect
| Disconnect
| Settle (r : Settlement).

Definition handle (ev : Event) (u : Dashboard) : Dashboard :=
  match ev with
  | Connect => connectGcs u
  | Disconnect => disconnectGcs u
  | Settle r => match requests u with
                | O => u
                | S _ => connectGcsSettled r u
                end
  end.

Definition run (evs : list Event) (u : Dashboard) : Dashboard :=
  fold_left (fun v ev => handle ev v) evs u.

End Earlier.

(** ** Binary64 numbers

    Where a claim turns on rounding, or on a result that is not a number,
    the functions concerned are embedded a second time, over the binary64
    numbers of the kernel: [+], [-], [*], [/], [Math.sqrt] and the
    comparisons are those of IEEE 754.  [Math.sin], [Math.cos],
    [Math.atan2] and the operator [**] are implementation-approximated in
    ECMAScript and are taken from the host. *)

Module Binary64.

Local Open Scope float_scope.

Record Host : Type := mkHost {
  Math_sin : float -> float;
  Math_cos : float -> float;
  Math_atan2 : float -> float -> float;
  pow : float -> float -> float
}.

Definition Math_PI : float := 3.141592653589793.

Definition Math_sqrt (x : float) : float := PrimFloat.sqrt x.

(** ToBoolean on a number: [0], [-0] and [NaN] are falsy. *)
Definition truthy_number (f : float) : bool := negb ((f =? 0) || is_nan f).

(** A value read from a JSON payload where a number is expected. *)
Inductive value : Type :=
| Undefined
| Null
| Num (f : float).

Definition truthy (v : value) : bool :=
  match v with
  | Undefined | Null => false
  | Num f => truthy_number f
  end.

(** [v === 0]. *)
Definition is_zero (v : value) : bool :=
  match v with
  | Num f => f =? 0
  | _ => false
  end.

Definition to_number (v : value) : float :=
  match v with
  | Num f => f
  | _ => 0
  end.

(** The constant [a] of [calculateDistance], the same text in both
    files. *)
Definition a (h : Host) (lat1 lon1 lat2 lon2 : float) : float :=
  let dLat := (lat2 - lat1) * Math_PI / 180 in
  let dLon := (lon2 - lon1) * Math_PI / 180 in
  pow h (Math_sin h (dLat / 2)) 2 +
  Math_cos h (lat1 * Math_PI / 180) * Math_cos h (lat2 * Math_PI / 180) *
  pow h (Math_sin h (dLon / 2)) 2.

(** *** [trj.js] *)

Module Trj.

Definition MIN_DISTANCE : float := 1.
Definition MIN_TIME_BETWEEN : float := 1000.
Definition EARTH_RADIUS : float := 6371000.

Record Origin : Type := mkOrigin { o_lat : float; o_lon : float }.

Record PathPoint : Type := mkPoint {
  x : float; y : float; lat : float; lon : float;
  timestamp : float; accuracy : float; speed : float
}.

(** The members of [state] that [handlePosition] reads or writes; what it
    writes into the page is left out. *)
Record State : Type := mkState {
  originGPS : option Origin;
  path : list PathPoint;
  totalDistance : float;
  startTime : option float;
  lastUpdateTime : float
}.

Record Coords : Type := mkCoords {
  latitude : float; longitude : float; c_accuracy : float;
  c_speed : option float
}.

Definition gpsToXY (h : Host) (s : State) (lat lon : float) : float * float :=
  match originGPS s with
  | None => (0, 0)
  | Some o =>
      let dLat := lat - o_lat o in
      let dLon := lon - o_lon o in
      let x := dLon * (Math_PI / 180) * EARTH_RADIUS *
               Math_cos h (o_lat o * Math_PI / 180) in
      let y := dLat * (Math_PI / 180) * EARTH_RADIUS in
      (x, y)
  end.

Definition calculateDistance (h : Host) (lat1 lon1 lat2 lon2 : float)
  : float :=
  let dLat := (lat2 - lat1) * Math_PI / 180 in
  let dLon := (lon2 - lon1) * Math_PI / 180 in
  let a := pow h (Math_sin h (dLat / 2)) 2 +
           Math_cos h (lat1 * Math_PI / 180) *
           Math_cos h (lat2 * Math_PI / 180) *
           pow h (Math_sin h (dLon / 2)) 2 in
  EARTH_RADIUS * 2 * Math_atan2 h (Math_sqrt a) (Math_sqrt (1 - a)).

(** [handlePosition(position)], with the value [Date.now()] returns. *)
Definition handlePosition (h : Host) (c : Coords) (now : float) (s : State)
  : State :=
  let lat := latitude c in
  let lon := longitude c in
  let acc := c_accuracy c in
  let speed := (match c_speed c with
                | Some v => if truthy_number v then v else 0
                | None => 0
                end) * 3.6 in
  let timestamp := now in
  (* Set origin on first position *)
  let s :=
    match originGPS s with
    | Some _ => s
    | None => mkState (Some (mkOrigin lat lon)) (path s) (totalDistance s)
                      (Some timestamp) (lastUpdateTime s)
    end in
  (* Check if enough distance/time elapsed *)
  let check : option State :=
    match last_item (path s) with
    | None => Some s
    | Some l =>
        let dist := calculateDistance h (Trj.lat l) (Trj.lon l) lat lon in
        let timeDiff := timestamp - lastUpdateTime s in
        if (dist <? MIN_DISTANCE) && (timeDiff <? MIN_TIME_BETWEEN)
        then None
        else if MIN_DISTANCE <=? dist
        then Some (mkState (originGPS s) (path s) (totalDistance s + dist)
                           (startTime s) (lastUpdateTime s))
        else Some s
    end in
  match check with
  | None => s
  | Some s =>
      let s := mkState (originGPS s) (path s) (totalDistance s) (startTime s)
                       timestamp in
      let xy := gpsToXY h s lat lon in
      mkState (originGPS s)
              (path s ++ [mkPoint (fst xy) (snd xy) lat lon timestamp acc
                                  speed])
              (totalDistance s) (startTime s) (lastUpdateTime s)
  end.

End Trj.

(** *** [script.js] *)

Module Krakatau.

Definition EARTH_RADIUS : float := 6371000.

Record Origin : Type := mkOrigin { o_lat : float; o_lon : float }.

Record PathPoint : Type := mkPoint {
  x : float; y : float; lat : float; lon : float;
  timestamp : float; accuracy : float; speed : float
}.

(** The members of [gpsTracker] that a position update reads or writes. *)
Record GpsTracker : Type := mkTracker {
  originGPS : option Origin;
  path : list PathPoint;
  totalDistance : float;
  startTime : option float;
  isTracking : bool
}.

Record VehicleData : Type := mkVehicle { v_lat : value; long : value }.

(** The component, and whether the page binds the global names [ctx] and
    [canvas]; toasts and drawing are left out. *)
Record App : Type := mkApp {
  vehicleData : VehicleData;
  gpsTracker : GpsTracker;
  ctx_bound : bool
}.

Inductive Completion : Type := Normal | ReferenceError.

Definition with_tracker (g : GpsTracker) (a : App) : App :=
  mkApp (vehicleData a) g (ctx_bound a).

Definition gpsToLocalXY (h : Host) (a : App) (lat lon : float)
  : option (float * float) :=
  match originGPS (gpsTracker a) with
  | None => Some (0, 0)
  | Some o =>
      let dLat := lat - o_lat o in
      let dLon := lon - o_lon o in
      let x := dLon * (Math_PI / 180) * EARTH_RADIUS *
               Math_cos h (o_lat o * Math_PI / 180) in
      let y := dLat * (Math_PI / 180) * EARTH_RADIUS in
      if ctx_bound a then Some (x, y) else None
  end.

Definition calculateDistance (h : Host) (lat1 lon1 lat2 lon2 : float)
  : float :=
  let dLat := (lat2 - lat1) * Math_PI / 180 in
  let dLon := (lon2 - lon1) * Math_PI / 180 in
  let a := pow h (Math_sin h (dLat / 2)) 2 +
           Math_cos h (lat1 * Math_PI / 180) *
           Math_cos h (lat2 * Math_PI / 180) *
           pow h (Math_sin h (dLon / 2)) 2 in
  EARTH_RADIUS * 2 * Math_atan2 h (Math_sqrt a) (Math_sqrt (1 - a)).

(** The test [!lat || !lon || lat === 0 || lon === 0]. *)
Definition invalid (v : VehicleData) : bool :=
  negb (truthy (v_lat v)) || negb (truthy (long v)) ||
  is_zero (v_lat v) || is_zero (long v).

(** [updateGPSPosition], with the value [Date.now()] returns. *)
Definition updateGPSPosition (h : Host) (now : float) (a : App)
  : App * Completion :=
  if invalid (vehicleData a) then (a, Normal)
  else
    let lat := to_number (v_lat (vehicleData a)) in
    let lon := to_number (long (vehicleData a)) in
    let timestamp := now in
    let a :=
      match originGPS (gpsTracker a) with
      | Some _ => a
      | None =>
          let g := gpsTracker a in
          with_tracker (mkTracker (Some (mkOrigin lat lon)) (path g)
                                  (totalDistance g) (Some timestamp)
                                  (isTracking g)) a
      end in
    let g := gpsTracker a in
    let check : option App :=
      match last_item (path g) with
      | None => Some a
      | Some l =>
          let dist := calculateDistance h (Krakatau.lat l) (Krakatau.lon l)
                                        lat lon in
          if dist <? 0.5 then None
          else Some (with_tracker
                       (mkTracker (originGPS g) (path g)
                                  (totalDistance g + dist) (startTime g)
                                  (isTracking g)) a)
      end in
    match check with
    | None => (a, Normal)
    | Some a =>
        match gpsToLocalXY h a lat lon with
        | None => (a, ReferenceError)
        | Some xy =>
            let g := gpsTracker a in
            let pt := mkPoint (fst xy) (snd xy) lat lon timestamp 1.0 0 in
            (with_tracker
               (mkTracker (originGPS g) (path g ++ [pt]) (totalDistance g)
                          (startTime g) (isTracking g)) a,
             Normal)
        end
    end.

Definition updateGPSFromVehicle (h : Host) (now : float) (a : App)
  : App * Completion :=
  if negb (isTracking (gpsTracker a)) then (a, Normal)
  else if invalid (vehicleData a) then (a, Normal)
  else updateGPSPosition h now a.

(** A telemetry poll: the payload replaces [vehicleData], then
    [updateGPSFromVehicle] runs; an uncaught error ends the handler and
    what was written before stays. *)
Definition poll (h : Host) (v : VehicleData) (now : float) (a : App) : App :=
  fst (updateGPSFromVehicle h now (mkApp v (gpsTracker a) (ctx_bound a))).

End Krakatau.

(** What V8 and the C library answer where the examples at latitude 8 call
    them: the values of the sine, of the cosine and of the square rounded
    to nearest; and, as ECMAScript requires of every host, a result of
    [Math.atan2] that is not a number when an argument is not. *)
Definition rounds_to_nearest_at_8 (h : Host) : Prop :=
  Math_sin h (-0.13962634015954636) = -0.13917310096006544 /\
  Math_sin h 1.5707963267948966 = 1 /\
  Math_sin h (-1.5707963267948966) = -1 /\
  Math_cos h 0.13962634015954636 = 0.9902680687415704 /\
  Math_cos h (-0.13962634015954636) = 0.9902680687415704 /\
  pow h (-0.13917310096006544) 2 = 0.019369152030840567 /\
  pow h 1 2 = 1 /\
  pow h (-1) 2 = 1 /\
  (forall y : float, Math_atan2 h y nan = nan).

(** A host that answers the calls of the examples and no other. *)
Definition sample_host : Host :=
  mkHost
    (fun x => if x =? -0.13962634015954636 then -0.13917310096006544
              else if x =? 1.5707963267948966 then 1
              else if x =? -1.5707963267948966 then -1
              else nan)
    (fun x => if abs x =? 0.13962634015954636 then 0.9902680687415704
              else nan)
    (fun y x => if (y =? 0) && (x =? 1) then 0 else nan)
    (fun x y => if y =? 2 then x * x else nan).

(** The tracker of [trj.js] after a first fix at latitude 8, longitude 10. *)
Definition trj_at_8_10 (h : Host) : Trj.State :=
  Trj.handlePosition h (Trj.mkCoords 8 10 5 None) 0
                     (Trj.mkState None [] 0 None 0).

(** The dashboard of [script.js] as START leaves it when the vehicle is at
    latitude 8, longitude 10, in a page that binds [ctx]; and after the
    next poll, which records that position. *)
Definition krakatau_started_8_10 : Krakatau.App :=
  Krakatau.mkApp
    (Krakatau.mkVehicle (Num 8) (Num 10))
    (Krakatau.mkTracker (Some (Krakatau.mkOrigin 8 10)) [] 0 (Some 0) true)
    true.

Definition krakatau_at_8_10 (h : Host) : Krakatau.App :=
  Krakatau.poll h (Krakatau.mkVehicle (Num 8) (Num 10)) 0
                krakatau_started_8_10.

End Binary64.

(** ** Well-formed tracker states *)

(** What every state of a [trj.js] session satisfies (see
    [trj_reachable_session]): without points there is neither origin nor
    start time; with points, the origin and the start time are those of the
    first point, the last update is the time of the last point, and every
    point carries its own projection. *)
Definition trj_session (s : Trj.State) : Prop :=
  match Trj.path s with
  | [] => Trj.originGPS s = None /\ Trj.startTime s = None
  | first :: _ =>
      Trj.originGPS s = Some (Trj.mkOrigin (Trj.lat first) (Trj.lon first)) /\
      Trj.startTime s = Some (Trj.timestamp first) /\
      (exists l, last_item (Trj.path s) = Some l /\
                 Trj.lastUpdateTime s = Trj.timestamp l) /\
      Forall (fun pt => (Trj.x pt, Trj.y pt)
                        = Trj.gpsToXY s (Trj.lat pt) (Trj.lon pt))
             (Trj.path s)
  end.

(** The travelled distance a path accounts for: the sum, over consecutive
    recorded points, of their distance, counting only the legs of at least
    [MIN_DISTANCE]. *)
Fixpoint trj_legs (l : list Trj.PathPoint) : R :=
  match l with
  | a :: (b :: _) as rest =>
      (let d := Trj.calculateDistance (Trj.lat a) (Trj.lon a)
                                      (Trj.lat b) (Trj.lon b) in
       if JS.geb d Trj.MIN_DISTANCE then d else 0)
      + trj_legs rest
  | _ => 0
  end.

(** The clock readings of the positions among a list of events. *)
Fixpoint trj_times (evs : list Trj.Event) : list R :=
  match evs with
  | [] => []
  | Trj.Position _ now :: rest => now :: trj_times rest
  | _ :: rest => trj_times rest
  end.

(** ** Reading a drawing *)

(** The circles among the calls: centre and radius. *)
Definition arcs (cmds : list Canvas2D.Cmd) : list (R * R * R) :=
  flat_map (fun c => match c with
                     | Canvas2D.Arc x y r _ _ => [(x, y, r)]
                     | _ => []
                     end) cmds.

(** The rotations among the calls. *)
Definition rotations (cmds : list Canvas2D.Cmd) : list R :=
  flat_map (fun c => match c with
                     | Canvas2D.Rotate a => [a]
                     | _ => []
                     end) cmds.

(** ** Sample inputs *)

(** A canvas 1430 pixels wide at 3 pixels per meter shows 450 meters. *)
Definition trj_state_450 : Trj.State :=
  Trj.mkState (Trj.mkCanvas 1430 1430) None None [] 0 None 0 Trj.SCALE.

Definition krakatau_tracker_450 : Krakatau.GpsTracker :=
  Krakatau.mkTracker None None None [] 0 None None 3 false 0.

Definition krakatau_canvas_450 : Krakatau.Canvas :=
  Krakatau.mkCanvas 1430 1430 1430 1430.

(** The vehicle reports latitude 1, longitude 1. *)
Definition vehicle_1_1 : Krakatau.VehicleData :=
  Krakatau.mkVehicle (JS.Num 1) (JS.Num 1).

(** The dashboard after a telemetry poll and a click on START, in a page
    with geolocation, without canvas and without a global [ctx]. *)
Definition krakatau_started : Krakatau.App :=
  Krakatau.run [Krakatau.Poll vehicle_1_1 0; Krakatau.Start 0]
               (Krakatau.initial None true false).

(** The dashboard after a poll, START and a second poll, in a page that
    binds [ctx] and [canvas]: one point is recorded, at time 0. *)
Definition krakatau_one_point : Krakatau.App :=
  Krakatau.run [Krakatau.Poll vehicle_1_1 0; Krakatau.Start 0;
                Krakatau.Poll vehicle_1_1 0]
               (Krakatau.initial None true true).

(** The stand-alone tracker after its start timer and a first fix at
    latitude 1, longitude 1, time 0. *)
Definition trj_one_point : Trj.Page :=
  Trj.run [Trj.Expire 0; Trj.Position (Trj.mkCoords 1 1 5 None) 0]
          (Trj.init 500 500 true).

(** The stand-alone tracker once its start timer has fired. *)
Definition trj_searching : Trj.Page :=
  Trj.run [Trj.Expire 0] (Trj.init 500 500 true).

(** The same tracker after a timeout of the position source and the expiry
    of the retry timer that [handleError] scheduled. *)
Definition trj_retried : Trj.Page :=
  Trj.run [Trj.Expire 0; Trj.Failure (Trj.mkError Trj.TIMEOUT); Trj.Expire 0]
          (Trj.init 500 500 true).

(** The same tracker after a timeout and, while the retry timer is still
    pending, a denied permission. *)
Definition trj_denied : Trj.Page :=
  Trj.run [Trj.Expire 0; Trj.Failure (Trj.mkError Trj.TIMEOUT);
           Trj.Failure (Trj.mkError Trj.PERMISSION_DENIED)]
          (Trj.init 500 500 true).

(** The tracker after its start timer and an unavailable position. *)
Definition trj_unavailable : Trj.Page :=
  Trj.run [Trj.Expire 0; Trj.Failure (Trj.mkError Trj.POSITION_UNAVAILABLE)]
          (Trj.init 500 500 true).

(** The stand-alone tracker after its start timer, a first fix at latitude
    1, longitude 1, time 0, and a second fix one degree further north, two
    seconds later. *)
Definition trj_two_points : Trj.Page :=
  Trj.run [Trj.Expire 0; Trj.Position (Trj.mkCoords 1 1 5 None) 0;
           Trj.Position (Trj.mkCoords 2 1 5 None) 2000]
          (Trj.init 500 500 true).

(** * Properties *)

(** ** Comparisons *)

Lemma ltb_true_iff (a b : R) : JS.ltb a b = true <-> a < b.
Proof. unfold JS.ltb; destruct (Rlt_dec a b); split; intros; try easy. Qed.

Lemma ltb_false_iff (a b : R) : JS.ltb a b = false <-> b <= a.
Proof.
  unfold JS.ltb; destruct (Rlt_dec a b); split; intros; try easy; lra.
Qed.

Lemma leb_true_iff (a b : R) : JS.leb a b = true <-> a <= b.
Proof. unfold JS.leb; destruct (Rle_dec a b); split; intros; try easy. Qed.

Lemma leb_false_iff (a b : R) : JS.leb a b = false <-> b < a.
Proof.
  unfold JS.leb; destruct (Rle_dec a b); split; intros; try easy; lra.
Qed.

Lemma geb_true_iff (a b : R) : JS.geb a b = true <-> a >= b.
Proof. unfold JS.geb; rewrite leb_true_iff; split; lra. Qed.

Lemma geb_false_iff (a b : R) : JS.geb a b = false <-> a < b.
Proof. unfold JS.geb; rewrite leb_false_iff; tauto. Qed.

Lemma gtb_true_iff (a b : R) : JS.gtb a b = true <-> a > b.
Proof. unfold JS.gtb; rewrite ltb_true_iff; split; lra. Qed.

Lemma gtb_false_iff (a b : R) : JS.gtb a b = false <-> a <= b.
Proof. unfold JS.gtb; rewrite ltb_false_iff; tauto. Qed.

(** Decide a comparison between concrete numbers. *)
Ltac js_cmp :=
  repeat match goal with
  | |- context [JS.ltb ?a ?b] =>
      first [ replace (JS.ltb a b) with true
                by (symmetry; apply ltb_true_iff; lra)
            | replace (JS.ltb a b) with false
                by (symmetry; apply ltb_false_iff; lra) ]
  | |- context [JS.leb ?a ?b] =>
      first [ replace (JS.leb a b) with true
                by (symmetry; apply leb_true_iff; lra)
            | replace (JS.leb a b) with false
                by (symmetry; apply leb_false_iff; lra) ]
  | |- context [JS.geb ?a ?b] =>
      first [ replace (JS.geb a b) with true
                by (symmetry; apply geb_true_iff; lra)
            | replace (JS.geb a b) with false
                by (symmetry; apply geb_false_iff; lra) ]
  | |- context [JS.gtb ?a ?b] =>
      first [ replace (JS.gtb a b) with true
                by (symmetry; apply gtb_true_iff; lra)
            | replace (JS.gtb a b) with false
                by (symmetry; apply gtb_false_iff; lra) ]
  end.


(** ** The haversine distance *)

Lemma trj_distance_haversine (lat1 lon1 lat2 lon2 : R) :
  Trj.calculateDistance lat1 lon1 lat2 lon2 =
  haversine Trj.EARTH_RADIUS lat1 lon1 lat2 lon2.
Proof. reflexivity. Qed.

Lemma krakatau_distance_haversine (lat1 lon1 lat2 lon2 : R) :
  Krakatau.calculateDistance lat1 lon1 lat2 lon2 =
  haversine Krakatau.EARTH_RADIUS lat1 lon1 lat2 lon2.
Proof. reflexivity. Qed.

Lemma atan2_0_1 : JS.atan2 0 1 = 0.
Proof.
  unfold JS.atan2. destruct (Rlt_dec 0 1); [|lra].
  replace (0 / 1) with 0 by lra. apply atan_0.
Qed.

Lemma haversine_same (r lat lon : R) : haversine r lat lon lat lon = 0.
Proof.
  unfold haversine.
  replace ((lat - lat) * PI / 180 / 2) with 0 by lra.
  replace ((lon - lon) * PI / 180 / 2) with 0 by lra.
  rewrite sin_0.
  replace (0 ^ 2 + cos (lat * PI / 180) * cos (lat * PI / 180) * 0 ^ 2)
    with 0 by ring.
  rewrite sqrt_0. replace (1 - 0) with 1 by ring. rewrite sqrt_1.
  rewrite atan2_0_1. ring.
Qed.

(** ** Grid spacing *)

Lemma trj_spacing_cases (v : R) :
  Trj.spacing v =
  if JS.geb (v / 100) 4 then 100
  else if JS.geb (v / 50) 4 then 50
  else if JS.geb (v / 20) 4 then 20
  else if JS.geb (v / 10) 4 then 10
  else if JS.geb (v / 5) 4 then 5
  else if JS.geb (v / 2) 4 then 2
  else if JS.geb (v / 1) 4 then 1
  else 1.
Proof.
  unfold Trj.spacing, Trj.GRID_SIZES. simpl.
  repeat match goal with
         | |- context [JS.geb ?a ?b] => destruct (JS.geb a b); try reflexivity
         end.
Qed.

Ltac geb_cases :=
  repeat match goal with
         | |- context [JS.geb ?a ?b] =>
             let E := fresh "E" in
             destruct (JS.geb a b) eqn:E;
             [apply geb_true_iff in E | apply geb_false_iff in E]
         end.

Ltac gtb_cases :=
  repeat match goal with
         | |- context [JS.gtb ?a ?b] =>
             let E := fresh "E" in
             destruct (JS.gtb a b) eqn:E;
             [apply gtb_true_iff in E | apply gtb_false_iff in E]
         end.

Lemma trj_spacing_largest (v : R) :
  In (Trj.spacing v) Trj.GRID_SIZES /\
  ((v / Trj.spacing v >= 4 /\
    forall s, In s Trj.GRID_SIZES -> v / s >= 4 -> s <= Trj.spacing v) \/
   ((forall s, In s Trj.GRID_SIZES -> ~ v / s >= 4) /\ Trj.spacing v = 1)).
Proof.
  rewrite trj_spacing_cases. unfold Trj.GRID_SIZES.
  geb_cases; (split; [simpl; tauto|]);
    try (left; split; [lra|];
         intros s Hs Hge; simpl in Hs;
         repeat (destruct Hs as [<- | Hs]; [lra|]); contradiction).
  right. split; [|reflexivity].
  intros s Hs Hge; simpl in Hs.
  repeat (destruct Hs as [<- | Hs]; [lra|]); contradiction.
Qed.

Lemma krakatau_spacing_thresholds (v : R) :
  (500 < v -> Krakatau.spacing v = 100) /\
  (200 < v <= 500 -> Krakatau.spacing v = 50) /\
  (100 < v <= 200 -> Krakatau.spacing v = 20) /\
  (50 < v <= 100 -> Krakatau.spacing v = 10) /\
  (20 < v <= 50 -> Krakatau.spacing v = 5) /\
  (10 < v <= 20 -> Krakatau.spacing v = 2) /\
  (v <= 10 -> Krakatau.spacing v = 1).
Proof.
  unfold Krakatau.spacing.
  repeat split; intros H; gtb_cases; try reflexivity; lra.
Qed.

Lemma trj_viewRange_450 : Trj.viewRange trj_state_450 = 450.
Proof.
  unfold Trj.viewRange, trj_state_450, Trj.MARGIN, Trj.SCALE. simpl. lra.
Qed.

Lemma krakatau_viewRange_450 :
  Krakatau.viewRange krakatau_tracker_450 krakatau_canvas_450 = 450.
Proof.
  unfold Krakatau.viewRange, krakatau_tracker_450, krakatau_canvas_450,
    Krakatau.MARGIN.
  simpl. lra.
Qed.

Lemma krakatau_spacing_450 :
  Krakatau.getGridSpacing krakatau_tracker_450 krakatau_canvas_450 = 50.
Proof.
  unfold Krakatau.getGridSpacing. rewrite krakatau_viewRange_450.
  apply krakatau_spacing_thresholds. lra.
Qed.

(** C2, as the dashboard's [getGridSpacing] violates it: a view of 450 meters
    gets a spacing of 50, although 450 / 100 >= 4 and 100 is a candidate. *)
Lemma krakatau_spacing_450_not_largest :
  Krakatau.viewRange krakatau_tracker_450 krakatau_canvas_450 = 450 /\
  Krakatau.getGridSpacing krakatau_tracker_450 krakatau_canvas_450 = 50 /\
  450 / 100 >= 4 /\
  ~ (100 <= Krakatau.getGridSpacing krakatau_tracker_450 krakatau_canvas_450).
Proof.
  rewrite krakatau_spacing_450. repeat split; [apply krakatau_viewRange_450 | lra | lra].
Qed.

(** C2, amended.  In [trj.js], [getGridSpacing] returns the largest candidate
    [s] of [GRID_SIZES] with [viewRange / s >= 4], and the smallest candidate,
    1, when there is none; a view of 450 meters gets 100.  In [script.js],
    [getGridSpacing] compares the view range with fixed strict thresholds
    (above 500: 100, above 200: 50, above 100: 20, above 50: 10, above 20: 5,
    above 10: 2, otherwise 1); a view of 450 meters gets 50. *)
Theorem getGridSpacing_spec :
  (forall s : Trj.State,
     let v := Trj.viewRange s in
     let r := Trj.getGridSpacing s in
     In r Trj.GRID_SIZES /\
     ((v / r >= 4 /\
       forall c, In c Trj.GRID_SIZES -> v / c >= 4 -> c <= r) \/
      ((forall c, In c Trj.GRID_SIZES -> ~ v / c >= 4) /\ r = 1))) /\
  Trj.getGridSpacing trj_state_450 = 100 /\
  (forall (g : Krakatau.GpsTracker) (c : Krakatau.Canvas),
     let v := Krakatau.viewRange g c in
     let r := Krakatau.getGridSpacing g c in
     (500 < v -> r = 100) /\
     (200 < v <= 500 -> r = 50) /\
     (100 < v <= 200 -> r = 20) /\
     (50 < v <= 100 -> r = 10) /\
     (20 < v <= 50 -> r = 5) /\
     (10 < v <= 20 -> r = 2) /\
     (v <= 10 -> r = 1)) /\
  Krakatau.getGridSpacing krakatau_tracker_450 krakatau_canvas_450 = 50.
Proof.
  split; [|split; [|split]].
  - intros s v r. apply trj_spacing_largest.
  - unfold Trj.getGridSpacing. rewrite trj_viewRange_450.
    rewrite trj_spacing_cases. js_cmp. reflexivity.
  - intros g c v r. apply krakatau_spacing_thresholds.
  - apply krakatau_spacing_450.
Qed.

(** ** Projection *)

(** Without an origin [gpsToXY] answers (0, 0); with one, the origin itself
    is projected onto (0, 0). *)
Theorem trj_gpsToXY_origin (s : Trj.State) (lat lon : R) :
  (Trj.originGPS s = None -> Trj.gpsToXY s lat lon = (0, 0)) /\
  (forall o, Trj.originGPS s = Some o ->
             Trj.gpsToXY s (Trj.o_lat o) (Trj.o_lon o) = (0, 0)).
Proof.
  unfold Trj.gpsToXY. split.
  - intros ->. reflexivity.
  - intros o ->. simpl. f_equal; ring.
Qed.

Lemma trj_gpsToXY_origin_witness :
  Trj.gpsToXY trj_state_450 7 8 = (0, 0).
Proof.
  apply (proj1 (trj_gpsToXY_origin trj_state_450 7 8)). reflexivity.
Defined.

(** C5 at its failing input.  In [script.js], [gpsToLocalXY] with a set
    origin reaches the two [ctx.fillText] lines that precede its [return];
    in a page that binds no global [ctx] the call ends in a
    [ReferenceError] where the claim promises (0, 0). *)
Theorem krakatau_gpsToLocalXY_throws (a : Krakatau.App) (o : Krakatau.Origin) :
  Krakatau.originGPS (Krakatau.gpsTracker a) = Some o ->
  Krakatau.ctx_bound a = false ->
  Krakatau.gpsToLocalXY a (Krakatau.o_lat o) (Krakatau.o_lon o) = None.
Proof.
  intros Ho Hctx. unfold Krakatau.gpsToLocalXY. rewrite Ho, Hctx. reflexivity.
Qed.

(** In [script.js], [gpsToLocalXY] answers (0, 0) without an origin; with an
    origin, in a page that binds [ctx] and [canvas], the origin itself is
    projected onto (0, 0). *)
Theorem krakatau_gpsToLocalXY_origin (a : Krakatau.App) (lat lon : R) :
  (Krakatau.originGPS (Krakatau.gpsTracker a) = None ->
   Krakatau.gpsToLocalXY a lat lon = Some (0, 0)) /\
  (forall o, Krakatau.originGPS (Krakatau.gpsTracker a) = Some o ->
             Krakatau.ctx_bound a = true ->
             Krakatau.gpsToLocalXY a (Krakatau.o_lat o) (Krakatau.o_lon o)
             = Some (0, 0)).
Proof.
  unfold Krakatau.gpsToLocalXY. split.
  - intros ->. reflexivity.
  - intros o -> ->. simpl. do 2 f_equal; ring.
Qed.

(** ** Lists *)

Lemma last_item_app {A : Type} (l : list A) (a : A) :
  last_item (l ++ [a]) = Some a.
Proof.
  induction l as [|b l IH]; [reflexivity|].
  simpl. rewrite IH. destruct (l ++ [a]) eqn:E; [|reflexivity].
  destruct l; discriminate.
Qed.

Lemma last_item_none {A : Type} (l : list A) :
  last_item l = None <-> l = [].
Proof.
  split; [|intros ->; reflexivity].
  induction l as [|b l IH]; [reflexivity|].
  simpl. destruct l; [discriminate|]. intros H. apply IH in H. discriminate.
Qed.

Lemma app_one_not_nil {A : Type} (l : list A) (a : A) : l ++ [a] <> [].
Proof. destruct l; discriminate. Qed.

(** ** [trj.js]: origin and path *)

(** [handlePosition] on a page whose path is still empty: the fix is
    recorded whatever it is. *)
Lemma trj_handlePosition_accept_shape (c : Trj.Coords) (now : R) (p : Trj.Page) :
  Trj.path (Trj.state (Trj.handlePosition c now p)) = Trj.path (Trj.state p)
  \/ exists pt,
       Trj.path (Trj.state (Trj.handlePosition c now p))
       = Trj.path (Trj.state p) ++ [pt] /\
       Trj.lat pt = Trj.latitude c /\ Trj.lon pt = Trj.longitude c /\
       Trj.timestamp pt = now.
Proof.
  unfold Trj.handlePosition.
  destruct (Trj.originGPS (Trj.state p)); simpl;
    destruct (last_item (Trj.path (Trj.state p))); simpl;
    repeat match goal with
           | |- context [if ?b then _ else _] => destruct b; simpl
           end;
    try (left; reflexivity);
    right; eexists; (split; [reflexivity|]); simpl; auto.
Qed.

Lemma trj_handlePosition_origin (c : Trj.Coords) (now : R) (p : Trj.Page) :
  Trj.originGPS (Trj.state (Trj.handlePosition c now p)) =
  match Trj.originGPS (Trj.state p) with
  | Some o => Some o
  | None => Some (Trj.mkOrigin (Trj.latitude c) (Trj.longitude c))
  end.
Proof.
  unfold Trj.handlePosition.
  destruct (Trj.originGPS (Trj.state p)) eqn:Ho; simpl;
    destruct (last_item (Trj.path (Trj.state p))); simpl;
    repeat match goal with
           | |- context [if ?b then _ else _] => destruct b; simpl
           end;
    auto.
Qed.

Lemma trj_handlePosition_empty_path (c : Trj.Coords) (now : R) (p : Trj.Page) :
  Trj.path (Trj.state p) = [] ->
  Trj.path (Trj.state (Trj.handlePosition c now p)) <> [].
Proof.
  intros Hp. unfold Trj.handlePosition.
  destruct (Trj.originGPS (Trj.state p)) eqn:Ho; simpl; rewrite Hp; simpl;
    first [apply app_one_not_nil | discriminate].
Qed.

Lemma trj_handle_origin_kept (ev : Trj.Event) (p : Trj.Page) (o : Trj.Origin) :
  Trj.originGPS (Trj.state p) = Some o ->
  Trj.originGPS (Trj.state (Trj.handle ev p)) = Some o.
Proof.
  intros Ho. destruct ev as [c now | e | n | w h]; simpl.
  - rewrite trj_handlePosition_origin, Ho. reflexivity.
  - unfold Trj.handleError.
    repeat match goal with
           | |- context [if ?b then _ else _] => destruct b; simpl
           end; assumption.
  - unfold Trj.expire. destruct (nth_error (Trj.timers p) n) as [[[] d]|];
      [|assumption].
    unfold Trj.startTracking. simpl. destruct (Trj.geolocation p); simpl;
      assumption.
  - assumption.
Qed.

Lemma trj_handle_path_origin (ev : Trj.Event) (p : Trj.Page) :
  (Trj.originGPS (Trj.state p) = None <-> Trj.path (Trj.state p) = []) ->
  (Trj.originGPS (Trj.state (Trj.handle ev p)) = None <->
   Trj.path (Trj.state (Trj.handle ev p)) = []).
Proof.
  intros Hinv. destruct ev as [c now | e | n | w h]; simpl.
  - rewrite trj_handlePosition_origin.
    destruct (Trj.originGPS (Trj.state p)) as [o|] eqn:Ho.
    + split; [discriminate|]. intros Hnil.
      destruct (trj_handlePosition_accept_shape c now p) as [E | (pt & E & _)];
        rewrite E in Hnil.
      * apply Hinv in Hnil. discriminate.
      * now apply app_one_not_nil in Hnil.
    + split; [discriminate|]. intros Hnil.
      exfalso. revert Hnil. apply trj_handlePosition_empty_path.
      now apply Hinv.
  - unfold Trj.handleError.
    repeat match goal with
           | |- context [if ?b then _ else _] => destruct b; simpl
           end; assumption.
  - unfold Trj.expire. destruct (nth_error (Trj.timers p) n) as [[[] d]|];
      [|assumption].
    unfold Trj.startTracking. simpl. destruct (Trj.geolocation p); simpl;
      assumption.
  - assumption.
Qed.

Lemma trj_run_path_origin (evs : list Trj.Event) (p : Trj.Page) :
  (Trj.originGPS (Trj.state p) = None <-> Trj.path (Trj.state p) = []) ->
  (Trj.originGPS (Trj.state (Trj.run evs p)) = None <->
   Trj.path (Trj.state (Trj.run evs p)) = []).
Proof.
  revert p. induction evs as [|ev evs IH]; intros p Hinv; [assumption|].
  simpl. apply IH. now apply trj_handle_path_origin.
Qed.

Lemma trj_reachable_path_origin (p : Trj.Page) :
  Trj.reachable p ->
  (Trj.originGPS (Trj.state p) = None <-> Trj.path (Trj.state p) = []).
Proof.
  intros (cw & ch & geo & evs & ->).
  apply trj_run_path_origin. simpl. tauto.
Qed.

(** ** [script.js]: origin and path *)

(** Case analysis on a scrutinee that contains no other case analysis. *)
Ltac break_match :=
  match goal with
  | |- context [match ?t with _ => _ end] =>
      lazymatch t with
      | context [match _ with _ => _ end] => fail
      | _ => destruct t eqn:?
      end
  end.

Lemma krakatau_drawGPSCanvas_tracker (a : Krakatau.App) :
  let g := Krakatau.gpsTracker a in
  let g' := Krakatau.gpsTracker (Krakatau.drawGPSCanvas a) in
  Krakatau.originGPS g' = Krakatau.originGPS g /\
  Krakatau.path g' = Krakatau.path g /\
  Krakatau.totalDistance g' = Krakatau.totalDistance g /\
  Krakatau.startTime g' = Krakatau.startTime g /\
  Krakatau.isTracking g' = Krakatau.isTracking g /\
  Krakatau.retryCount g' = Krakatau.retryCount g /\
  Krakatau.watchId g' = Krakatau.watchId g.
Proof.
  unfold Krakatau.drawGPSCanvas.
  destruct (Krakatau.canvas (Krakatau.gpsTracker a)); simpl; tauto.
Qed.

Lemma krakatau_update_origin (now : R) (a : Krakatau.App) :
  Krakatau.originGPS (Krakatau.gpsTracker (fst (Krakatau.updateGPSPosition now a)))
  = if Krakatau.invalid (Krakatau.vehicleData a)
    then Krakatau.originGPS (Krakatau.gpsTracker a)
    else match Krakatau.originGPS (Krakatau.gpsTracker a) with
         | Some o => Some o
         | None =>
             Some (Krakatau.mkOrigin
                     (JS.to_number (Krakatau.v_lat (Krakatau.vehicleData a)))
                     (JS.to_number (Krakatau.long (Krakatau.vehicleData a))))
         end.
Proof.
  unfold Krakatau.updateGPSPosition, Krakatau.gpsToLocalXY,
    Krakatau.drawGPSCanvas.
  destruct (Krakatau.invalid (Krakatau.vehicleData a)); [reflexivity|].
  destruct (Krakatau.originGPS (Krakatau.gpsTracker a)) eqn:Ho; simpl;
    repeat (break_match; simpl in *); congruence.
Qed.

Lemma krakatau_update_path (now : R) (a : Krakatau.App) :
  let g := Krakatau.gpsTracker a in
  let g' := Krakatau.gpsTracker (fst (Krakatau.updateGPSPosition now a)) in
  Krakatau.path g' = Krakatau.path g \/
  (Krakatau.invalid (Krakatau.vehicleData a) = false /\
   exists pt, Krakatau.path g' = Krakatau.path g ++ [pt]).
Proof.
  unfold Krakatau.updateGPSPosition, Krakatau.gpsToLocalXY,
    Krakatau.drawGPSCanvas.
  destruct (Krakatau.invalid (Krakatau.vehicleData a)); [left; reflexivity|].
  destruct (Krakatau.originGPS (Krakatau.gpsTracker a)) eqn:Ho; simpl;
    repeat (break_match; simpl in *);
    first [left; reflexivity | right; split; [reflexivity|]; eexists; reflexivity].
Qed.

Lemma krakatau_from_vehicle_cases (now : R) (a : Krakatau.App) :
  Krakatau.updateGPSFromVehicle now a = (a, Krakatau.Normal) \/
  Krakatau.updateGPSFromVehicle now a = Krakatau.updateGPSPosition now a.
Proof.
  unfold Krakatau.updateGPSFromVehicle.
  repeat (break_match; simpl); auto.
Qed.

Lemma krakatau_start_tracker_cases (now : R) (a : Krakatau.App) :
  let g := Krakatau.gpsTracker a in
  let g' := Krakatau.gpsTracker (Krakatau.startGPSTracking now a) in
  (Krakatau.path g' = Krakatau.path g /\
   Krakatau.totalDistance g' = Krakatau.totalDistance g) /\
  ((Krakatau.originGPS g' = Krakatau.originGPS g /\
    Krakatau.isTracking g' = Krakatau.isTracking g) \/
   (Krakatau.isTracking g = false /\
    Krakatau.invalid (Krakatau.vehicleData a) = false /\
    Krakatau.isTracking g' = true /\
    Krakatau.originGPS g' =
    Some (Krakatau.mkOrigin
            (JS.to_number (Krakatau.v_lat (Krakatau.vehicleData a)))
            (JS.to_number (Krakatau.long (Krakatau.vehicleData a)))))).
Proof.
  unfold Krakatau.startGPSTracking.
  destruct (Krakatau.isTracking (Krakatau.gpsTracker a)) eqn:Ht; simpl;
    [tauto|].
  destruct (Krakatau.invalid (Krakatau.vehicleData a)) eqn:Hi; simpl.
  - break_match; simpl; rewrite ?Ht; tauto.
  - destruct (Krakatau.geolocation a); simpl; tauto.
Qed.

Lemma krakatau_stop_tracker (a : Krakatau.App) :
  let g := Krakatau.gpsTracker a in
  let g' := Krakatau.gpsTracker (Krakatau.stopGPSTracking a) in
  Krakatau.originGPS g' = Krakatau.originGPS g /\
  Krakatau.path g' = Krakatau.path g /\
  Krakatau.totalDistance g' = Krakatau.totalDistance g /\
  Krakatau.startTime g' = Krakatau.startTime g /\
  Krakatau.isTracking g' = false.
Proof.
  unfold Krakatau.stopGPSTracking.
  destruct (Krakatau.watchId (Krakatau.gpsTracker a)); simpl; tauto.
Qed.

Lemma krakatau_handle_path_origin (ev : Krakatau.Event) (a : Krakatau.App) :
  (Krakatau.path (Krakatau.gpsTracker a) <> [] ->
   Krakatau.originGPS (Krakatau.gpsTracker a) <> None) ->
  Krakatau.path (Krakatau.gpsTracker (Krakatau.handle ev a)) <> [] ->
  Krakatau.originGPS (Krakatau.gpsTracker (Krakatau.handle ev a)) <> None.
Proof.
  intros Hinv.
  assert (Hstart : forall now b,
             Krakatau.gpsTracker b = Krakatau.gpsTracker a ->
             Krakatau.path (Krakatau.gpsTracker
                              (Krakatau.startGPSTracking now b)) <> [] ->
             Krakatau.originGPS (Krakatau.gpsTracker
                                   (Krakatau.startGPSTracking now b)) <> None).
  { intros now b Hb.
    destruct (krakatau_start_tracker_cases now b)
      as [[Hp _] [[Ho _] | (_ & _ & _ & Ho)]];
      rewrite Hp, Ho, ?Hb; [assumption | discriminate]. }
  destruct ev as [v now | now | | confirmed | la lo | n now];
    cbn [Krakatau.handle].
  - set (b := Krakatau.mkApp v _ _ _ _ _ _ _ _).
    destruct (krakatau_from_vehicle_cases now b) as [E | E]; rewrite E;
      [exact Hinv|].
    rewrite krakatau_update_origin.
    destruct (krakatau_update_path now b) as [Hp | [Hv [pt Hp]]]; rewrite Hp.
    + change (Krakatau.gpsTracker b) with (Krakatau.gpsTracker a).
      intros H. apply Hinv in H.
      repeat break_match; congruence.
    + intros _. rewrite Hv. break_match; discriminate.
  - now apply Hstart.
  - destruct (krakatau_stop_tracker a) as (Ho & Hp & _). rewrite Ho, Hp.
    exact Hinv.
  - unfold Krakatau.clearGPSPath. destruct confirmed; [|exact Hinv].
    simpl. intros H. exfalso. apply H.
    apply krakatau_drawGPSCanvas_tracker.
  - unfold Krakatau.fallbackPosition. break_match; exact Hinv.
  - destruct (nth_error (Krakatau.timers a) n) as [[[] d]|]; [|exact Hinv].
    now apply Hstart.
Qed.

Lemma krakatau_invalid_num (r1 r2 : R) :
  r1 <> 0 -> r2 <> 0 ->
  Krakatau.invalid (Krakatau.mkVehicle (JS.Num r1) (JS.Num r2)) = false.
Proof.
  intros H1 H2. unfold Krakatau.invalid. simpl.
  destruct (Req_dec_T r1 0); [contradiction|].
  destruct (Req_dec_T r2 0); [contradiction|]. reflexivity.
Qed.

Lemma krakatau_start_fresh (now : R) (a : Krakatau.App) :
  Krakatau.isTracking (Krakatau.gpsTracker a) = false ->
  Krakatau.invalid (Krakatau.vehicleData a) = false ->
  let g := Krakatau.gpsTracker a in
  let a' := Krakatau.startGPSTracking now a in
  let g' := Krakatau.gpsTracker a' in
  Krakatau.originGPS g' =
    Some (Krakatau.mkOrigin
            (JS.to_number (Krakatau.v_lat (Krakatau.vehicleData a)))
            (JS.to_number (Krakatau.long (Krakatau.vehicleData a)))) /\
  Krakatau.startTime g' = Some now /\
  Krakatau.isTracking g' = true /\
  Krakatau.retryCount g' = 0%nat /\
  Krakatau.path g' = Krakatau.path g /\
  Krakatau.totalDistance g' = Krakatau.totalDistance g /\
  Krakatau.timers a' = Krakatau.timers a /\
  Krakatau.watches a' =
    (if Krakatau.geolocation a
     then Krakatau.next_watch a :: Krakatau.watches a
     else Krakatau.watches a) /\
  Krakatau.ctx_bound a' = Krakatau.ctx_bound a.
Proof.
  intros Ht Hi. unfold Krakatau.startGPSTracking. rewrite Ht, Hi. simpl.
  destruct (Krakatau.geolocation a); simpl; tauto.
Qed.

Lemma krakatau_started_reachable : Krakatau.reachable krakatau_started.
Proof. exists None, true, false. eexists. reflexivity. Qed.

Lemma krakatau_started_tracker :
  Krakatau.originGPS (Krakatau.gpsTracker krakatau_started)
    = Some (Krakatau.mkOrigin 1 1) /\
  Krakatau.path (Krakatau.gpsTracker krakatau_started) = [] /\
  Krakatau.isTracking (Krakatau.gpsTracker krakatau_started) = true /\
  Krakatau.watches krakatau_started = [1%nat] /\
  Krakatau.ctx_bound krakatau_started = false.
Proof.
  unfold krakatau_started. cbn [Krakatau.run fold_left Krakatau.handle].
  cbn [Krakatau.updateGPSFromVehicle Krakatau.initial Krakatau.gpsTracker
       Krakatau.isTracking negb fst Krakatau.toasts Krakatau.timers
       Krakatau.geolocation Krakatau.watches Krakatau.next_watch
       Krakatau.frames Krakatau.ctx_bound].
  match goal with
  | |- context [Krakatau.startGPSTracking 0 ?b] =>
      destruct (krakatau_start_fresh 0 b) as (Ho & _ & Ht & _ & Hp & _ & _ & Hw & Hc)
  end; [reflexivity | apply krakatau_invalid_num; lra |].
  repeat split; assumption.
Qed.

(** C3, as the dashboard violates it: after a click on START the origin is
    set while no point has been recorded yet. *)
Lemma krakatau_origin_without_points :
  Krakatau.reachable krakatau_started /\
  ~ (Krakatau.originGPS (Krakatau.gpsTracker krakatau_started) <> None <->
     Krakatau.path (Krakatau.gpsTracker krakatau_started) <> []).
Proof.
  split; [apply krakatau_started_reachable|].
  destruct krakatau_started_tracker as (Ho & Hp & _).
  rewrite Ho, Hp. intros [H _]. apply H; [discriminate | reflexivity].
Qed.

Lemma krakatau_start_while_tracking (now : R) (a : Krakatau.App) :
  Krakatau.isTracking (Krakatau.gpsTracker a) = true ->
  Krakatau.startGPSTracking now a =
  Krakatau.toastr Krakatau.info "GPS Tracking already active" a.
Proof. intros Ht. unfold Krakatau.startGPSTracking. now rewrite Ht. Qed.

Lemma krakatau_handle_origin_kept
      (ev : Krakatau.Event) (a : Krakatau.App) (o : Krakatau.Origin) :
  Krakatau.originGPS (Krakatau.gpsTracker a) = Some o ->
  Krakatau.isTracking (Krakatau.gpsTracker a) = true ->
  ev <> Krakatau.Clear true ->
  Krakatau.originGPS (Krakatau.gpsTracker (Krakatau.handle ev a)) = Some o.
Proof.
  intros Ho Ht Hev.
  destruct ev as [v now | now | | confirmed | la lo | n now];
    cbn [Krakatau.handle].
  - set (b := Krakatau.mkApp v _ _ _ _ _ _ _ _).
    destruct (krakatau_from_vehicle_cases now b) as [E | E]; rewrite E;
      [exact Ho|].
    rewrite krakatau_update_origin.
    change (Krakatau.gpsTracker b) with (Krakatau.gpsTracker a).
    rewrite Ho. now destruct (Krakatau.invalid _).
  - rewrite krakatau_start_while_tracking by assumption. exact Ho.
  - destruct (krakatau_stop_tracker a) as (E & _). now rewrite E.
  - destruct confirmed; [congruence | exact Ho].
  - unfold Krakatau.fallbackPosition. break_match; exact Ho.
  - destruct (nth_error (Krakatau.timers a) n) as [[[] d]|]; [|exact Ho].
    rewrite krakatau_start_while_tracking by assumption. exact Ho.
Qed.

Lemma krakatau_run_path_origin (evs : list Krakatau.Event) (a : Krakatau.App) :
  (Krakatau.path (Krakatau.gpsTracker a) <> [] ->
   Krakatau.originGPS (Krakatau.gpsTracker a) <> None) ->
  Krakatau.path (Krakatau.gpsTracker (Krakatau.run evs a)) <> [] ->
  Krakatau.originGPS (Krakatau.gpsTracker (Krakatau.run evs a)) <> None.
Proof.
  revert a. induction evs as [|ev evs IH]; intros a Hinv; [assumption|].
  simpl. apply IH. now apply krakatau_handle_path_origin.
Qed.

(** C3, amended.  In [trj.js], in every reachable state the origin is set
    exactly when the path is non-empty, and no event modifies a set origin.
    In [script.js] the origin is set by [startGPSTracking], before any point
    is recorded: in every reachable state a non-empty path has an origin, and
    while tracking no event except a confirmed clear modifies a set origin. *)
Theorem origin_and_path :
  (forall p, Trj.reachable p ->
     (Trj.originGPS (Trj.state p) <> None <-> Trj.path (Trj.state p) <> [])) /\
  (forall ev p o,
     Trj.originGPS (Trj.state p) = Some o ->
     Trj.originGPS (Trj.state (Trj.handle ev p)) = Some o) /\
  (forall a, Krakatau.reachable a ->
     Krakatau.path (Krakatau.gpsTracker a) <> [] ->
     Krakatau.originGPS (Krakatau.gpsTracker a) <> None) /\
  (forall ev a o,
     Krakatau.originGPS (Krakatau.gpsTracker a) = Some o ->
     Krakatau.isTracking (Krakatau.gpsTracker a) = true ->
     ev <> Krakatau.Clear true ->
     Krakatau.originGPS (Krakatau.gpsTracker (Krakatau.handle ev a)) = Some o).
Proof.
  split; [|split; [|split]].
  - intros p Hp. apply trj_reachable_path_origin in Hp.
    destruct (Trj.originGPS (Trj.state p)), (Trj.path (Trj.state p));
      split; intros H; try congruence.
    + destruct Hp as [_ Hp]. discriminate Hp. reflexivity.
    + destruct Hp as [Hp _]. discriminate Hp. reflexivity.
  - intros ev p o. apply trj_handle_origin_kept.
  - intros a (c & geo & ctx_glob & evs & ->).
    apply krakatau_run_path_origin. simpl. congruence.
  - intros ev a o. apply krakatau_handle_origin_kept.
Qed.

Lemma origin_and_path_witness :
  Krakatau.originGPS (Krakatau.gpsTracker krakatau_started)
    = Some (Krakatau.mkOrigin 1 1) /\
  Krakatau.isTracking (Krakatau.gpsTracker krakatau_started) = true /\
  Krakatau.Stop <> Krakatau.Clear true /\
  Krakatau.originGPS
    (Krakatau.gpsTracker (Krakatau.handle Krakatau.Stop krakatau_started))
  = Some (Krakatau.mkOrigin 1 1).
Proof.
  destruct krakatau_started_tracker as (Ho & _ & Ht & _).
  assert (Hev : Krakatau.Stop <> Krakatau.Clear true) by discriminate.
  repeat split; try assumption.
  exact (proj2 (proj2 (proj2 origin_and_path))
           Krakatau.Stop krakatau_started (Krakatau.mkOrigin 1 1) Ho Ht Hev).
Defined.

Lemma krakatau_gpsToLocalXY_throws_witness :
  Krakatau.originGPS (Krakatau.gpsTracker krakatau_started)
    = Some (Krakatau.mkOrigin 1 1) /\
  Krakatau.ctx_bound krakatau_started = false /\
  Krakatau.gpsToLocalXY krakatau_started 1 1 = None.
Proof.
  assert (Ho : Krakatau.originGPS (Krakatau.gpsTracker krakatau_started)
               = Some (Krakatau.mkOrigin 1 1))
    by apply krakatau_started_tracker.
  assert (Hc : Krakatau.ctx_bound krakatau_started = false)
    by apply krakatau_started_tracker.
  repeat split; try assumption.
  exact (krakatau_gpsToLocalXY_throws krakatau_started
           (Krakatau.mkOrigin 1 1) Ho Hc).
Defined.

(** ** The fix filter *)

(** [handlePosition] when a point has been recorded and the origin is set:
    the fix is skipped, leaving the page as it was, when it is both close to
    the last point and early; otherwise it is recorded, and it adds its
    distance to the odometer only from [MIN_DISTANCE] on. *)
Lemma trj_filter (c : Trj.Coords) (now : R) (p : Trj.Page) (l : Trj.PathPoint) :
  last_item (Trj.path (Trj.state p)) = Some l ->
  Trj.originGPS (Trj.state p) <> None ->
  let d := Trj.calculateDistance (Trj.lat l) (Trj.lon l)
                                 (Trj.latitude c) (Trj.longitude c) in
  let t := now - Trj.lastUpdateTime (Trj.state p) in
  let p' := Trj.handlePosition c now p in
  (d < Trj.MIN_DISTANCE /\ t < Trj.MIN_TIME_BETWEEN -> p' = p) /\
  (~ (d < Trj.MIN_DISTANCE /\ t < Trj.MIN_TIME_BETWEEN) ->
   (exists pt, Trj.path (Trj.state p') = Trj.path (Trj.state p) ++ [pt] /\
               Trj.lat pt = Trj.latitude c /\
               Trj.lon pt = Trj.longitude c /\
               Trj.timestamp pt = now) /\
   Trj.lastUpdateTime (Trj.state p') = now /\
   (d >= Trj.MIN_DISTANCE ->
    Trj.totalDistance (Trj.state p') = Trj.totalDistance (Trj.state p) + d) /\
   (d < Trj.MIN_DISTANCE ->
    Trj.totalDistance (Trj.state p') = Trj.totalDistance (Trj.state p))).
Proof.
  intros Hl Ho d t p'. subst p'. unfold Trj.handlePosition.
  destruct (Trj.originGPS (Trj.state p)) as [o|] eqn:Eo; [|congruence].
  cbv zeta. rewrite Hl. fold d. fold t.
  destruct (JS.ltb d Trj.MIN_DISTANCE) eqn:Ed;
    [apply ltb_true_iff in Ed | apply ltb_false_iff in Ed];
    (destruct (JS.ltb t Trj.MIN_TIME_BETWEEN) eqn:Et;
     [apply ltb_true_iff in Et | apply ltb_false_iff in Et]);
    (destruct (JS.geb d Trj.MIN_DISTANCE) eqn:Eg;
     [apply geb_true_iff in Eg | apply geb_false_iff in Eg]);
    simpl; (split; [intros [H1 H2]; try reflexivity; lra|]); intros Hn;
    try (exfalso; apply Hn; split; assumption); try lra;
    (split; [eexists; split; [reflexivity|simpl; auto]|]);
    (split; [reflexivity|]); split; intros; try reflexivity; lra.
Qed.

(** The counterpart in [updateGPSPosition]: one threshold, half a meter, on
    the distance alone. *)
Lemma krakatau_filter (now : R) (a : Krakatau.App) (l : Krakatau.PathPoint) :
  Krakatau.invalid (Krakatau.vehicleData a) = false ->
  last_item (Krakatau.path (Krakatau.gpsTracker a)) = Some l ->
  Krakatau.originGPS (Krakatau.gpsTracker a) <> None ->
  let lat := JS.to_number (Krakatau.v_lat (Krakatau.vehicleData a)) in
  let lon := JS.to_number (Krakatau.long (Krakatau.vehicleData a)) in
  let d := Krakatau.calculateDistance (Krakatau.lat l) (Krakatau.lon l)
                                      lat lon in
  let r := Krakatau.updateGPSPosition now a in
  let g := Krakatau.gpsTracker a in
  let g' := Krakatau.gpsTracker (fst r) in
  (d < 0.5 -> r = (a, Krakatau.Normal)) /\
  (0.5 <= d ->
   Krakatau.totalDistance g' = Krakatau.totalDistance g + d /\
   (Krakatau.ctx_bound a = true ->
    snd r = Krakatau.Normal /\
    exists pt, Krakatau.path g' = Krakatau.path g ++ [pt] /\
               Krakatau.lat pt = lat /\ Krakatau.lon pt = lon /\
               Krakatau.timestamp pt = now) /\
   (Krakatau.ctx_bound a = false ->
    snd r = Krakatau.ReferenceError /\ Krakatau.path g' = Krakatau.path g)).
Proof.
  intros Hi Hl Ho lat lon d r g g'. subst r g g'.
  unfold Krakatau.updateGPSPosition, Krakatau.gpsToLocalXY,
    Krakatau.drawGPSCanvas.
  rewrite Hi.
  destruct (Krakatau.originGPS (Krakatau.gpsTracker a)) as [o|] eqn:Eo;
    [|congruence].
  cbv zeta. rewrite Hl. fold lat. fold lon. fold d.
  destruct (JS.ltb d 0.5) eqn:Ed;
    [apply ltb_true_iff in Ed | apply ltb_false_iff in Ed].
  - split; [reflexivity | lra].
  - split; [lra|]. intros _. simpl. rewrite Eo.
    destruct (Krakatau.ctx_bound a); simpl.
    + split; [|split; [|discriminate]].
      * destruct (Krakatau.canvas (Krakatau.gpsTracker a)); reflexivity.
      * intros _.
        destruct (Krakatau.canvas (Krakatau.gpsTracker a)); simpl;
          (split; [reflexivity|]); eexists; (split; [reflexivity|]);
          simpl; auto.
    + split; [reflexivity|]. split; [discriminate|]. auto.
Qed.

(** *** The sample sessions, evaluated *)

Lemma invalid_1_1 :
  Krakatau.invalid (Krakatau.mkVehicle (JS.Num 1) (JS.Num 1)) = false.
Proof. apply krakatau_invalid_num; lra. Qed.

Lemma krakatau_distance_same (lat lon : R) :
  Krakatau.calculateDistance lat lon lat lon = 0.
Proof. rewrite krakatau_distance_haversine. apply haversine_same. Qed.

(** Run a dashboard session on the sample vehicle. *)
Ltac krakatau_eval :=
  unfold vehicle_1_1;
  repeat (progress
            (cbn -[Krakatau.invalid JS.ltb Krakatau.calculateDistance
                   Rmult Rminus Rplus Rdiv cos PI IZR];
             unfold Krakatau.updateGPSFromVehicle, Krakatau.updateGPSPosition,
               Krakatau.startGPSTracking;
             cbn -[Krakatau.invalid JS.ltb Krakatau.calculateDistance
                   Rmult Rminus Rplus Rdiv cos PI IZR];
             rewrite ?invalid_1_1, ?krakatau_distance_same;
             js_cmp)).

Ltac trj_eval :=
  cbn -[JS.ltb JS.geb JS.min Trj.calculateDistance
        Rmult Rminus Rplus Rdiv cos PI IZR].

Lemma krakatau_one_point_reachable : Krakatau.reachable krakatau_one_point.
Proof. exists None, true, true. eexists. reflexivity. Qed.

Lemma krakatau_one_point_eval :
  krakatau_one_point =
  Krakatau.mkApp vehicle_1_1
    (Krakatau.mkTracker None (Some 1%nat) (Some (Krakatau.mkOrigin 1 1))
       [Krakatau.mkPoint
          ((1 - 1) * (PI / 180) * Krakatau.EARTH_RADIUS * cos (1 * PI / 180))
          ((1 - 1) * (PI / 180) * Krakatau.EARTH_RADIUS)
          1 1 0 1.0 0]
       0 (Some 0) None 3 true 0)
    [(Krakatau.success, "GPS Started!"%string)] [] true [1%nat] 2 0 true.
Proof. unfold krakatau_one_point. krakatau_eval. reflexivity. Qed.

Lemma trj_one_point_reachable : Trj.reachable trj_one_point.
Proof. exists 500, 500, true. eexists. reflexivity. Qed.

Lemma trj_one_point_last :
  last_item (Trj.path (Trj.state trj_one_point)) =
  Some (Trj.mkPoint
          ((1 - 1) * (PI / 180) * Trj.EARTH_RADIUS * cos (1 * PI / 180))
          ((1 - 1) * (PI / 180) * Trj.EARTH_RADIUS)
          1 1 0 5 (0 * 3.6)).
Proof. unfold trj_one_point. trj_eval. reflexivity. Qed.

(** Along a meridian, northwards, the distance is the arc between the two
    latitudes. *)
Lemma haversine_meridian (r lat1 lat2 lon : R) :
  0 <= lat2 - lat1 < 180 ->
  haversine r lat1 lon lat2 lon = r * ((lat2 - lat1) * PI / 180).
Proof.
  intros [Hlo Hhi]. unfold haversine.
  pose proof PI_RGT_0 as Hpi.
  set (t := (lat2 - lat1) * PI / 180 / 2).
  assert (Ht : 0 <= t < PI / 2).
  { unfold t. split.
    - apply Rmult_le_pos; [|lra]. apply Rmult_le_pos; [|lra].
      apply Rmult_le_pos; lra.
    - assert ((lat2 - lat1) * PI < 180 * PI)
        by (apply Rmult_lt_compat_r; lra).
      lra. }
  replace ((lon - lon) * PI / 180 / 2) with 0 by lra.
  rewrite sin_0.
  replace (sin t ^ 2 + cos (lat1 * PI / 180) * cos (lat2 * PI / 180) * 0 ^ 2)
    with (sin t ^ 2) by ring.
  assert (Hs : 0 <= sin t) by (apply sin_ge_0; lra).
  assert (Hc : 0 < cos t) by (apply cos_gt_0; lra).
  rewrite sqrt_pow2 by assumption.
  replace (1 - sin t ^ 2) with (cos t ^ 2).
  2:{ pose proof (sin2_cos2 t) as H. unfold Rsqr in H. lra. }
  rewrite sqrt_pow2 by lra.
  unfold JS.atan2. destruct (Rlt_dec 0 (cos t)); [|contradiction].
  change (sin t / cos t) with (tan t).
  rewrite atan_tan by lra.
  unfold t. lra.
Qed.

Lemma trj_distance_1_2 :
  Trj.calculateDistance 1 1 2 1 = Trj.EARTH_RADIUS * ((2 - 1) * PI / 180) /\
  Trj.calculateDistance 1 1 2 1 >= Trj.MIN_DISTANCE.
Proof.
  rewrite trj_distance_haversine, haversine_meridian by lra.
  split; [reflexivity|].
  pose proof PI2_1. unfold Trj.EARTH_RADIUS, Trj.MIN_DISTANCE. lra.
Qed.

Lemma trj_two_points_reachable : Trj.reachable trj_two_points.
Proof. exists 500, 500, true. eexists. reflexivity. Qed.

(** The second fix is recorded and its leg is counted. *)
Lemma trj_two_points_eval :
  Trj.path (Trj.state trj_two_points) =
    [Trj.mkPoint
       ((1 - 1) * (PI / 180) * Trj.EARTH_RADIUS * cos (1 * PI / 180))
       ((1 - 1) * (PI / 180) * Trj.EARTH_RADIUS)
       1 1 0 5 (0 * 3.6);
     Trj.mkPoint
       ((1 - 1) * (PI / 180) * Trj.EARTH_RADIUS * cos (1 * PI / 180))
       ((2 - 1) * (PI / 180) * Trj.EARTH_RADIUS)
       2 1 2000 5 (0 * 3.6)] /\
  Trj.totalDistance (Trj.state trj_two_points)
    = 0 + Trj.calculateDistance 1 1 2 1.
Proof.
  destruct trj_distance_1_2 as [_ Hd].
  unfold trj_two_points. trj_eval. unfold Trj.handlePosition. trj_eval.
  replace (JS.geb (Trj.calculateDistance 1 1 2 1) Trj.MIN_DISTANCE) with true
    by (symmetry; now apply geb_true_iff).
  replace (JS.ltb (Trj.calculateDistance 1 1 2 1) Trj.MIN_DISTANCE) with false
    by (symmetry; apply ltb_false_iff; lra).
  trj_eval. split; reflexivity.
Qed.

(** C1, as the dashboard violates it: a fix at the last recorded point,
    2000 ms after it, is skipped although the elapsed time reaches the
    claim's [MIN_TIME_BETWEEN] of 1000 ms. *)
Lemma krakatau_rejects_late_fix :
  Krakatau.reachable krakatau_one_point /\
  exists l,
    last_item (Krakatau.path (Krakatau.gpsTracker krakatau_one_point))
      = Some l /\
    let d := Krakatau.calculateDistance (Krakatau.lat l) (Krakatau.lon l) 1 1 in
    let t := 2000 - Krakatau.timestamp l in
    ~ (d < 1 /\ t < 1000) /\
    Krakatau.updateGPSFromVehicle 2000 krakatau_one_point
      = (krakatau_one_point, Krakatau.Normal).
Proof.
  split; [apply krakatau_one_point_reachable|].
  rewrite krakatau_one_point_eval. eexists. split; [reflexivity|].
  cbn [Krakatau.lat Krakatau.lon Krakatau.timestamp]. split; [lra|].
  krakatau_eval. reflexivity.
Qed.

Lemma app_one_neq {A : Type} (l : list A) (a : A) : l ++ [a] <> l.
Proof.
  intros H. apply (f_equal (@List.length A)) in H.
  rewrite length_app in H. simpl in H. lia.
Qed.

(** C1, amended.  In [trj.js], a fix that arrives when a point has been
    recorded, at distance [d] from the last recorded point and [t] after the
    last update, is rejected, leaving the page as it was, exactly when
    [d < MIN_DISTANCE] and [t < MIN_TIME_BETWEEN]; an accepted fix is recorded
    as a point, becomes the last update, and adds [d] to the odometer exactly
    when [d >= MIN_DISTANCE], nothing otherwise.  In [script.js], a valid fix
    that arrives when a point has been recorded is rejected, leaving the
    component as it was, exactly when [d < 0.5], whatever the time elapsed;
    an accepted fix adds [d] to the odometer and, where the page binds
    [ctx], is recorded as a point. *)
Theorem fix_filter :
  (forall (p : Trj.Page) (c : Trj.Coords) (now : R) (l : Trj.PathPoint),
     Trj.reachable p ->
     last_item (Trj.path (Trj.state p)) = Some l ->
     let d := Trj.calculateDistance (Trj.lat l) (Trj.lon l)
                                    (Trj.latitude c) (Trj.longitude c) in
     let t := now - Trj.lastUpdateTime (Trj.state p) in
     let p' := Trj.handlePosition c now p in
     (p' = p <-> d < Trj.MIN_DISTANCE /\ t < Trj.MIN_TIME_BETWEEN) /\
     (p' <> p ->
      (exists pt, Trj.path (Trj.state p') = Trj.path (Trj.state p) ++ [pt] /\
                  Trj.lat pt = Trj.latitude c /\
                  Trj.lon pt = Trj.longitude c /\
                  Trj.timestamp pt = now) /\
      Trj.lastUpdateTime (Trj.state p') = now /\
      (d >= Trj.MIN_DISTANCE ->
       Trj.totalDistance (Trj.state p')
       = Trj.totalDistance (Trj.state p) + d) /\
      (d < Trj.MIN_DISTANCE ->
       Trj.totalDistance (Trj.state p') = Trj.totalDistance (Trj.state p))))
  /\
  (forall (a : Krakatau.App) (now : R) (l : Krakatau.PathPoint),
     Krakatau.reachable a ->
     Krakatau.invalid (Krakatau.vehicleData a) = false ->
     last_item (Krakatau.path (Krakatau.gpsTracker a)) = Some l ->
     let lat := JS.to_number (Krakatau.v_lat (Krakatau.vehicleData a)) in
     let lon := JS.to_number (Krakatau.long (Krakatau.vehicleData a)) in
     let d := Krakatau.calculateDistance (Krakatau.lat l) (Krakatau.lon l)
                                         lat lon in
     let r := Krakatau.updateGPSPosition now a in
     let g := Krakatau.gpsTracker a in
     let g' := Krakatau.gpsTracker (fst r) in
     (r = (a, Krakatau.Normal) <-> d < 0.5) /\
     (0.5 <= d ->
      Krakatau.totalDistance g' = Krakatau.totalDistance g + d /\
      (Krakatau.ctx_bound a = true ->
       exists pt, Krakatau.path g' = Krakatau.path g ++ [pt] /\
                  Krakatau.lat pt = lat /\ Krakatau.lon pt = lon /\
                  Krakatau.timestamp pt = now))).
Proof.
  split.
  - intros p c now l Hr Hl d t p'.
    assert (Ho : Trj.originGPS (Trj.state p) <> None).
    { intros Ho. apply (trj_reachable_path_origin p Hr) in Ho.
      rewrite Ho in Hl. discriminate. }
    destruct (trj_filter c now p l Hl Ho) as [Hrej Hacc].
    fold d t p' in Hrej, Hacc.
    assert (Hiff : p' = p <-> d < Trj.MIN_DISTANCE /\ t < Trj.MIN_TIME_BETWEEN).
    { split; [|exact Hrej]. intros Heq.
      destruct (Rlt_dec d Trj.MIN_DISTANCE) as [Hd|Hd];
        [destruct (Rlt_dec t Trj.MIN_TIME_BETWEEN) as [Ht|Ht]; [tauto|]|];
        (destruct Hacc as [(pt & Hp & _) _]; [tauto|];
         rewrite Heq in Hp; symmetry in Hp; now apply app_one_neq in Hp). }
    split; [exact Hiff|]. intros Hne. apply Hacc. tauto.
  - intros a now l Hr Hi Hl lat lon d r g g'.
    assert (Ho : Krakatau.originGPS (Krakatau.gpsTracker a) <> None).
    { destruct Hr as (c & geo & cg & evs & ->).
      apply krakatau_run_path_origin; [simpl; congruence|].
      intros Hnil. rewrite Hnil in Hl. discriminate. }
    destruct (krakatau_filter now a l Hi Hl Ho) as [Hrej Hacc].
    fold lat lon d r g g' in Hrej, Hacc.
    split.
    + split; [|exact Hrej]. intros Heq.
      destruct (Rlt_dec d 0.5) as [Hd|Hd]; [assumption|].
      destruct Hacc as [Ht _]; [lra|].
      unfold g' in Ht. rewrite Heq in Ht. simpl in Ht. fold g in Ht. lra.
    + intros Hd. destruct (Hacc Hd) as (Ht & Hb & _).
      split; [exact Ht|]. intros Hc. now apply Hb.
Qed.

Lemma fix_filter_witness :
  Trj.reachable trj_one_point /\
  exists l, last_item (Trj.path (Trj.state trj_one_point)) = Some l /\
  (Trj.handlePosition (Trj.mkCoords 1 1 5 None) 500 trj_one_point
   = trj_one_point <->
   Trj.calculateDistance (Trj.lat l) (Trj.lon l) 1 1 < Trj.MIN_DISTANCE /\
   500 - Trj.lastUpdateTime (Trj.state trj_one_point) < Trj.MIN_TIME_BETWEEN).
Proof.
  split; [apply trj_one_point_reachable|].
  eexists. split; [apply trj_one_point_last|].
  exact (proj1 (proj1 fix_filter trj_one_point (Trj.mkCoords 1 1 5 None) 500 _
                  trj_one_point_reachable trj_one_point_last)).
Defined.

(** ** The odometer *)

Lemma trj_handlePosition_total (c : Trj.Coords) (now : R) (p : Trj.Page) :
  let s := Trj.state p in
  let s' := Trj.state (Trj.handlePosition c now p) in
  Trj.totalDistance s' = Trj.totalDistance s \/
  exists l, last_item (Trj.path s) = Some l /\
    let d := Trj.calculateDistance (Trj.lat l) (Trj.lon l)
                                   (Trj.latitude c) (Trj.longitude c) in
    d >= Trj.MIN_DISTANCE /\
    Trj.totalDistance s' = Trj.totalDistance s + d.
Proof.
  unfold Trj.handlePosition.
  destruct (Trj.originGPS (Trj.state p));
    cbn -[JS.ltb JS.geb Trj.calculateDistance];
    (destruct (last_item (Trj.path (Trj.state p))) as [l|] eqn:El);
    cbn -[JS.ltb JS.geb Trj.calculateDistance];
    try (left; reflexivity);
    (destruct (JS.ltb _ Trj.MIN_DISTANCE && JS.ltb _ Trj.MIN_TIME_BETWEEN));
    cbn -[JS.ltb JS.geb Trj.calculateDistance];
    try (left; reflexivity);
    (destruct (JS.geb _ Trj.MIN_DISTANCE) eqn:Eg);
    cbn -[JS.ltb JS.geb Trj.calculateDistance];
    try (left; reflexivity);
    right; exists l; (split; [reflexivity|]);
    apply geb_true_iff in Eg; (split; [exact Eg | reflexivity]).
Qed.

Lemma trj_startTracking_state (p : Trj.Page) :
  let s := Trj.state p in
  let s' := Trj.state (Trj.startTracking p) in
  Trj.originGPS s' = Trj.originGPS s /\
  Trj.path s' = Trj.path s /\
  Trj.totalDistance s' = Trj.totalDistance s /\
  Trj.startTime s' = Trj.startTime s /\
  Trj.lastUpdateTime s' = Trj.lastUpdateTime s /\
  Trj.canvas s' = Trj.canvas s /\
  Trj.pixelsPerMeter s' = Trj.pixelsPerMeter s.
Proof.
  unfold Trj.startTracking. destruct (Trj.geolocation p); cbn; tauto.
Qed.

Lemma trj_handle_total (ev : Trj.Event) (p : Trj.Page) :
  Trj.totalDistance (Trj.state p)
  <= Trj.totalDistance (Trj.state (Trj.handle ev p)).
Proof.
  destruct ev as [c now | e | n | w h]; cbn [Trj.handle].
  - destruct (trj_handlePosition_total c now p) as [E | (l & _ & Hd & E)];
      rewrite E; unfold Trj.MIN_DISTANCE in *; lra.
  - unfold Trj.handleError. repeat break_match; cbn; apply Rle_refl.
  - unfold Trj.expire.
    destruct (nth_error (Trj.timers p) n) as [[[] d]|]; [|apply Rle_refl].
    match goal with
    | |- context [Trj.startTracking ?q] =>
        destruct (trj_startTracking_state q) as (_ & _ & E & _)
    end.
    rewrite E. apply Rle_refl.
  - cbn. apply Rle_refl.
Qed.

Lemma trj_run_total (evs : list Trj.Event) (p : Trj.Page) :
  Trj.totalDistance (Trj.state p)
  <= Trj.totalDistance (Trj.state (Trj.run evs p)).
Proof.
  revert p. induction evs as [|ev evs IH]; intros p; [cbn; lra|].
  cbn [Trj.run fold_left]. eapply Rle_trans; [apply (trj_handle_total ev)|].
  apply IH.
Qed.

(** In [trj.js] a delivered fix leaves the odometer as it is or adds to it
    the distance from the last recorded point, and the latter only when
    that distance reaches [MIN_DISTANCE]; over any sequence of events the
    odometer never decreases. *)
Theorem trj_odometer_monotone :
  (forall (c : Trj.Coords) (now : R) (p : Trj.Page),
     let s := Trj.state p in
     let s' := Trj.state (Trj.handlePosition c now p) in
     Trj.totalDistance s' = Trj.totalDistance s \/
     exists l, last_item (Trj.path s) = Some l /\
       let d := Trj.calculateDistance (Trj.lat l) (Trj.lon l)
                                      (Trj.latitude c) (Trj.longitude c) in
       d >= Trj.MIN_DISTANCE /\
       Trj.totalDistance s' = Trj.totalDistance s + d) /\
  (forall (evs : list Trj.Event) (p : Trj.Page),
     Trj.totalDistance (Trj.state p)
     <= Trj.totalDistance (Trj.state (Trj.run evs p))).
Proof.
  split; [exact trj_handlePosition_total | exact trj_run_total].
Qed.

(** ** Starting *)

Lemma trj_startTracking_supported (p : Trj.Page) :
  Trj.geolocation p = true ->
  let p' := Trj.startTracking p in
  let id := S (List.length (Trj.watches p)) in
  Trj.watches p' = id :: Trj.watches p /\
  Trj.watchId (Trj.state p') = Some id /\
  Trj.status p' =
    Some (Trj.mkStatus "Searching GPS signal..." "searching" "Searching") /\
  Trj.timers p' = Trj.timers p /\
  Trj.redraws p' = Trj.redraws p.
Proof.
  intros Hg. unfold Trj.startTracking. rewrite Hg. cbn. tauto.
Qed.

Lemma trj_startTracking_unsupported (p : Trj.Page) :
  Trj.geolocation p = false ->
  Trj.startTracking p =
  Trj.updateStatus "GPS not supported" "error" "Not Supported" p.
Proof. intros Hg. unfold Trj.startTracking. now rewrite Hg. Qed.

(** C7, as [trj.js] violates it: once the start timer has fired the tracker
    is searching, with one position watch; a second [startTracking]
    registers a second watch, and the retry after a timeout is such a
    second call. *)
Lemma trj_start_twice_subscribes_twice :
  Trj.reachable trj_searching /\
  Trj.status trj_searching =
    Some (Trj.mkStatus "Searching GPS signal..." "searching" "Searching") /\
  Trj.watches trj_searching = [1%nat] /\
  Trj.watches (Trj.startTracking trj_searching) = [2%nat; 1%nat] /\
  Trj.startTracking trj_searching <> trj_searching /\
  Trj.reachable trj_retried /\
  Trj.watches trj_retried = [2%nat; 1%nat].
Proof.
  split; [exists 500, 500, true; eexists; reflexivity|].
  split; [reflexivity|]. split; [reflexivity|]. split; [reflexivity|].
  split; [intros H; apply (f_equal Trj.watches) in H; discriminate H|].
  split; [exists 500, 500, true; eexists; reflexivity | reflexivity].
Qed.

(** C7, amended.  In [script.js], [startGPSTracking] is idempotent: while
    tracking it changes neither the tracker nor the watches, timers or
    vehicle data; when not tracking and the vehicle position is valid it
    starts tracking and, if geolocation exists, registers one fallback
    watch.  In [trj.js], [startTracking] has no such guard: whenever
    geolocation exists, every call registers one more position watch and
    sets the status to searching, whatever the state, and leaves origin,
    path and odometer alone; without geolocation it registers nothing and
    reports an error. *)
Theorem start_tracking :
  (forall (now : R) (a : Krakatau.App),
     Krakatau.isTracking (Krakatau.gpsTracker a) = true ->
     let a' := Krakatau.startGPSTracking now a in
     Krakatau.gpsTracker a' = Krakatau.gpsTracker a /\
     Krakatau.watches a' = Krakatau.watches a /\
     Krakatau.timers a' = Krakatau.timers a /\
     Krakatau.vehicleData a' = Krakatau.vehicleData a) /\
  (forall (now : R) (a : Krakatau.App),
     Krakatau.isTracking (Krakatau.gpsTracker a) = false ->
     Krakatau.invalid (Krakatau.vehicleData a) = false ->
     let a' := Krakatau.startGPSTracking now a in
     Krakatau.isTracking (Krakatau.gpsTracker a') = true /\
     Krakatau.watches a' =
       (if Krakatau.geolocation a
        then Krakatau.next_watch a :: Krakatau.watches a
        else Krakatau.watches a)) /\
  (forall p : Trj.Page,
     Trj.geolocation p = true ->
     let p' := Trj.startTracking p in
     Trj.watches p' = S (List.length (Trj.watches p)) :: Trj.watches p /\
     Trj.status p' =
       Some (Trj.mkStatus "Searching GPS signal..." "searching" "Searching") /\
     Trj.originGPS (Trj.state p') = Trj.originGPS (Trj.state p) /\
     Trj.path (Trj.state p') = Trj.path (Trj.state p) /\
     Trj.totalDistance (Trj.state p') = Trj.totalDistance (Trj.state p)) /\
  (forall p : Trj.Page,
     Trj.geolocation p = false ->
     let p' := Trj.startTracking p in
     Trj.watches p' = Trj.watches p /\
     Trj.status p' =
       Some (Trj.mkStatus "GPS not supported" "error" "Not Supported")).
Proof.
  split; [|split; [|split]].
  - intros now a Ht a'. subst a'.
    rewrite krakatau_start_while_tracking by assumption. cbn. tauto.
  - intros now a Ht Hi a'.
    destruct (krakatau_start_fresh now a Ht Hi)
      as (_ & _ & Ht' & _ & _ & _ & _ & Hw & _).
    split; assumption.
  - intros p Hg p'.
    destruct (trj_startTracking_supported p Hg) as (Hw & _ & Hs & _).
    destruct (trj_startTracking_state p) as (Ho & Hp & Hd & _).
    repeat split; assumption.
  - intros p Hg p'. subst p'.
    rewrite trj_startTracking_unsupported by assumption. cbn. tauto.
Qed.

Lemma start_tracking_witness :
  Krakatau.isTracking (Krakatau.gpsTracker krakatau_started) = true /\
  Krakatau.gpsTracker (Krakatau.startGPSTracking 7 krakatau_started)
  = Krakatau.gpsTracker krakatau_started.
Proof.
  assert (Ht : Krakatau.isTracking (Krakatau.gpsTracker krakatau_started)
               = true) by apply krakatau_started_tracker.
  split; [exact Ht|].
  exact (proj1 (proj1 start_tracking 7 krakatau_started Ht)).
Defined.

(** ** Clearing *)

(** C8, as [script.js] violates it: a confirmed clear while tracking is not
    rejected; it stops tracking and resets the origin. *)
Lemma krakatau_clear_while_tracking :
  Krakatau.reachable krakatau_started /\
  Krakatau.isTracking (Krakatau.gpsTracker krakatau_started) = true /\
  Krakatau.originGPS (Krakatau.gpsTracker krakatau_started)
    = Some (Krakatau.mkOrigin 1 1) /\
  Krakatau.originGPS
    (Krakatau.gpsTracker (Krakatau.clearGPSPath true krakatau_started))
    = None /\
  Krakatau.isTracking
    (Krakatau.gpsTracker (Krakatau.clearGPSPath true krakatau_started))
    = false.
Proof.
  split; [apply krakatau_started_reachable|].
  destruct krakatau_started_tracker as (Ho & _ & Ht & _).
  split; [exact Ht|]. split; [exact Ho|].
  unfold Krakatau.clearGPSPath. rewrite Ht. cbn [negb].
  split.
  - apply (@eq_trans _ _ None);
      [apply krakatau_drawGPSCanvas_tracker | reflexivity].
  - match goal with
    | |- Krakatau.isTracking
           (Krakatau.gpsTracker (Krakatau.toastr _ _
                                   (Krakatau.drawGPSCanvas ?b))) = _ =>
        destruct (krakatau_drawGPSCanvas_tracker b) as (_ & _ & _ & _ & E & _)
    end.
    cbn [Krakatau.toastr Krakatau.gpsTracker]. rewrite E.
    cbn [Krakatau.with_tracker Krakatau.gpsTracker Krakatau.isTracking].
    apply krakatau_stop_tracker.
Qed.

Lemma clear_path_reset (a : Krakatau.App) :
  Krakatau.path (Krakatau.gpsTracker (Krakatau.clearGPSPath true a)) = [] /\
  Krakatau.totalDistance (Krakatau.gpsTracker (Krakatau.clearGPSPath true a))
  = 0.
Proof.
  unfold Krakatau.clearGPSPath. cbn [negb].
  match goal with
  | |- context [Krakatau.toastr _ _ (Krakatau.drawGPSCanvas ?b)] =>
      destruct (krakatau_drawGPSCanvas_tracker b) as (_ & E1 & E2 & _)
  end.
  cbn [Krakatau.toastr Krakatau.gpsTracker]. rewrite E1, E2. cbn. tauto.
Qed.

(** C8, amended.  [clearGPSPath] asks for confirmation.  Declined, it
    changes nothing.  Confirmed, in any state, it stops tracking first if
    tracking is active, then empties the path, unsets origin and start time,
    zeroes the odometer and the retry counter, and redraws the canvas if a
    drawing context exists. *)
Theorem clear_path (a : Krakatau.App) :
  Krakatau.clearGPSPath false a = a /\
  (let a' := Krakatau.clearGPSPath true a in
   let g' := Krakatau.gpsTracker a' in
   Krakatau.path g' = [] /\
   Krakatau.originGPS g' = None /\
   Krakatau.totalDistance g' = 0 /\
   Krakatau.startTime g' = None /\
   Krakatau.retryCount g' = 0%nat /\
   Krakatau.isTracking g' = false /\
   Krakatau.frames a' =
     match Krakatau.canvas (Krakatau.gpsTracker a) with
     | Some _ => S (Krakatau.frames a)
     | None => Krakatau.frames a
     end).
Proof.
  split; [reflexivity|].
  unfold Krakatau.clearGPSPath, Krakatau.stopGPSTracking,
    Krakatau.drawGPSCanvas.
  cbn [negb].
  destruct (Krakatau.isTracking (Krakatau.gpsTracker a)) eqn:Ht;
    destruct (Krakatau.watchId (Krakatau.gpsTracker a)) eqn:Ew;
    destruct (Krakatau.canvas (Krakatau.gpsTracker a)) eqn:Ec;
    cbn; rewrite ?Ec; cbn; rewrite ?Ht; tauto.
Qed.

(** ** Position errors *)

Lemma remove_nth_last {A : Type} (l : list A) (a : A) :
  Trj.remove_nth (List.length l) (l ++ [a]) = l.
Proof. induction l as [|b l IH]; cbn; [reflexivity | now rewrite IH]. Qed.

Lemma nth_error_last {A : Type} (l : list A) (a : A) :
  nth_error (l ++ [a]) (List.length l) = Some a.
Proof. induction l as [|b l IH]; cbn; [reflexivity | exact IH]. Qed.

(** C9, as [trj.js] violates it: the error status is not terminal.  After a
    timeout and then a denied permission the status is an error, yet the
    retry of the timeout is still pending, and its expiry starts tracking
    again: the status is back to searching, with a second position watch.
    After an unavailable position the next fix is recorded and the status
    becomes tracking. *)
Lemma trj_error_not_terminal :
  Trj.reachable trj_denied /\
  Trj.status trj_denied =
    Some (Trj.mkStatus "GPS Permission Denied" "error" "Permission Denied") /\
  Trj.timers trj_denied = [(Trj.CallStartTracking, Trj.AUTO_RETRY_DELAY)] /\
  (let q := Trj.handle (Trj.Expire 0) trj_denied in
   Trj.status q =
     Some (Trj.mkStatus "Searching GPS signal..." "searching" "Searching") /\
   Trj.watches q = [2%nat; 1%nat]) /\
  Trj.reachable trj_unavailable /\
  Trj.status trj_unavailable =
    Some (Trj.mkStatus "GPS Unavailable" "error" "Unavailable") /\
  (let q := Trj.handle (Trj.Position (Trj.mkCoords 1 1 5 None) 0)
                       trj_unavailable in
   Trj.status q =
     Some (Trj.mkStatus "GPS Locked! Tracking..." "locked" "Tracking") /\
   List.length (Trj.path (Trj.state q)) = 1%nat).
Proof.
  split; [exists 500, 500, true; eexists; reflexivity|].
  split; [reflexivity|]. split; [reflexivity|].
  split; [split; reflexivity|].
  split; [exists 500, 500, true; eexists; reflexivity|].
  split; [reflexivity|].
  split; reflexivity.
Qed.

(** C9, amended.  A timeout schedules [startTracking] after
    [AUTO_RETRY_DELAY] and leaves the status line and the tracker state
    alone, and the expiry of that timer runs [startTracking]; a denied
    permission or an unavailable position sets the status to an error and
    schedules nothing.  That status is not terminal: [handleError] cancels no
    timer and releases no watch, so after either error every timer still
    pending runs [startTracking] again, which sets the status to searching
    and registers one more watch, and a first fix is still recorded and sets
    the status to tracking. *)
Theorem handleError_taxonomy (p : Trj.Page) :
  (let q := Trj.handleError (Trj.mkError Trj.TIMEOUT) p in
   Trj.timers q = Trj.timers p ++ [(Trj.CallStartTracking, Trj.AUTO_RETRY_DELAY)] /\
   Trj.status q = Trj.status p /\
   Trj.state q = Trj.state p /\
   Trj.watches q = Trj.watches p /\
   Trj.expire (List.length (Trj.timers p)) q = Trj.startTracking p) /\
  (let q := Trj.handleError (Trj.mkError Trj.PERMISSION_DENIED) p in
   Trj.status q =
     Some (Trj.mkStatus "GPS Permission Denied" "error" "Permission Denied") /\
   Trj.timers q = Trj.timers p /\
   Trj.state q = Trj.state p /\
   Trj.watches q = Trj.watches p) /\
  (let q := Trj.handleError (Trj.mkError Trj.POSITION_UNAVAILABLE) p in
   Trj.status q = Some (Trj.mkStatus "GPS Unavailable" "error" "Unavailable") /\
   Trj.timers q = Trj.timers p /\
   Trj.state q = Trj.state p /\
   Trj.watches q = Trj.watches p) /\
  (forall e : Trj.PositionError,
     Trj.code e = Trj.PERMISSION_DENIED \/
     Trj.code e = Trj.POSITION_UNAVAILABLE ->
     let q := Trj.handleError e p in
     (forall n : nat,
        (n < List.length (Trj.timers p))%nat ->
        Trj.geolocation p = true ->
        Trj.status (Trj.expire n q) =
          Some (Trj.mkStatus "Searching GPS signal..." "searching"
                             "Searching") /\
        Trj.watches (Trj.expire n q) =
          S (List.length (Trj.watches p)) :: Trj.watches p) /\
     (forall (c : Trj.Coords) (now : R),
        Trj.originGPS (Trj.state p) = None ->
        Trj.path (Trj.state p) = [] ->
        let r := Trj.handlePosition c now q in
        Trj.status r =
          Some (Trj.mkStatus "GPS Locked! Tracking..." "locked" "Tracking") /\
        List.length (Trj.path (Trj.state r)) = 1%nat)).
Proof.
  split; [|split; [|split]]; cbn; try tauto.
  - repeat split.
    unfold Trj.expire. cbn. rewrite nth_error_last, remove_nth_last.
    now destruct p.
  - intros e He.
    assert (Hq : Trj.timers (Trj.handleError e p) = Trj.timers p /\
                 Trj.state (Trj.handleError e p) = Trj.state p /\
                 Trj.watches (Trj.handleError e p) = Trj.watches p /\
                 Trj.geolocation (Trj.handleError e p) = Trj.geolocation p).
    { unfold Trj.handleError. destruct He as [-> | ->]; cbn; tauto. }
    destruct Hq as (Ht & Hs & Hw & Hg). split.
    + intros n Hn Hgeo. unfold Trj.expire. rewrite Ht.
      destruct (nth_error (Trj.timers p) n) as [[[] d]|] eqn:En.
      * match goal with
        | |- context [Trj.startTracking ?q] =>
            destruct (trj_startTracking_supported q) as (W & _ & St & _);
              [cbn; now rewrite Hg|]
        end.
        split; [exact St|]. rewrite W. cbn. now rewrite Hw.
      * apply nth_error_None in En. lia.
    + intros c now Ho Hp.
      unfold Trj.handlePosition. rewrite Hs, Ho. cbn. rewrite Hp. cbn.
      split; reflexivity.
Qed.

(** ** Invalid fixes *)

Lemma krakatau_invalid_missing (v : Krakatau.VehicleData) :
  (Krakatau.v_lat v = JS.Undefined \/ Krakatau.v_lat v = JS.Null \/
   Krakatau.v_lat v = JS.Num 0 \/
   Krakatau.long v = JS.Undefined \/ Krakatau.long v = JS.Null \/
   Krakatau.long v = JS.Num 0) ->
  Krakatau.invalid v = true.
Proof.
  unfold Krakatau.invalid.
  intros [H | [H | [H | [H | [H | H]]]]]; rewrite H; cbn;
    try reflexivity;
    try (destruct (Req_dec_T 0 0); [|contradiction]);
    cbn; rewrite ?orb_true_r; try reflexivity;
    destruct (JS.truthy (Krakatau.v_lat v)); reflexivity.
Qed.

(** C10.  When the latitude or the longitude of [vehicleData] is missing,
    [null] or 0, [updateGPSFromVehicle] and [updateGPSPosition] return
    normally and leave the whole component as it was: no point, no origin,
    no other change; and [startGPSTracking] on such data, when not
    tracking, starts nothing: origin, start time, path, odometer, tracking
    flag and watches stay as they were. *)
Theorem invalid_fix_dropped (a : Krakatau.App) (now : R) :
  (Krakatau.v_lat (Krakatau.vehicleData a) = JS.Undefined \/
   Krakatau.v_lat (Krakatau.vehicleData a) = JS.Null \/
   Krakatau.v_lat (Krakatau.vehicleData a) = JS.Num 0 \/
   Krakatau.long (Krakatau.vehicleData a) = JS.Undefined \/
   Krakatau.long (Krakatau.vehicleData a) = JS.Null \/
   Krakatau.long (Krakatau.vehicleData a) = JS.Num 0) ->
  Krakatau.updateGPSFromVehicle now a = (a, Krakatau.Normal) /\
  Krakatau.updateGPSPosition now a = (a, Krakatau.Normal) /\
  (Krakatau.isTracking (Krakatau.gpsTracker a) = false ->
   let g := Krakatau.gpsTracker a in
   let a' := Krakatau.startGPSTracking now a in
   let g' := Krakatau.gpsTracker a' in
   Krakatau.originGPS g' = Krakatau.originGPS g /\
   Krakatau.startTime g' = Krakatau.startTime g /\
   Krakatau.path g' = Krakatau.path g /\
   Krakatau.totalDistance g' = Krakatau.totalDistance g /\
   Krakatau.isTracking g' = false /\
   Krakatau.watches a' = Krakatau.watches a).
Proof.
  intros H. apply krakatau_invalid_missing in H.
  unfold Krakatau.updateGPSFromVehicle, Krakatau.updateGPSPosition,
    Krakatau.startGPSTracking.
  rewrite H. split; [now destruct (negb _)|]. split; [reflexivity|].
  intros Ht. rewrite Ht. cbn.
  break_match; cbn; rewrite ?Ht; tauto.
Qed.

Lemma invalid_fix_dropped_witness :
  Krakatau.v_lat (Krakatau.vehicleData (Krakatau.initial None true false))
    = JS.Num 0 /\
  Krakatau.updateGPSPosition 5 (Krakatau.initial None true false)
    = (Krakatau.initial None true false, Krakatau.Normal).
Proof.
  split; [reflexivity|].
  apply (invalid_fix_dropped (Krakatau.initial None true false) 5).
  right. right. left. reflexivity.
Defined.

(** * Further properties of [trj.js] *)

(** ** The first fix *)

Lemma trj_first_fix_total (c : Trj.Coords) (now : R) (p : Trj.Page) :
  Trj.originGPS (Trj.state p) = None ->
  Trj.path (Trj.state p) = [] ->
  let s' := Trj.state (Trj.handlePosition c now p) in
  Trj.totalDistance s' = Trj.totalDistance (Trj.state p) /\
  exists pt, Trj.path s' = [pt].
Proof.
  intros Ho Hp. unfold Trj.handlePosition. rewrite Ho. cbn. rewrite Hp. cbn.
  split; [reflexivity|]. eexists. reflexivity.
Qed.

(** The first fix of a session is recorded whatever it is: it becomes the
    origin and the start time, it is stored as the point (0, 0), the
    odometer does not move, the status becomes locked and the canvas is
    redrawn once. *)
Theorem trj_first_fix (c : Trj.Coords) (now : R) (p : Trj.Page) :
  Trj.originGPS (Trj.state p) = None ->
  Trj.path (Trj.state p) = [] ->
  let p' := Trj.handlePosition c now p in
  let s' := Trj.state p' in
  Trj.originGPS s' = Some (Trj.mkOrigin (Trj.latitude c) (Trj.longitude c)) /\
  Trj.startTime s' = Some now /\
  Trj.lastUpdateTime s' = now /\
  Trj.totalDistance s' = Trj.totalDistance (Trj.state p) /\
  (exists pt, Trj.path s' = [pt] /\
              Trj.x pt = 0 /\ Trj.y pt = 0 /\
              Trj.lat pt = Trj.latitude c /\ Trj.lon pt = Trj.longitude c /\
              Trj.timestamp pt = now /\
              Trj.accuracy pt = Trj.c_accuracy c) /\
  Trj.status p' =
    Some (Trj.mkStatus "GPS Locked! Tracking..." "locked" "Tracking") /\
  Trj.redraws p' = S (Trj.redraws p).
Proof.
  intros Ho Hp. unfold Trj.handlePosition. rewrite Ho. cbn. rewrite Hp. cbn.
  repeat split.
  eexists. split; [reflexivity|]. cbn. repeat split; ring.
Qed.

Lemma trj_first_fix_witness :
  let p := Trj.init 500 500 true in
  Trj.originGPS (Trj.state p) = None /\
  Trj.path (Trj.state p) = [] /\
  Trj.startTime (Trj.state (Trj.handlePosition (Trj.mkCoords 1 1 5 None) 9 p))
  = Some 9.
Proof.
  split; [reflexivity|]. split; [reflexivity|].
  apply (trj_first_fix (Trj.mkCoords 1 1 5 None) 9 (Trj.init 500 500 true));
    reflexivity.
Defined.

(** ** The path only grows *)

Lemma trj_handle_path (ev : Trj.Event) (p : Trj.Page) :
  Trj.path (Trj.state (Trj.handle ev p)) = Trj.path (Trj.state p) \/
  exists c now pt,
    ev = Trj.Position c now /\
    Trj.path (Trj.state (Trj.handle ev p)) = Trj.path (Trj.state p) ++ [pt] /\
    Trj.lat pt = Trj.latitude c /\ Trj.lon pt = Trj.longitude c /\
    Trj.timestamp pt = now.
Proof.
  destruct ev as [c now | e | n | w h]; cbn [Trj.handle].
  - destruct (trj_handlePosition_accept_shape c now p) as [E | (pt & E & H)];
      [left; exact E | right; exists c, now, pt; tauto].
  - left. unfold Trj.handleError. repeat break_match; reflexivity.
  - left. unfold Trj.expire.
    destruct (nth_error (Trj.timers p) n) as [[[] d]|]; [|reflexivity].
    match goal with
    | |- context [Trj.startTracking ?q] =>
        destruct (trj_startTracking_state q) as (_ & E & _)
    end.
    exact E.
  - left. reflexivity.
Qed.

(** No event removes, reorders or rewrites a recorded point: the path after
    any sequence of events extends the path before it. *)
Theorem trj_path_append_only (evs : list Trj.Event) (p : Trj.Page) :
  exists added,
    Trj.path (Trj.state (Trj.run evs p)) = Trj.path (Trj.state p) ++ added /\
    (List.length added <= List.length evs)%nat.
Proof.
  revert p. induction evs as [|ev evs IH]; intros p.
  - exists []. cbn. rewrite app_nil_r. split; [reflexivity | lia].
  - cbn [Trj.run fold_left].
    destruct (IH (Trj.handle ev p)) as (added & E & Hlen).
    unfold Trj.run in E. rewrite E.
    destruct (trj_handle_path ev p) as [E' | (c & now & pt & _ & E' & _)];
      rewrite E'.
    + exists added. split; [reflexivity | cbn; lia].
    + exists (pt :: added). rewrite <- app_assoc. split; [reflexivity|].
      cbn. lia.
Qed.

(** ** What a session keeps true *)

(** The two ways [handlePosition] can end once the path is empty whenever
    the origin is unset. *)
Lemma trj_handlePosition_cases (c : Trj.Coords) (now : R) (p : Trj.Page) :
  let s := Trj.state p in
  let p' := Trj.handlePosition c now p in
  let s' := Trj.state p' in
  (Trj.originGPS s = None -> Trj.path s = []) ->
  (p' = p /\ Trj.originGPS s <> None /\ Trj.path s <> []) \/
  (exists pt,
     Trj.path s' = Trj.path s ++ [pt] /\
     Trj.lat pt = Trj.latitude c /\ Trj.lon pt = Trj.longitude c /\
     Trj.timestamp pt = now /\
     (Trj.x pt, Trj.y pt) = Trj.gpsToXY s' (Trj.lat pt) (Trj.lon pt) /\
     Trj.lastUpdateTime s' = now /\
     Trj.originGPS s' =
       match Trj.originGPS s with
       | Some o => Some o
       | None => Some (Trj.mkOrigin (Trj.latitude c) (Trj.longitude c))
       end /\
     Trj.startTime s' =
       match Trj.originGPS s with
       | Some _ => Trj.startTime s
       | None => Some now
       end).
Proof.
  cbv zeta. intros Hinv. unfold Trj.handlePosition.
  destruct (Trj.originGPS (Trj.state p)) as [o|] eqn:Eo;
    [|rewrite (Hinv eq_refl)];
    cbn -[JS.ltb JS.geb Trj.calculateDistance Trj.gpsToXY].
  - destruct (last_item (Trj.path (Trj.state p))) as [l|] eqn:El;
      cbn -[JS.ltb JS.geb Trj.calculateDistance Trj.gpsToXY];
      try (destruct (JS.ltb _ Trj.MIN_DISTANCE
                     && JS.ltb _ Trj.MIN_TIME_BETWEEN);
           [left; split; [reflexivity|]; split; [congruence|];
            intros Hnil; rewrite Hnil in El; discriminate|]);
      try (destruct (JS.geb _ Trj.MIN_DISTANCE));
      cbn -[JS.ltb JS.geb Trj.calculateDistance Trj.gpsToXY];
      right; eexists; (split; [reflexivity|]);
      cbn -[JS.ltb JS.geb Trj.calculateDistance Trj.gpsToXY];
      repeat split; unfold Trj.gpsToXY; cbn; rewrite ?Eo; reflexivity.
  - right. eexists. split; [reflexivity|]. cbn. repeat split.
Qed.

Lemma trj_gpsToXY_origin_only (s s' : Trj.State) (lat lon : R) :
  Trj.originGPS s = Trj.originGPS s' ->
  Trj.gpsToXY s lat lon = Trj.gpsToXY s' lat lon.
Proof. intros H. unfold Trj.gpsToXY. now rewrite H. Qed.

(** Events other than a position leave origin, path and times alone. *)
Lemma trj_handle_other (ev : Trj.Event) (p : Trj.Page) :
  (forall c now, ev <> Trj.Position c now) ->
  let s := Trj.state p in
  let s' := Trj.state (Trj.handle ev p) in
  Trj.originGPS s' = Trj.originGPS s /\
  Trj.path s' = Trj.path s /\
  Trj.startTime s' = Trj.startTime s /\
  Trj.lastUpdateTime s' = Trj.lastUpdateTime s /\
  Trj.totalDistance s' = Trj.totalDistance s.
Proof.
  intros Hev. destruct ev as [c now | e | n | w h]; cbn [Trj.handle].
  - now destruct (Hev c now).
  - unfold Trj.handleError. repeat break_match; cbn; tauto.
  - unfold Trj.expire.
    destruct (nth_error (Trj.timers p) n) as [[[] d]|]; [|tauto].
    match goal with
    | |- context [Trj.startTracking ?q] =>
        destruct (trj_startTracking_state q) as (E1 & E2 & E3 & E4 & E5 & _)
    end.
    cbn in *. tauto.
  - cbn. tauto.
Qed.

Lemma trj_session_frame (s s' : Trj.State) :
  Trj.originGPS s' = Trj.originGPS s ->
  Trj.path s' = Trj.path s ->
  Trj.startTime s' = Trj.startTime s ->
  Trj.lastUpdateTime s' = Trj.lastUpdateTime s ->
  trj_session s -> trj_session s'.
Proof.
  intros E1 E2 E3 E4. unfold trj_session. rewrite E1, E2, E3, E4.
  destruct (Trj.path s) as [|first rest]; [tauto|].
  intros (H1 & H2 & H3 & H4). repeat split; try assumption.
  eapply Forall_impl; [|exact H4].
  intros pt Hpt. cbv beta in *. rewrite Hpt.
  apply trj_gpsToXY_origin_only. now symmetry.
Qed.

Lemma trj_handle_session (ev : Trj.Event) (p : Trj.Page) :
  trj_session (Trj.state p) -> trj_session (Trj.state (Trj.handle ev p)).
Proof.
  intros Hinv.
  assert (Hempty : Trj.originGPS (Trj.state p) = None ->
                   Trj.path (Trj.state p) = []).
  { unfold trj_session in Hinv.
    destruct (Trj.path (Trj.state p)); [reflexivity|].
    destruct Hinv as [H _]. congruence. }
  assert (Hother : (forall c now, ev <> Trj.Position c now) ->
                   trj_session (Trj.state (Trj.handle ev p))).
  { intros Hev.
    pose proof (trj_handle_other ev p Hev) as H. cbv zeta in H.
    destruct H as (E1 & E2 & E3 & E4 & _).
    now apply (trj_session_frame (Trj.state p)). }
  destruct ev as [c now | e | n | w h];
    try (apply Hother; intros; discriminate).
  cbn [Trj.handle].
  destruct (trj_handlePosition_cases c now p Hempty)
    as [(E & _ & _) | (pt & Ep & Hlat & Hlon & Hts & Hxy & Hlu & Ho & Hst)].
  - rewrite E. exact Hinv.
  - unfold trj_session in *. rewrite Ep, Ho, Hst, Hlu.
    destruct (Trj.path (Trj.state p)) as [|first rest] eqn:Epath.
    + destruct Hinv as [H1 H2]. rewrite H1 in *. cbn.
      rewrite Hlat, Hlon, Hts. repeat split.
      * exists pt. split; [reflexivity | now rewrite Hts].
      * constructor; [exact Hxy | constructor].
    + destruct Hinv as (H1 & H2 & H3 & H4). rewrite H1 in *. cbn [app].
      repeat split; try assumption.
      * exists pt. split; [|now rewrite Hts].
        exact (last_item_app (first :: rest) pt).
      * apply (proj2 (Forall_app _ (first :: rest) [pt])). split.
        -- eapply Forall_impl; [|exact H4].
           intros q Hq. cbv beta in *. rewrite Hq.
           apply trj_gpsToXY_origin_only. now rewrite Ho.
        -- constructor; [exact Hxy | constructor].
Qed.

Lemma trj_run_session (evs : list Trj.Event) (p : Trj.Page) :
  trj_session (Trj.state p) -> trj_session (Trj.state (Trj.run evs p)).
Proof.
  revert p. induction evs as [|ev evs IH]; intros p Hinv; [assumption|].
  cbn [Trj.run fold_left]. apply IH. now apply trj_handle_session.
Qed.

Lemma trj_reachable_session (p : Trj.Page) :
  Trj.reachable p -> trj_session (Trj.state p).
Proof.
  intros (cw & ch & geo & evs & ->). apply trj_run_session.
  unfold trj_session. cbn. tauto.
Qed.

Lemma trj_one_point_origin :
  Trj.originGPS (Trj.state trj_one_point) = Some (Trj.mkOrigin 1 1).
Proof. unfold trj_one_point. trj_eval. reflexivity. Qed.

Lemma trj_one_point_path :
  Trj.path (Trj.state trj_one_point) =
  [Trj.mkPoint
     ((1 - 1) * (PI / 180) * Trj.EARTH_RADIUS * cos (1 * PI / 180))
     ((1 - 1) * (PI / 180) * Trj.EARTH_RADIUS)
     1 1 0 5 (0 * 3.6)].
Proof. unfold trj_one_point. trj_eval. reflexivity. Qed.

(** In every state of a session that has points, the origin is the position
    of the first recorded point, the start time is its time stamp, and the
    point itself lies at (0, 0). *)
Theorem trj_origin_is_first_point
        (p : Trj.Page) (first : Trj.PathPoint) (rest : list Trj.PathPoint) :
  Trj.reachable p ->
  Trj.path (Trj.state p) = first :: rest ->
  Trj.originGPS (Trj.state p)
    = Some (Trj.mkOrigin (Trj.lat first) (Trj.lon first)) /\
  Trj.startTime (Trj.state p) = Some (Trj.timestamp first) /\
  Trj.x first = 0 /\ Trj.y first = 0.
Proof.
  intros Hr Hp. apply trj_reachable_session in Hr.
  unfold trj_session in Hr. rewrite Hp in Hr.
  destruct Hr as (Ho & Hst & _ & Hall).
  split; [exact Ho|]. split; [exact Hst|].
  inversion Hall as [|? ? Hxy _]; subst.
  unfold Trj.gpsToXY in Hxy. rewrite Ho in Hxy. cbn in Hxy.
  injection Hxy as Hx Hy. rewrite Hx, Hy. split; ring.
Qed.

Lemma trj_origin_is_first_point_witness :
  Trj.reachable trj_one_point /\
  Trj.originGPS (Trj.state trj_one_point) = Some (Trj.mkOrigin 1 1).
Proof.
  split; [apply trj_one_point_reachable|].
  exact (proj1 (trj_origin_is_first_point trj_one_point _ []
                  trj_one_point_reachable trj_one_point_path)).
Defined.

(** In every state of a session, [lastUpdateTime] is the time stamp of the
    last recorded point. *)
Theorem trj_last_update_is_last_point (p : Trj.Page) (l : Trj.PathPoint) :
  Trj.reachable p ->
  last_item (Trj.path (Trj.state p)) = Some l ->
  Trj.lastUpdateTime (Trj.state p) = Trj.timestamp l.
Proof.
  intros Hr Hl. apply trj_reachable_session in Hr.
  unfold trj_session in Hr.
  destruct (Trj.path (Trj.state p)) as [|first rest]; [discriminate|].
  destruct Hr as (_ & _ & (l' & Hl' & Hlu) & _). congruence.
Qed.

Lemma trj_last_update_is_last_point_witness :
  Trj.reachable trj_one_point /\
  Trj.lastUpdateTime (Trj.state trj_one_point) = 0.
Proof.
  split; [apply trj_one_point_reachable|].
  exact (trj_last_update_is_last_point trj_one_point _
           trj_one_point_reachable trj_one_point_last).
Defined.

(** In every state of a session, each recorded point holds the projection
    of its own latitude and longitude relative to the session origin: the
    coordinates computed at insertion never go stale. *)
Theorem trj_points_are_projections (p : Trj.Page) (pt : Trj.PathPoint) :
  Trj.reachable p ->
  In pt (Trj.path (Trj.state p)) ->
  (Trj.x pt, Trj.y pt) = Trj.gpsToXY (Trj.state p) (Trj.lat pt) (Trj.lon pt).
Proof.
  intros Hr Hin. apply trj_reachable_session in Hr.
  unfold trj_session in Hr.
  destruct (Trj.path (Trj.state p)) as [|first rest] eqn:Ep; [contradiction|].
  destruct Hr as (_ & _ & _ & Hall).
  rewrite Forall_forall in Hall. now apply Hall.
Qed.

Lemma trj_points_are_projections_witness :
  Trj.reachable trj_one_point /\
  exists pt, In pt (Trj.path (Trj.state trj_one_point)) /\
  (Trj.x pt, Trj.y pt)
  = Trj.gpsToXY (Trj.state trj_one_point) (Trj.lat pt) (Trj.lon pt).
Proof.
  split; [apply trj_one_point_reachable|].
  assert (Hin : In (Trj.mkPoint
                      ((1 - 1) * (PI / 180) * Trj.EARTH_RADIUS
                       * cos (1 * PI / 180))
                      ((1 - 1) * (PI / 180) * Trj.EARTH_RADIUS)
                      1 1 0 5 (0 * 3.6))
                   (Trj.path (Trj.state trj_one_point))).
  { rewrite trj_one_point_path. left. reflexivity. }
  eexists. split; [exact Hin|].
  exact (trj_points_are_projections trj_one_point _
           trj_one_point_reachable Hin).
Defined.

(** * The odometer and the path *)

Lemma trj_legs_app (l : list Trj.PathPoint) (a b : Trj.PathPoint) :
  last_item l = Some a ->
  trj_legs (l ++ [b]) =
  trj_legs l +
  (let d := Trj.calculateDistance (Trj.lat a) (Trj.lon a)
                                  (Trj.lat b) (Trj.lon b) in
   if JS.geb d Trj.MIN_DISTANCE then d else 0).
Proof.
  induction l as [|x l IH]; [discriminate|].
  destruct l as [|y l].
  - intros [= ->]. cbn. lra.
  - intros Hl. change (last_item (y :: l) = Some a) in Hl.
    specialize (IH Hl).
    change ((x :: y :: l) ++ [b]) with (x :: (y :: l) ++ [b]).
    change (trj_legs (x :: (y :: l) ++ [b]))
      with ((let d := Trj.calculateDistance (Trj.lat x) (Trj.lon x)
                                            (Trj.lat y) (Trj.lon y) in
             if JS.geb d Trj.MIN_DISTANCE then d else 0)
            + trj_legs ((y :: l) ++ [b])).
    rewrite IH.
    change (trj_legs (x :: y :: l))
      with ((let d := Trj.calculateDistance (Trj.lat x) (Trj.lon x)
                                            (Trj.lat y) (Trj.lon y) in
             if JS.geb d Trj.MIN_DISTANCE then d else 0)
            + trj_legs (y :: l)).
    cbv zeta. lra.
Qed.

Lemma trj_handle_legs (ev : Trj.Event) (p : Trj.Page) :
  trj_session (Trj.state p) ->
  Trj.totalDistance (Trj.state p) = trj_legs (Trj.path (Trj.state p)) ->
  Trj.totalDistance (Trj.state (Trj.handle ev p))
  = trj_legs (Trj.path (Trj.state (Trj.handle ev p))).
Proof.
  intros Hs Hinv.
  destruct ev as [c now | e | n | w h].
  2-4: match goal with
       | |- context [Trj.handle ?ev ?q] =>
           pose proof (trj_handle_other ev q ltac:(intros; discriminate))
             as Hother
       end;
       cbv zeta in Hother; destruct Hother as (_ & E2 & _ & _ & E5);
       rewrite E2, E5; exact Hinv.
  cbn [Trj.handle]. unfold trj_session in Hs.
  destruct (Trj.path (Trj.state p)) as [|first rest] eqn:Ep.
  - destruct Hs as [Ho _].
    destruct (trj_first_fix_total c now p Ho Ep) as (Ht & pt & E).
    rewrite Ht, E, Hinv. reflexivity.
  - destruct Hs as (Ho & _).
    assert (Ho' : Trj.originGPS (Trj.state p) <> None) by congruence.
    destruct (last_item (first :: rest)) as [l|] eqn:El;
      [|apply last_item_none in El; discriminate].
    rewrite <- Ep in El.
    pose proof (trj_filter c now p l El Ho') as [Hrej Hacc].
    cbv zeta in Hrej, Hacc.
    match type of Hrej with
    | ?C -> _ => assert (Hdec : C \/ ~ C)
    end.
    { destruct (Rlt_dec (Trj.calculateDistance (Trj.lat l) (Trj.lon l)
                           (Trj.latitude c) (Trj.longitude c))
                        Trj.MIN_DISTANCE);
        destruct (Rlt_dec (now - Trj.lastUpdateTime (Trj.state p))
                          Trj.MIN_TIME_BETWEEN); tauto. }
    destruct Hdec as [Hc | Hc].
    + rewrite (Hrej Hc), Ep. exact Hinv.
    + destruct (Hacc Hc) as ((pt & E & Hlat & Hlon & _) & _ & Hge & Hlt).
      rewrite E, (trj_legs_app _ l pt El), Hlat, Hlon. cbv zeta.
      destruct (JS.geb _ Trj.MIN_DISTANCE) eqn:Eg.
      * apply geb_true_iff in Eg. rewrite (Hge Eg), Hinv, Ep. reflexivity.
      * apply geb_false_iff in Eg. rewrite (Hlt Eg), Hinv, Ep. lra.
Qed.

Lemma trj_odometer_legs (p : Trj.Page) :
  Trj.reachable p ->
  Trj.totalDistance (Trj.state p) = trj_legs (Trj.path (Trj.state p)).
Proof.
  intros (cw & ch & geo & evs & ->).
  assert (H0 : trj_session (Trj.state (Trj.init cw ch geo)) /\
               Trj.totalDistance (Trj.state (Trj.init cw ch geo))
               = trj_legs (Trj.path (Trj.state (Trj.init cw ch geo)))).
  { unfold trj_session. cbn. tauto. }
  revert H0. generalize (Trj.init cw ch geo).
  induction evs as [|ev evs IH]; intros q [Hs Hq]; [exact Hq|].
  cbn [Trj.run fold_left]. apply IH. split.
  - now apply trj_handle_session.
  - now apply trj_handle_legs.
Qed.

(** In every state of a session the odometer is the sum, over consecutive
    recorded points, of their distance, counting only the legs of at least
    [MIN_DISTANCE]; in particular it is never negative. *)
Theorem trj_odometer_is_sum_of_legs (p : Trj.Page) :
  Trj.reachable p ->
  Trj.totalDistance (Trj.state p) = trj_legs (Trj.path (Trj.state p)) /\
  0 <= Trj.totalDistance (Trj.state p).
Proof.
  intros (cw & ch & geo & evs & ->).
  assert (H : forall evs q,
             trj_session (Trj.state q) ->
             Trj.totalDistance (Trj.state q)
             = trj_legs (Trj.path (Trj.state q)) ->
             Trj.totalDistance (Trj.state (Trj.run evs q))
             = trj_legs (Trj.path (Trj.state (Trj.run evs q)))).
  { clear. induction evs as [|ev evs IH]; intros q Hs Hq; [exact Hq|].
    cbn [Trj.run fold_left]. apply IH.
    - now apply trj_handle_session.
    - now apply trj_handle_legs. }
  split.
  - apply H; [unfold trj_session; cbn; tauto | reflexivity].
  - eapply Rle_trans; [|apply trj_run_total]. cbn. lra.
Qed.

Lemma trj_odometer_is_sum_of_legs_witness :
  Trj.reachable trj_two_points /\
  List.length (Trj.path (Trj.state trj_two_points)) = 2%nat /\
  Trj.totalDistance (Trj.state trj_two_points)
  = trj_legs (Trj.path (Trj.state trj_two_points)).
Proof.
  split; [apply trj_two_points_reachable|].
  split; [now rewrite (proj1 trj_two_points_eval)|].
  exact (proj1 (trj_odometer_is_sum_of_legs trj_two_points
                  trj_two_points_reachable)).
Defined.

(** * Time stamps *)

Lemma StronglySorted_drop {A : Type} (le : A -> A -> Prop)
      (l1 l2 : list A) (a : A) :
  StronglySorted le (l1 ++ a :: l2) -> StronglySorted le (l1 ++ l2).
Proof.
  induction l1 as [|b l1 IH]; cbn; intros H.
  - now inversion H.
  - inversion H as [|? ? Hs Hall]; subst. constructor; [now apply IH|].
    rewrite Forall_app in *. destruct Hall as [H1 H2].
    split; [assumption | now inversion H2].
Qed.

(** When the clock readings of the delivered positions never go back, and
    start no earlier than the last recorded point, the recorded points stay
    in chronological order. *)
Theorem trj_timestamps_ordered (evs : list Trj.Event) (p : Trj.Page) :
  StronglySorted Rle
    (map Trj.timestamp (Trj.path (Trj.state p)) ++ trj_times evs) ->
  StronglySorted Rle
    (map Trj.timestamp (Trj.path (Trj.state (Trj.run evs p)))).
Proof.
  revert p. induction evs as [|ev evs IH]; intros p H.
  - cbn in *. now rewrite app_nil_r in H.
  - cbn [Trj.run fold_left]. apply IH.
    destruct (trj_handle_path ev p)
      as [E | (c & now & pt & -> & E & _ & _ & Hts)]; rewrite E.
    + destruct ev; cbn [trj_times] in H; try exact H.
      now apply StronglySorted_drop in H.
    + cbn [trj_times] in H. rewrite map_app, <- app_assoc. cbn [map app].
      now rewrite Hts.
Qed.

Lemma trj_timestamps_ordered_witness :
  List.length (Trj.path (Trj.state trj_two_points)) = 2%nat /\
  StronglySorted Rle
    (map Trj.timestamp (Trj.path (Trj.state trj_two_points))).
Proof.
  split; [now rewrite (proj1 trj_two_points_eval)|].
  apply (trj_timestamps_ordered
           [Trj.Expire 0; Trj.Position (Trj.mkCoords 1 1 5 None) 0;
            Trj.Position (Trj.mkCoords 2 1 5 None) 2000]
           (Trj.init 500 500 true)).
  cbn. repeat constructor. lra.
Defined.

(** * Further properties of the grid and the canvas *)

(** The grid of [trj.js] shows at least 4 and fewer than 10 divisions for
    every view range from 4 m up to 1 km, and its spacing never shrinks
    when the view range grows. *)
Theorem trj_spacing_divisions (v w : R) :
  (4 <= v < 1000 -> 4 <= v / Trj.spacing v < 10) /\
  (v <= w -> Trj.spacing v <= Trj.spacing w).
Proof.
  rewrite !trj_spacing_cases. split.
  - intros Hv. geb_cases; lra.
  - intros Hvw. geb_cases; lra.
Qed.

Lemma trj_spacing_divisions_witness :
  4 <= 450 < 1000 /\ 4 <= 450 / Trj.spacing 450 < 10.
Proof.
  assert (H : 4 <= 450 < 1000) by lra.
  split; [exact H|].
  exact (proj1 (trj_spacing_divisions 450 450) H).
Defined.

(** The dashboard never picks a coarser grid than the stand-alone tracker
    does for the same view range, and its spacing never shrinks either when
    the view range grows. *)
Theorem krakatau_spacing_finer (v w : R) :
  Krakatau.spacing v <= Trj.spacing v /\
  (v <= w -> Krakatau.spacing v <= Krakatau.spacing w).
Proof.
  rewrite trj_spacing_cases. unfold Krakatau.spacing. split.
  - gtb_cases; geb_cases; lra.
  - intros Hvw. gtb_cases; lra.
Qed.

(** [xyToCanvas] puts the origin of the local frame at the lower left
    margin corner, and keeps the orientation whenever the scale is
    positive: a larger [x] is never drawn further left, a larger [y] never
    further down (the canvas ordinate does not increase). *)
Theorem trj_xyToCanvas_orientation (s : Trj.State) (x1 y1 x2 y2 : R) :
  0 < Trj.pixelsPerMeter s ->
  Trj.xyToCanvas s 0 0 = (Trj.MARGIN, Trj.height (Trj.canvas s) - Trj.MARGIN) /\
  (x1 <= x2 -> fst (Trj.xyToCanvas s x1 y1) <= fst (Trj.xyToCanvas s x2 y2)) /\
  (y1 <= y2 -> snd (Trj.xyToCanvas s x2 y2) <= snd (Trj.xyToCanvas s x1 y1)).
Proof.
  intros Hs. unfold Trj.xyToCanvas. cbn.
  set (k := Trj.pixelsPerMeter s) in *.
  split; [f_equal; ring|].
  split; intros; nra.
Qed.

Lemma trj_xyToCanvas_orientation_witness :
  0 < Trj.pixelsPerMeter trj_state_450 /\
  fst (Trj.xyToCanvas trj_state_450 1 1)
    <= fst (Trj.xyToCanvas trj_state_450 2 3) /\
  snd (Trj.xyToCanvas trj_state_450 2 3)
    <= snd (Trj.xyToCanvas trj_state_450 1 1).
Proof.
  assert (H : 0 < Trj.pixelsPerMeter trj_state_450)
    by (cbn; unfold Trj.SCALE; lra).
  split; [exact H|].
  destruct (trj_xyToCanvas_orientation trj_state_450 1 1 2 3 H)
    as (_ & Hx & Hy).
  split; [apply Hx | apply Hy]; lra.
Defined.

(** [gpsToXY] has x pointing east and y pointing north: a fix north of the
    origin has a positive y, and a fix east of an origin that lies strictly
    between the poles has a positive x; both coordinates are proportional
    to the offset in degrees. *)
Theorem trj_gpsToXY_axes (s : Trj.State) (o : Trj.Origin) (lat lon : R) :
  Trj.originGPS s = Some o ->
  (Trj.o_lat o < lat -> 0 < snd (Trj.gpsToXY s lat lon)) /\
  (-90 < Trj.o_lat o < 90 -> Trj.o_lon o < lon ->
   0 < fst (Trj.gpsToXY s lat lon)) /\
  snd (Trj.gpsToXY s lat lon)
    = (lat - Trj.o_lat o) * (PI * Trj.EARTH_RADIUS / 180) /\
  fst (Trj.gpsToXY s lat lon)
    = (lon - Trj.o_lon o)
      * (PI * Trj.EARTH_RADIUS / 180 * cos (Trj.o_lat o * PI / 180)).
Proof.
  intros Ho. unfold Trj.gpsToXY. rewrite Ho. cbn.
  pose proof PI_RGT_0 as Hpi.
  assert (Hk : 0 < PI / 180 * Trj.EARTH_RADIUS)
    by (unfold Trj.EARTH_RADIUS; nra).
  split; [intros; unfold Trj.EARTH_RADIUS in *; nra|].
  split.
  - intros Hlat Hlon.
    assert (Hc : 0 < cos (Trj.o_lat o * PI / 180)).
    { apply cos_gt_0; nra. }
    apply Rmult_lt_0_compat; [|exact Hc].
    unfold Trj.EARTH_RADIUS in *. nra.
  - split; field.
Qed.

Lemma trj_gpsToXY_axes_witness :
  Trj.originGPS (Trj.state trj_one_point) = Some (Trj.mkOrigin 1 1) /\
  0 < snd (Trj.gpsToXY (Trj.state trj_one_point) 2 1).
Proof.
  assert (Ho : Trj.originGPS (Trj.state trj_one_point)
               = Some (Trj.mkOrigin 1 1))
    by apply trj_one_point_origin.
  split; [exact Ho|].
  apply (proj1 (trj_gpsToXY_axes (Trj.state trj_one_point)
                  (Trj.mkOrigin 1 1) 2 1 Ho)).
  cbn. lra.
Defined.

(** * Further properties of [script.js] *)

(** ** Without a global [ctx] *)

Lemma krakatau_update_unbound (now : R) (a : Krakatau.App) :
  Krakatau.ctx_bound a = false ->
  Krakatau.path (Krakatau.gpsTracker a) = [] ->
  Krakatau.invalid (Krakatau.vehicleData a) = false ->
  let r := Krakatau.updateGPSPosition now a in
  snd r = Krakatau.ReferenceError /\
  Krakatau.path (Krakatau.gpsTracker (fst r)) = [] /\
  Krakatau.totalDistance (Krakatau.gpsTracker (fst r))
    = Krakatau.totalDistance (Krakatau.gpsTracker a) /\
  Krakatau.ctx_bound (fst r) = false.
Proof.
  intros Hc Hp Hi. unfold Krakatau.updateGPSPosition, Krakatau.gpsToLocalXY.
  rewrite Hi.
  destruct (Krakatau.originGPS (Krakatau.gpsTracker a)) eqn:Ho;
    cbn; rewrite Hp; cbn; rewrite ?Ho, Hc; cbn; auto.
Qed.

Lemma krakatau_handle_ctx (ev : Krakatau.Event) (a : Krakatau.App) :
  Krakatau.ctx_bound (Krakatau.handle ev a) = Krakatau.ctx_bound a.
Proof.
  destruct ev as [v now | now | | confirmed | la lo | n now];
    cbn [Krakatau.handle].
  - unfold Krakatau.updateGPSFromVehicle, Krakatau.updateGPSPosition,
      Krakatau.gpsToLocalXY, Krakatau.drawGPSCanvas.
    cbn. repeat (break_match; cbn in *); try reflexivity; congruence.
  - unfold Krakatau.startGPSTracking. repeat (break_match; cbn); reflexivity.
  - unfold Krakatau.stopGPSTracking. repeat (break_match; cbn); reflexivity.
  - unfold Krakatau.clearGPSPath, Krakatau.stopGPSTracking,
      Krakatau.drawGPSCanvas.
    repeat (break_match; cbn); reflexivity.
  - unfold Krakatau.fallbackPosition. repeat (break_match; cbn); reflexivity.
  - unfold Krakatau.startGPSTracking. repeat (break_match; cbn); reflexivity.
Qed.

Lemma krakatau_handle_unbound (ev : Krakatau.Event) (a : Krakatau.App) :
  Krakatau.ctx_bound a = false ->
  Krakatau.path (Krakatau.gpsTracker a) = [] /\
  Krakatau.totalDistance (Krakatau.gpsTracker a) = 0 ->
  Krakatau.path (Krakatau.gpsTracker (Krakatau.handle ev a)) = [] /\
  Krakatau.totalDistance (Krakatau.gpsTracker (Krakatau.handle ev a)) = 0.
Proof.
  intros Hc [Hp Ht].
  destruct ev as [v now | now | | confirmed | la lo | n now];
    cbn [Krakatau.handle].
  - set (b := Krakatau.mkApp v _ _ _ _ _ _ _ _).
    destruct (krakatau_from_vehicle_cases now b) as [E | E]; rewrite E;
      [cbn; tauto|].
    destruct (Krakatau.invalid (Krakatau.vehicleData b)) eqn:Hi.
    + unfold Krakatau.updateGPSPosition. rewrite Hi. cbn. tauto.
    + destruct (krakatau_update_unbound now b Hc Hp Hi) as (_ & H1 & H2 & _).
      rewrite H1, H2. cbn. tauto.
  - destruct (krakatau_start_tracker_cases now a) as [[E1 E2] _].
    rewrite E1, E2. tauto.
  - destruct (krakatau_stop_tracker a) as (_ & E1 & E2 & _).
    rewrite E1, E2. tauto.
  - destruct (clear_path_reset a) as [E1 E2].
    destruct confirmed; [tauto | cbn; tauto].
  - unfold Krakatau.fallbackPosition. break_match; cbn; tauto.
  - destruct (nth_error (Krakatau.timers a) n) as [[[] d]|]; [|tauto].
    match goal with
    | |- context [Krakatau.startGPSTracking now ?b] =>
        destruct (krakatau_start_tracker_cases now b) as [[E1 E2] _]
    end.
    rewrite E1, E2. cbn. tauto.
Qed.

(** In a page that binds no global [ctx], the dashboard never records a
    point and its odometer stays at 0, whatever happens; and every valid
    fix that reaches [updateGPSPosition] ends in the [ReferenceError] of
    [gpsToLocalXY]. *)
Theorem krakatau_no_point_without_ctx
        (c : option Krakatau.Canvas) (geo : bool) (evs : list Krakatau.Event) :
  let a := Krakatau.run evs (Krakatau.initial c geo false) in
  Krakatau.path (Krakatau.gpsTracker a) = [] /\
  Krakatau.totalDistance (Krakatau.gpsTracker a) = 0 /\
  forall now,
    Krakatau.invalid (Krakatau.vehicleData a) = false ->
    snd (Krakatau.updateGPSPosition now a) = Krakatau.ReferenceError.
Proof.
  cbv zeta.
  assert (H : forall evs b,
             Krakatau.ctx_bound b = false ->
             Krakatau.path (Krakatau.gpsTracker b) = [] /\
             Krakatau.totalDistance (Krakatau.gpsTracker b) = 0 ->
             Krakatau.ctx_bound (Krakatau.run evs b) = false /\
             Krakatau.path (Krakatau.gpsTracker (Krakatau.run evs b)) = [] /\
             Krakatau.totalDistance
               (Krakatau.gpsTracker (Krakatau.run evs b)) = 0).
  { clear. induction evs as [|ev evs IH]; intros b Hc Hb; [tauto|].
    cbn [Krakatau.run fold_left]. apply IH.
    - now rewrite krakatau_handle_ctx.
    - now apply krakatau_handle_unbound. }
  destruct (H evs (Krakatau.initial c geo false)) as (Hc & Hp & Ht);
    [reflexivity | cbn; tauto |].
  split; [exact Hp|]. split; [exact Ht|].
  intros now Hi. now apply krakatau_update_unbound.
Qed.

(** ** Polling, stopping, starting again *)

(** Until START is clicked nothing reaches the tracker: starting from a
    state that is not tracking, any sequence of telemetry polls and
    fallback fixes leaves the tracker, the timers, the watches and the
    toasts as they were; only the copy of the vehicle data changes. *)
Theorem krakatau_idle_until_start
        (evs : list Krakatau.Event) (a : Krakatau.App) :
  Krakatau.isTracking (Krakatau.gpsTracker a) = false ->
  Forall (fun ev => (exists v now, ev = Krakatau.Poll v now) \/
                    (exists la lo, ev = Krakatau.Fallback la lo)) evs ->
  let a' := Krakatau.run evs a in
  Krakatau.gpsTracker a' = Krakatau.gpsTracker a /\
  Krakatau.timers a' = Krakatau.timers a /\
  Krakatau.watches a' = Krakatau.watches a /\
  Krakatau.toasts a' = Krakatau.toasts a /\
  Krakatau.frames a' = Krakatau.frames a.
Proof.
  intros Ht Hall. revert a Ht.
  induction Hall as [|ev evs Hev _ IH]; intros a Ht; [cbn; tauto|].
  cbn [Krakatau.run fold_left].
  assert (Hstep : Krakatau.gpsTracker (Krakatau.handle ev a)
                  = Krakatau.gpsTracker a /\
                  Krakatau.timers (Krakatau.handle ev a) = Krakatau.timers a /\
                  Krakatau.watches (Krakatau.handle ev a)
                  = Krakatau.watches a /\
                  Krakatau.toasts (Krakatau.handle ev a) = Krakatau.toasts a /\
                  Krakatau.frames (Krakatau.handle ev a) = Krakatau.frames a).
  { destruct Hev as [(v & now & ->) | (la & lo & ->)]; cbn [Krakatau.handle].
    - unfold Krakatau.updateGPSFromVehicle. cbn. rewrite Ht. cbn. tauto.
    - unfold Krakatau.fallbackPosition. break_match; cbn; tauto. }
  destruct Hstep as (E1 & E2 & E3 & E4 & E5).
  destruct (IH (Krakatau.handle ev a)) as (F1 & F2 & F3 & F4 & F5);
    [now rewrite E1|].
  cbv zeta. unfold Krakatau.run in *.
  rewrite F1, F2, F3, F4, F5. tauto.
Qed.

Lemma krakatau_idle_until_start_witness :
  let a := Krakatau.initial None true false in
  Krakatau.isTracking (Krakatau.gpsTracker a) = false /\
  Krakatau.gpsTracker
    (Krakatau.run [Krakatau.Poll vehicle_1_1 3; Krakatau.Fallback 4 5] a)
  = Krakatau.gpsTracker a.
Proof.
  split; [reflexivity|].
  apply (krakatau_idle_until_start
           [Krakatau.Poll vehicle_1_1 3; Krakatau.Fallback 4 5]
           (Krakatau.initial None true false) eq_refl).
  constructor; [left; eexists; eexists; reflexivity|].
  constructor; [right; eexists; eexists; reflexivity|].
  constructor.
Defined.

(** [stopGPSTracking] releases the fallback watch and keeps what was
    recorded: origin, path, odometer and start time stay, the tracking flag
    falls, and the watch of [watchId] is no longer registered. *)
Theorem krakatau_stop_keeps_path (a : Krakatau.App) :
  let g := Krakatau.gpsTracker a in
  let a' := Krakatau.stopGPSTracking a in
  let g' := Krakatau.gpsTracker a' in
  Krakatau.originGPS g' = Krakatau.originGPS g /\
  Krakatau.path g' = Krakatau.path g /\
  Krakatau.totalDistance g' = Krakatau.totalDistance g /\
  Krakatau.startTime g' = Krakatau.startTime g /\
  Krakatau.isTracking g' = false /\
  (forall id, Krakatau.watchId g = Some id -> ~ In id (Krakatau.watches a')) /\
  (forall id, In id (Krakatau.watches a') -> In id (Krakatau.watches a)).
Proof.
  unfold Krakatau.stopGPSTracking.
  destruct (Krakatau.watchId (Krakatau.gpsTracker a)) as [w|] eqn:Ew; cbn;
    repeat split; try discriminate; auto.
  - intros id [= <-] Hin. apply filter_In in Hin. destruct Hin as [_ H].
    now rewrite Nat.eqb_refl in H.
  - intros id Hin. now apply filter_In in Hin.
Qed.

(** Starting again after a stop does not begin with an empty path: with a
    valid vehicle position, [startGPSTracking] keeps the recorded points and
    the odometer and moves origin and start time to the present position
    and time. *)
Theorem krakatau_restart_keeps_path (now : R) (a : Krakatau.App) :
  Krakatau.isTracking (Krakatau.gpsTracker a) = false ->
  Krakatau.invalid (Krakatau.vehicleData a) = false ->
  let g := Krakatau.gpsTracker a in
  let g' := Krakatau.gpsTracker (Krakatau.startGPSTracking now a) in
  Krakatau.path g' = Krakatau.path g /\
  Krakatau.totalDistance g' = Krakatau.totalDistance g /\
  Krakatau.originGPS g' =
    Some (Krakatau.mkOrigin
            (JS.to_number (Krakatau.v_lat (Krakatau.vehicleData a)))
            (JS.to_number (Krakatau.long (Krakatau.vehicleData a)))) /\
  Krakatau.startTime g' = Some now /\
  Krakatau.isTracking g' = true.
Proof.
  intros Ht Hi. unfold Krakatau.startGPSTracking. rewrite Ht, Hi. cbn.
  destruct (Krakatau.geolocation a); cbn; tauto.
Qed.

Lemma krakatau_restart_keeps_path_witness :
  let a := Krakatau.stopGPSTracking krakatau_one_point in
  Krakatau.isTracking (Krakatau.gpsTracker a) = false /\
  Krakatau.invalid (Krakatau.vehicleData a) = false /\
  Krakatau.path (Krakatau.gpsTracker (Krakatau.startGPSTracking 9 a))
  = Krakatau.path (Krakatau.gpsTracker a).
Proof.
  cbv zeta.
  assert (Ht : Krakatau.isTracking
                 (Krakatau.gpsTracker
                    (Krakatau.stopGPSTracking krakatau_one_point)) = false)
    by apply krakatau_stop_tracker.
  assert (Hi : Krakatau.invalid
                 (Krakatau.vehicleData
                    (Krakatau.stopGPSTracking krakatau_one_point)) = false).
  { rewrite krakatau_one_point_eval. cbn -[Krakatau.invalid].
    apply invalid_1_1. }
  split; [exact Ht|]. split; [exact Hi|].
  exact (proj1 (krakatau_restart_keeps_path 9
                  (Krakatau.stopGPSTracking krakatau_one_point) Ht Hi)).
Defined.

(** ** Waiting for a position *)

Lemma krakatau_start_invalid (now : R) (a : Krakatau.App) :
  Krakatau.isTracking (Krakatau.gpsTracker a) = false ->
  Krakatau.invalid (Krakatau.vehicleData a) = true ->
  let a' := Krakatau.startGPSTracking now a in
  let n := Krakatau.retryCount (Krakatau.gpsTracker a) in
  Krakatau.isTracking (Krakatau.gpsTracker a') = false /\
  Krakatau.vehicleData a' = Krakatau.vehicleData a /\
  Krakatau.originGPS (Krakatau.gpsTracker a')
    = Krakatau.originGPS (Krakatau.gpsTracker a) /\
  Krakatau.watches a' = Krakatau.watches a /\
  ((n < 9)%nat ->
   Krakatau.retryCount (Krakatau.gpsTracker a') = S n /\
   Krakatau.timers a'
     = Krakatau.timers a ++ [(Krakatau.CallStartGPSTracking, 2000)]) /\
  ((9 <= n)%nat ->
   Krakatau.retryCount (Krakatau.gpsTracker a') = 0%nat /\
   Krakatau.timers a' = Krakatau.timers a /\
   last_item (Krakatau.toasts a')
     = Some (Krakatau.error,
             "Cannot start tracking. GPS data not available."%string)).
Proof.
  intros Ht Hi. unfold Krakatau.startGPSTracking. rewrite Ht, Hi.
  cbn -[Nat.ltb].
  destruct (S (Krakatau.retryCount (Krakatau.gpsTracker a)) <? 10)%nat eqn:E;
    [apply Nat.ltb_lt in E | apply Nat.ltb_ge in E]; cbn; rewrite ?Ht;
    repeat split; intros; try lia; try reflexivity.
  apply (last_item_app (Krakatau.toasts a ++ _)).
Qed.

Lemma krakatau_run_snoc (evs : list Krakatau.Event) (ev : Krakatau.Event)
      (a : Krakatau.App) :
  Krakatau.run (evs ++ [ev]) a = Krakatau.handle ev (Krakatau.run evs a).
Proof. unfold Krakatau.run. now rewrite fold_left_app. Qed.

Lemma krakatau_retry_expires (now : R) (b : Krakatau.App) :
  Krakatau.timers b = [(Krakatau.CallStartGPSTracking, 2000)] ->
  Krakatau.isTracking (Krakatau.gpsTracker b) = false ->
  Krakatau.invalid (Krakatau.vehicleData b) = true ->
  let b' := Krakatau.handle (Krakatau.Expire 0 now) b in
  let n := Krakatau.retryCount (Krakatau.gpsTracker b) in
  Krakatau.isTracking (Krakatau.gpsTracker b') = false /\
  Krakatau.vehicleData b' = Krakatau.vehicleData b /\
  Krakatau.originGPS (Krakatau.gpsTracker b')
    = Krakatau.originGPS (Krakatau.gpsTracker b) /\
  ((n < 9)%nat ->
   Krakatau.retryCount (Krakatau.gpsTracker b') = S n /\
   Krakatau.timers b' = [(Krakatau.CallStartGPSTracking, 2000)]) /\
  ((9 <= n)%nat ->
   Krakatau.retryCount (Krakatau.gpsTracker b') = 0%nat /\
   Krakatau.timers b' = [] /\
   last_item (Krakatau.toasts b')
     = Some (Krakatau.error,
             "Cannot start tracking. GPS data not available."%string)).
Proof.
  intros Htm Ht Hi. cbn [Krakatau.handle]. rewrite Htm.
  cbn [nth_error Krakatau.remove_nth].
  match goal with
  | |- context [Krakatau.startGPSTracking now ?q] =>
      destruct (krakatau_start_invalid now q Ht Hi)
        as (H1 & H2 & H3 & _ & H4 & H5)
  end.
  cbn [Krakatau.gpsTracker Krakatau.vehicleData Krakatau.timers] in *.
  cbv zeta. repeat split; try assumption.
  - now apply H4.
  - now apply H4.
  - now apply H5.
  - now apply H5.
  - now apply H5.
Qed.

(** When the vehicle never reports a valid position, START retries every
    two seconds and gives up at the tenth attempt: after START and [k] < 9
    expired retry timers exactly one retry is pending; after the ninth
    expiry none is, the retry counter is back at 0, an error is shown, and
    tracking has not started. *)
Theorem krakatau_gives_up_after_ten (now : R) (a : Krakatau.App) :
  Krakatau.isTracking (Krakatau.gpsTracker a) = false ->
  Krakatau.invalid (Krakatau.vehicleData a) = true ->
  Krakatau.retryCount (Krakatau.gpsTracker a) = 0%nat ->
  Krakatau.timers a = [] ->
  (forall k, (k < 9)%nat ->
     let b := Krakatau.run (Krakatau.Start now
                            :: repeat (Krakatau.Expire 0 now) k) a in
     Krakatau.timers b = [(Krakatau.CallStartGPSTracking, 2000)] /\
     Krakatau.retryCount (Krakatau.gpsTracker b) = S k /\
     Krakatau.isTracking (Krakatau.gpsTracker b) = false) /\
  (let b := Krakatau.run (Krakatau.Start now
                          :: repeat (Krakatau.Expire 0 now) 9) a in
   Krakatau.timers b = [] /\
   Krakatau.retryCount (Krakatau.gpsTracker b) = 0%nat /\
   Krakatau.isTracking (Krakatau.gpsTracker b) = false /\
   Krakatau.originGPS (Krakatau.gpsTracker b)
     = Krakatau.originGPS (Krakatau.gpsTracker a) /\
   last_item (Krakatau.toasts b)
     = Some (Krakatau.error,
             "Cannot start tracking. GPS data not available."%string)).
Proof.
  intros Ht Hi Hn Htm.
  assert (Hsnoc : forall k,
             Krakatau.run (Krakatau.Start now
                           :: repeat (Krakatau.Expire 0 now) (S k)) a
             = Krakatau.handle (Krakatau.Expire 0 now)
                 (Krakatau.run (Krakatau.Start now
                                :: repeat (Krakatau.Expire 0 now) k) a)).
  { intros k. rewrite <- krakatau_run_snoc. f_equal.
    rewrite <- app_comm_cons. f_equal.
    exact (repeat_cons k (Krakatau.Expire 0 now)). }
  assert (Hk : forall k, (k < 9)%nat ->
             let b := Krakatau.run (Krakatau.Start now
                                    :: repeat (Krakatau.Expire 0 now) k) a in
             Krakatau.timers b = [(Krakatau.CallStartGPSTracking, 2000)] /\
             Krakatau.retryCount (Krakatau.gpsTracker b) = S k /\
             Krakatau.isTracking (Krakatau.gpsTracker b) = false /\
             Krakatau.vehicleData b = Krakatau.vehicleData a /\
             Krakatau.originGPS (Krakatau.gpsTracker b)
               = Krakatau.originGPS (Krakatau.gpsTracker a)).
  { induction k as [|k IH]; intros Hlt; cbv zeta.
    - change (Krakatau.run (Krakatau.Start now
                            :: repeat (Krakatau.Expire 0 now) 0) a)
        with (Krakatau.startGPSTracking now a).
      destruct (krakatau_start_invalid now a Ht Hi)
        as (H1 & H2 & H3 & _ & H4 & _).
      destruct H4 as [H4 H5]; [lia|].
      rewrite H5, Htm, H4, Hn. tauto.
    - rewrite Hsnoc.
      destruct IH as (B1 & B2 & B3 & B4 & B5); [lia|].
      generalize dependent (Krakatau.run
        (Krakatau.Start now :: repeat (Krakatau.Expire 0 now) k) a).
      intros b B1 B2 B3 B4 B5.
      assert (Hb : Krakatau.invalid (Krakatau.vehicleData b) = true)
        by (rewrite B4; exact Hi).
      destruct (krakatau_retry_expires now b B1 B3 Hb)
        as (H1 & H2 & H3 & H4 & _).
      destruct H4 as [H4 H5]; [lia|].
      rewrite H5, H4, H1, H2, H3, B2, B4, B5. tauto. }
  split; [intros k Hlt; specialize (Hk k Hlt); cbv zeta in *; tauto|].
  cbv zeta. rewrite Hsnoc.
  destruct (Hk 8%nat) as (B1 & B2 & B3 & B4 & B5); [lia|].
  generalize dependent (Krakatau.run
    (Krakatau.Start now :: repeat (Krakatau.Expire 0 now) 8) a).
  intros b B1 B2 B3 B4 B5.
  assert (Hb : Krakatau.invalid (Krakatau.vehicleData b) = true)
    by (rewrite B4; exact Hi).
  destruct (krakatau_retry_expires now b B1 B3 Hb)
    as (H1 & _ & H3 & _ & H4).
  destruct H4 as (H4 & H5 & H6); [lia|].
  rewrite H4, H5, H1, H3, H6, B5. tauto.
Qed.

Lemma krakatau_gives_up_after_ten_witness :
  let a := Krakatau.initial None true false in
  Krakatau.isTracking (Krakatau.gpsTracker a) = false /\
  Krakatau.invalid (Krakatau.vehicleData a) = true /\
  Krakatau.timers
    (Krakatau.run (Krakatau.Start 0 :: repeat (Krakatau.Expire 0 0) 9) a)
  = [].
Proof.
  cbv zeta.
  assert (Hi : Krakatau.invalid
                 (Krakatau.vehicleData (Krakatau.initial None true false))
               = true).
  { apply krakatau_invalid_missing. right. right. left. reflexivity. }
  split; [reflexivity|]. split; [exact Hi|].
  exact (proj1 (proj2 (krakatau_gives_up_after_ten 0
                         (Krakatau.initial None true false)
                         eq_refl Hi eq_refl eq_refl))).
Defined.

(** * Further properties: data access and drawing in [trj.js] *)

Lemma floor_spec (r : R) : JS.floor r <= r < JS.floor r + 1.
Proof. unfold JS.floor. destruct (base_Int_part r). lra. Qed.

Lemma floor_nonneg (r : R) : 0 <= r -> 0 <= JS.floor r.
Proof.
  intros Hr. unfold JS.floor. apply IZR_le.
  destruct (base_Int_part r) as [H1 H2].
  assert (H : (-1 < Int_part r)%Z).
  { apply lt_IZR. simpl. lra. }
  lia.
Qed.

(** The clock of [updateInfo]: once a start time (other than 0) is set and
    not in the future, whole minutes and seconds are shown, the seconds lie
    between 0 and 59, and together they make up the whole seconds elapsed
    since the start. *)
Theorem trj_elapsedClock_spec (s : Trj.State) (t timestamp : R) :
  Trj.startTime s = Some t -> t <> 0 -> t <= timestamp ->
  exists minutes seconds,
    Trj.elapsedClock s timestamp = Some (minutes, seconds) /\
    0 <= minutes /\ 0 <= seconds < 60 /\
    (exists m, minutes = IZR m) /\ (exists n, seconds = IZR n) /\
    60 * minutes + seconds = JS.floor ((timestamp - t) / 1000).
Proof.
  intros Hs Ht Hle. unfold Trj.elapsedClock, JS.truthy_number.
  rewrite Hs. destruct (Req_dec_T t 0) as [E|_]; [contradiction|].
  set (e := JS.floor ((timestamp - t) / 1000)).
  assert (He : 0 <= e) by (apply floor_nonneg; lra).
  pose proof (floor_spec (e / 60)) as Hm.
  pose proof (floor_nonneg (e / 60) ltac:(lra)) as Hm0.
  eexists. eexists. split; [reflexivity|].
  unfold JS.rem. destruct (Rle_dec 0 (e / 60)) as [_|Hn]; [|lra].
  set (m := JS.floor (e / 60)) in *.
  split; [exact Hm0|]. split; [lra|]. split; [eexists; reflexivity|].
  split; [|ring].
  exists (Int_part ((timestamp - t) / 1000) - 60 * Int_part (e / 60))%Z.
  unfold m, e, JS.floor. rewrite minus_IZR, mult_IZR. reflexivity.
Qed.

Lemma trj_elapsedClock_spec_witness :
  Trj.startTime (Trj.mkState (Trj.mkCanvas 0 0) None None [] 0 (Some 5) 0 3)
    = Some 5 /\
  exists minutes seconds,
    Trj.elapsedClock
      (Trj.mkState (Trj.mkCanvas 0 0) None None [] 0 (Some 5) 0 3) 9
    = Some (minutes, seconds) /\
    0 <= seconds < 60.
Proof.
  split; [reflexivity|].
  destruct (trj_elapsedClock_spec
              (Trj.mkState (Trj.mkCanvas 0 0) None None [] 0 (Some 5) 0 3)
              5 9 eq_refl ltac:(lra) ltac:(lra))
    as (m & sec & H1 & _ & H2 & _).
  exists m, sec. split; assumption.
Defined.

(** [getTrackingData] answers [null] exactly when nothing is recorded;
    otherwise, in a reachable state, it reports the path itself, its
    length, the odometer (the sum of the counted legs), the position of the
    first point as origin and, unless that point was stamped 0, the seconds
    elapsed since it as duration. *)
Theorem trj_getTrackingData_spec (p : Trj.Page) (now : R) :
  Trj.reachable p ->
  (Trj.getTrackingData now (Trj.state p) = None
   <-> Trj.path (Trj.state p) = []) /\
  (forall d, Trj.getTrackingData now (Trj.state p) = Some d ->
     Trj.points d = Trj.path (Trj.state p) /\
     Trj.totalPoints d = List.length (Trj.points d) /\
     Trj.d_totalDistance d = trj_legs (Trj.points d) /\
     exists first,
       hd_error (Trj.points d) = Some first /\
       Trj.d_origin d
         = Some (Trj.mkOrigin (Trj.lat first) (Trj.lon first)) /\
       (Trj.timestamp first <> 0 ->
        Trj.duration d = (now - Trj.timestamp first) / 1000)).
Proof.
  intros Hr. unfold Trj.getTrackingData.
  pose proof (trj_reachable_session p Hr) as Hs. unfold trj_session in Hs.
  pose proof (trj_odometer_legs p Hr) as Hl.
  destruct (Trj.path (Trj.state p)) as [|first rest] eqn:Ep; cbn.
  - split; [tauto | discriminate].
  - split; [split; discriminate|].
    intros d [= <-]. cbn. destruct Hs as (Ho & Hst & _).
    repeat split; try assumption.
    exists first. split; [reflexivity|]. split; [exact Ho|].
    intros Hne. rewrite Hst. unfold JS.truthy_number.
    destruct (Req_dec_T (Trj.timestamp first) 0); [contradiction|reflexivity].
Qed.

Lemma trj_getTrackingData_spec_witness :
  Trj.reachable trj_one_point /\
  (Trj.getTrackingData 7 (Trj.state trj_one_point) = None
   <-> Trj.path (Trj.state trj_one_point) = []).
Proof.
  split; [apply trj_one_point_reachable|].
  exact (proj1 (trj_getTrackingData_spec trj_one_point 7
                  trj_one_point_reachable)).
Defined.

(** ** The drawn path *)

Lemma combine_seq_snoc {A : Type} (k : nat) (l : list A) (a : A) :
  combine (seq k (List.length (l ++ [a]))) (l ++ [a])
  = combine (seq k (List.length l)) l ++ [((k + List.length l)%nat, a)].
Proof.
  revert k. induction l as [|b l IH]; intros k; cbn.
  - now rewrite Nat.add_0_r.
  - rewrite IH. cbn. now rewrite Nat.add_succ_r.
Qed.

Lemma combine_seq_bounds {A : Type} (k : nat) (l : list A) (i : nat) (a : A) :
  In (i, a) (combine (seq k (List.length l)) l) ->
  (k <= i < k + List.length l)%nat.
Proof.
  revert k. induction l as [|b l IH]; intros k; cbn; [tauto|].
  intros [[= <- <-] | H]; [lia|]. apply IH in H. lia.
Qed.

Lemma flat_map_ext_in {A B : Type} (f g : A -> list B) (l : list A) :
  (forall a, In a l -> f a = g a) -> flat_map f l = flat_map g l.
Proof.
  induction l as [|a l IH]; intros H; cbn; [reflexivity|].
  rewrite H by (left; reflexivity). f_equal. apply IH.
  intros b Hb. apply H. now right.
Qed.

Lemma flat_map_singleton {A B : Type} (f : A -> B) (l : list A) :
  flat_map (fun a => [f a]) l = map f l.
Proof. induction l as [|a l IH]; cbn; [reflexivity | now rewrite IH]. Qed.

Lemma map_combine_seq_snd {A B : Type} (f : A -> B) (k : nat) (l : list A) :
  map (fun ip : nat * A => f (snd ip)) (combine (seq k (List.length l)) l)
  = map f l.
Proof.
  revert k. induction l as [|a l IH]; intros k; cbn; [reflexivity|].
  now rewrite IH.
Qed.

Lemma arcs_app (l1 l2 : list Canvas2D.Cmd) : arcs (l1 ++ l2) = arcs l1 ++ arcs l2.
Proof. unfold arcs. apply flat_map_app. Qed.

Lemma rotations_app (l1 l2 : list Canvas2D.Cmd) :
  rotations (l1 ++ l2) = rotations l1 ++ rotations l2.
Proof. unfold rotations. apply flat_map_app. Qed.

Lemma arcs_flat_map {A : Type} (f : A -> list Canvas2D.Cmd) (l : list A) :
  arcs (flat_map f l) = flat_map (fun a => arcs (f a)) l.
Proof.
  induction l as [|a l IH]; cbn; [reflexivity|]. now rewrite arcs_app, IH.
Qed.

Lemma rotations_flat_map {A : Type} (f : A -> list Canvas2D.Cmd) (l : list A) :
  rotations (flat_map f l) = flat_map (fun a => rotations (f a)) l.
Proof.
  induction l as [|a l IH]; cbn; [reflexivity|].
  now rewrite rotations_app, IH.
Qed.

Lemma flat_map_nil {A B : Type} (l : list A) :
  flat_map (fun _ : A => @nil B) l = [].
Proof. induction l; cbn; auto. Qed.

Lemma trj_drawArrow_arcs (s : Trj.State) (coords : R * R) :
  arcs (Trj.drawArrow s coords) = [].
Proof. unfold Trj.drawArrow. repeat break_match; reflexivity. Qed.

Lemma nth_error_penultimate {A : Type} (body : list A) (a : A) :
  body <> [] ->
  nth_error (body ++ [a]) (List.length (body ++ [a]) - 2) = last_item body.
Proof.
  induction body as [|b body IH]; [congruence|]. intros _.
  destruct body as [|c body]; [reflexivity|].
  change (last_item (b :: c :: body)) with (last_item (c :: body)).
  rewrite <- IH by discriminate. cbn [app List.length]. rewrite !length_app.
  cbn.
  replace (List.length body + 1 - 0)%nat with (S (List.length body)) by lia.
  replace (List.length body + 1 - 1)%nat with (List.length body) by lia.
  reflexivity.
Qed.

Lemma trj_drawPathPoint_arcs (s : Trj.State) (ip : nat * Trj.PathPoint) :
  arcs (Trj.drawPathPoint s ip)
  = [(fst (Trj.xyToCanvas s (Trj.x (snd ip)) (Trj.y (snd ip))),
      snd (Trj.xyToCanvas s (Trj.x (snd ip)) (Trj.y (snd ip))),
      if (fst ip =? List.length (Trj.path s) - 1)%nat then 8 else 3)].
Proof.
  unfold Trj.drawPathPoint. cbv zeta.
  destruct (fst ip =? List.length (Trj.path s) - 1)%nat.
  - rewrite !arcs_app, trj_drawArrow_arcs. reflexivity.
  - reflexivity.
Qed.

Lemma trj_drawPathPoint_rotations (s : Trj.State) (ip : nat * Trj.PathPoint) :
  rotations (Trj.drawPathPoint s ip)
  = if (fst ip =? List.length (Trj.path s) - 1)%nat
    then rotations
           (Trj.drawArrow s (Trj.xyToCanvas s (Trj.x (snd ip)) (Trj.y (snd ip))))
    else [].
Proof.
  unfold Trj.drawPathPoint. cbv zeta.
  destruct (fst ip =? List.length (Trj.path s) - 1)%nat; reflexivity.
Qed.

Lemma trj_drawPathLine_shape
      (s : Trj.State) (first : Trj.PathPoint) (rest : list Trj.PathPoint) :
  Trj.path s = first :: rest ->
  let px := fun p => fst (Trj.xyToCanvas s (Trj.x p) (Trj.y p)) in
  let py := fun p => snd (Trj.xyToCanvas s (Trj.x p) (Trj.y p)) in
  Trj.drawPathLine s =
  Canvas2D.BeginPath :: Canvas2D.MoveTo (px first) (py first)
  :: map (fun p => Canvas2D.LineTo (px p) (py p)) rest
  ++ [Canvas2D.StrokeStyle "#0af"; Canvas2D.LineWidth 3;
      Canvas2D.LineCap "round"; Canvas2D.LineJoin "round"; Canvas2D.Stroke].
Proof.
  intros Hfirst px py. unfold Trj.drawPathLine, Trj.indexed. rewrite Hfirst.
  cbn [List.length seq combine flat_map app Nat.eqb fst snd].
  f_equal. f_equal. f_equal.
  rewrite (flat_map_ext_in _
             (fun ip => [Canvas2D.LineTo (px (snd ip)) (py (snd ip))])).
  - rewrite flat_map_singleton.
    apply (map_combine_seq_snd (fun p => Canvas2D.LineTo (px p) (py p)) 1 rest).
  - intros [i p] Hin. apply combine_seq_bounds in Hin.
    destruct i; [lia | reflexivity].
Qed.

Lemma trj_drawPathLine_plain (s : Trj.State) :
  arcs (Trj.drawPathLine s) = [] /\ rotations (Trj.drawPathLine s) = [].
Proof.
  unfold Trj.drawPathLine. split.
  - rewrite !arcs_app, arcs_flat_map.
    rewrite (flat_map_ext_in _ (fun _ => []))
      by (intros [i p] _; cbn; now destruct (i =? 0)%nat).
    now rewrite flat_map_nil.
  - rewrite !rotations_app, rotations_flat_map.
    rewrite (flat_map_ext_in _ (fun _ => []))
      by (intros [i p] _; cbn; now destruct (i =? 0)%nat).
    now rewrite flat_map_nil.
Qed.

(** What [drawPath] draws for a path [first :: rest] = [body ++ [last]]:
    first one polyline that starts at the first point and visits every
    other point in the order of recording; then one circle per point, of
    radius 3 for every point but the last and of radius 8 for the last;
    and one arrow, exactly when there are at least two points, turned
    along the direction from the point before the last to the last, in
    canvas coordinates. *)
Theorem trj_drawPath_spec
        (s : Trj.State) (first last : Trj.PathPoint)
        (rest body : list Trj.PathPoint) :
  Trj.path s = first :: rest ->
  Trj.path s = body ++ [last] ->
  let px := fun p => fst (Trj.xyToCanvas s (Trj.x p) (Trj.y p)) in
  let py := fun p => snd (Trj.xyToCanvas s (Trj.x p) (Trj.y p)) in
  (exists markers,
     Trj.drawPath s =
     Canvas2D.BeginPath :: Canvas2D.MoveTo (px first) (py first)
     :: map (fun p => Canvas2D.LineTo (px p) (py p)) rest
     ++ [Canvas2D.StrokeStyle "#0af"; Canvas2D.LineWidth 3;
         Canvas2D.LineCap "round"; Canvas2D.LineJoin "round";
         Canvas2D.Stroke]
     ++ markers) /\
  arcs (Trj.drawPath s)
    = map (fun p => (px p, py p, 3)) body ++ [(px last, py last, 8)] /\
  rotations (Trj.drawPath s)
    = match last_item body with
      | Some prev => [JS.atan2 (py last - py prev) (px last - px prev)]
      | None => []
      end.
Proof.
  intros Hfirst Hlast px py.
  destruct (trj_drawPathLine_plain s) as [Hla Hlr].
  assert (Hn : (List.length (Trj.path s) - 1)%nat = List.length body).
  { rewrite Hlast, length_app. cbn. lia. }
  split; [|split].
  - unfold Trj.drawPath. rewrite (trj_drawPathLine_shape s first rest Hfirst).
    eexists. cbn [app]. rewrite <- app_assoc. reflexivity.
  - unfold Trj.drawPath. rewrite arcs_app, Hla, arcs_flat_map. cbn [app].
    rewrite (flat_map_ext_in _ _ _ (fun ip _ => trj_drawPathPoint_arcs s ip)).
    rewrite Hn. unfold Trj.indexed.
    rewrite Hlast, combine_seq_snoc, flat_map_app.
    cbn [Nat.add flat_map app fst snd]. rewrite Nat.eqb_refl. f_equal.
    rewrite (flat_map_ext_in _
               (fun ip : nat * Trj.PathPoint =>
                  [(px (snd ip), py (snd ip), 3)])).
    + rewrite flat_map_singleton.
      apply (map_combine_seq_snd (fun p => (px p, py p, 3)) 0 body).
    + intros [i p] Hin. apply combine_seq_bounds in Hin. cbn [fst snd].
      destruct (Nat.eqb_spec i (List.length body)); [lia | reflexivity].
  - unfold Trj.drawPath. rewrite rotations_app, Hlr, rotations_flat_map.
    cbn [app].
    rewrite (flat_map_ext_in _ _ _
               (fun ip _ => trj_drawPathPoint_rotations s ip)).
    rewrite Hn. unfold Trj.indexed.
    rewrite Hlast at 1 2. rewrite combine_seq_snoc, flat_map_app.
    rewrite (flat_map_ext_in _ (fun _ => [])).
    + rewrite flat_map_nil. cbn [flat_map app fst snd Nat.add].
      rewrite Nat.eqb_refl, app_nil_r.
      unfold Trj.drawArrow. rewrite Hlast.
      destruct (last_item body) as [prev|] eqn:El.
      * assert (Hne : body <> []).
        { intros ->. discriminate. }
        rewrite (nth_error_penultimate body last Hne), El.
        rewrite length_app. cbn [List.length].
        replace (1 <? List.length body + 1)%nat with true; [reflexivity|].
        symmetry. apply Nat.ltb_lt. destruct body; [congruence | cbn; lia].
      * apply last_item_none in El. subst body. reflexivity.
    + intros [i p] Hin. apply combine_seq_bounds in Hin. cbn [fst snd].
      destruct (Nat.eqb_spec i (List.length body)); [lia | reflexivity].
Qed.

Lemma trj_drawPath_spec_witness :
  let s := Trj.state trj_two_points in
  let px := fun p => fst (Trj.xyToCanvas s (Trj.x p) (Trj.y p)) in
  let py := fun p => snd (Trj.xyToCanvas s (Trj.x p) (Trj.y p)) in
  exists first last,
    Trj.path s = first :: [last] /\ Trj.path s = [first] ++ [last] /\
    arcs (Trj.drawPath s) = [(px first, py first, 3); (px last, py last, 8)] /\
    rotations (Trj.drawPath s)
      = [JS.atan2 (py last - py first) (px last - px first)].
Proof.
  cbv zeta. do 2 eexists.
  split; [apply trj_two_points_eval|]. split; [apply trj_two_points_eval|].
  exact (proj2 (trj_drawPath_spec (Trj.state trj_two_points) _ _ [_] [_]
                  (proj1 trj_two_points_eval) (proj1 trj_two_points_eval))).
Defined.

(** * Properties of the dashboard of [script.js] *)

(** ** Login *)

Lemma panel_act_control (a : Panel.Action) (u : Panel.Panel) :
  Panel.currentMode (Panel.act a u) = "control"%string ->
  (a = Panel.Login /\
   Panel.loginUsername u = Panel.correctUsername /\
   Panel.loginPassword u = Panel.correctPassword) \/
  Panel.currentMode u = "control"%string.
Proof.
  destruct a; cbn; try discriminate; auto.
  unfold Panel.login.
  destruct (String.eqb (Panel.loginUsername u) Panel.correctUsername) eqn:E1;
    destruct (String.eqb (Panel.loginPassword u) Panel.correctPassword) eqn:E2;
    cbn; auto.
  apply String.eqb_eq in E1, E2. auto.
Qed.

Lemma panel_run_snoc (acts : list Panel.Action) (a : Panel.Action)
      (u : Panel.Panel) :
  Panel.run (acts ++ [a]) u = Panel.act a (Panel.run acts u).
Proof. unfold Panel.run. now rewrite fold_left_app. Qed.

(** Control mode is entered only through the login form: whenever the
    dashboard is in control mode, some earlier action was a [login] made
    while the typed user name and password were the correct ones; and a
    [login] with any other input changes nothing but the toasts. *)
Theorem panel_control_needs_login (acts : list Panel.Action) :
  (Panel.currentMode (Panel.run acts Panel.initial) = "control"%string ->
   exists before after,
     acts = before ++ Panel.Login :: after /\
     Panel.loginUsername (Panel.run before Panel.initial)
       = Panel.correctUsername /\
     Panel.loginPassword (Panel.run before Panel.initial)
       = Panel.correctPassword) /\
  (forall u,
     Panel.loginUsername u <> Panel.correctUsername \/
     Panel.loginPassword u <> Panel.correctPassword ->
     Panel.login u = Panel.toastr Panel.error "Invalid username or password!" u).
Proof.
  split.
  - induction acts as [|a acts IH] using rev_ind; [discriminate|].
    rewrite panel_run_snoc. intros Hc.
    destruct (panel_act_control _ _ Hc) as [(-> & Hu & Hp) | Hm].
    + exists acts, []. auto.
    + destruct (IH Hm) as (before & after & -> & Hu & Hp).
      exists before, (after ++ [a]). rewrite <- app_assoc. auto.
  - intros u H. unfold Panel.login.
    destruct (String.eqb_spec (Panel.loginUsername u) Panel.correctUsername);
      destruct (String.eqb_spec (Panel.loginPassword u) Panel.correctPassword);
      cbn; try reflexivity.
    tauto.
Qed.

Lemma panel_control_needs_login_witness :
  let acts := [Panel.ShowLogin; Panel.TypeUsername "krakatau";
               Panel.TypePassword "andover"; Panel.Login] in
  Panel.currentMode (Panel.run acts Panel.initial) = "control"%string /\
  exists before after,
    acts = before ++ Panel.Login :: after /\
    Panel.loginUsername (Panel.run before Panel.initial)
      = Panel.correctUsername /\
    Panel.loginPassword (Panel.run before Panel.initial)
      = Panel.correctPassword.
Proof.
  cbv zeta. split; [reflexivity|].
  apply (proj1 (panel_control_needs_login
                  [Panel.ShowLogin; Panel.TypeUsername "krakatau";
                   Panel.TypePassword "andover"; Panel.Login])).
  reflexivity.
Defined.

(** ** Waypoints *)

Lemma split_not_nil (sep : ascii) (s : string) : JS.split sep s <> [].
Proof.
  destruct s as [|c s]; cbn; [discriminate|].
  destruct (Ascii.eqb c sep); [discriminate|].
  destruct (JS.split sep s); discriminate.
Qed.

Lemma join_cons (sep w : string) (l : list string) :
  l <> [] ->
  JS.join sep (w :: l) = String.append w (String.append sep (JS.join sep l)).
Proof. destruct l; [congruence | reflexivity]. Qed.

Lemma join_split (sep : ascii) (s : string) :
  JS.join (String sep EmptyString) (JS.split sep s) = s.
Proof.
  induction s as [|c s IH]; [reflexivity|].
  cbn [JS.split]. destruct (Ascii.eqb_spec c sep) as [->|Hne].
  - rewrite join_cons by apply split_not_nil. cbn. now rewrite IH.
  - destruct (JS.split sep s) as [|w ws] eqn:E;
      [now apply split_not_nil in E|].
    destruct ws as [|w' ws].
    + cbn in *. now rewrite IH.
    + rewrite join_cons by discriminate.
      rewrite join_cons in IH by discriminate.
      cbn [String.append] in IH |- *. now rewrite IH.
Qed.

Lemma split_append_plain (sep : ascii) (w s : string) :
  ~ In sep (list_ascii_of_string w) ->
  JS.split sep (String.append w (String sep s)) = w :: JS.split sep s.
Proof.
  induction w as [|c w IH]; intros Hw; cbn.
  - now rewrite Ascii.eqb_refl.
  - destruct (Ascii.eqb_spec c sep) as [->|Hne];
      [exfalso; apply Hw; left; reflexivity|].
    rewrite IH; [reflexivity|]. intros H. apply Hw. now right.
Qed.

Lemma split_plain (sep : ascii) (w : string) :
  ~ In sep (list_ascii_of_string w) -> JS.split sep w = [w].
Proof.
  induction w as [|c w IH]; intros Hw; cbn; [reflexivity|].
  destruct (Ascii.eqb_spec c sep) as [->|Hne];
    [exfalso; apply Hw; left; reflexivity|].
  rewrite IH; [reflexivity|]. intros H. apply Hw. now right.
Qed.

Lemma split_join (sep : ascii) (l : list string) :
  l <> [] ->
  Forall (fun w => ~ In sep (list_ascii_of_string w)) l ->
  JS.split sep (JS.join (String sep EmptyString) l) = l.
Proof.
  induction l as [|w l IH]; [congruence|]. intros _ Hall.
  inversion Hall as [|? ? Hw Hl]; subst.
  destruct l as [|w' l].
  - cbn. now apply split_plain.
  - rewrite join_cons by discriminate. cbn [String.append].
    rewrite split_append_plain by assumption.
    now rewrite IH.
Qed.

(** Splitting a text at blanks and joining the pieces with blanks gives the
    text back; and joining a non-empty list of words without blanks and
    splitting the result gives the list back. *)
Theorem waypoints_text_roundtrip :
  (forall s : string, JS.join " " (JS.split " " s) = s) /\
  (forall l : list string,
     l <> [] ->
     Forall (fun w => ~ In " "%char (list_ascii_of_string w)) l ->
     JS.split " " (JS.join " " l) = l).
Proof.
  split.
  - intros s. apply (join_split " "%char).
  - intros l. apply (split_join " "%char).
Qed.

Lemma existsb_eqb_in (x : string) (l : list string) :
  existsb (String.eqb x) l = true <-> In x l.
Proof.
  rewrite existsb_exists. split.
  - intros (y & Hy & E). apply String.eqb_eq in E. now subst.
  - intros H. exists x. split; [assumption | apply String.eqb_refl].
Qed.

Lemma panel_camera_with_camera (w : Panel.Which) (c : Panel.Camera)
      (u : Panel.Panel) :
  Panel.camera w (Panel.with_camera w c u) = c.
Proof. now destruct w. Qed.

Lemma panel_camera_toastr (w : Panel.Which) (k : Panel.ToastKind)
      (msg : string) (u : Panel.Panel) :
  Panel.camera w (Panel.toastr k msg u) = Panel.camera w u.
Proof. now destruct w. Qed.

(** Saving waypoints: an empty text only raises an error toast; any other
    text is split at blanks into the waypoint list, whether or not the
    server accepts it, the list is never empty, and joining it with blanks
    gives the text back. *)
Theorem panel_saveWaypoints_spec (w : Panel.Which) (ok : bool) (u : Panel.Panel) :
  let c := Panel.camera w u in
  let u' := Panel.saveWaypoints w ok u in
  let c' := Panel.camera w u' in
  (Panel.waypointsText c = ""%string ->
   c' = c /\ exists msg, u' = Panel.toastr Panel.error msg u) /\
  (Panel.waypointsText c <> ""%string ->
   Panel.waypoints c' = JS.split " " (Panel.waypointsText c) /\
   Panel.waypointsText c' = Panel.waypointsText c /\
   Panel.waypoints c' <> [] /\
   JS.join " " (Panel.waypoints c') = Panel.waypointsText c').
Proof.
  cbv zeta. unfold Panel.saveWaypoints.
  destruct (String.eqb_spec (Panel.waypointsText (Panel.camera w u)) "") as [E|E].
  - split; [|congruence]. intros _.
    rewrite panel_camera_toastr. split; [reflexivity|]. eexists. reflexivity.
  - split; [congruence|]. intros _.
    destruct ok; rewrite panel_camera_toastr, panel_camera_with_camera; cbn;
      (split; [reflexivity|]); (split; [reflexivity|]);
      (split; [apply split_not_nil | apply (join_split " "%char)]).
Qed.

Lemma panel_captureImage_camera (w : Panel.Which) (ok : bool)
      (u : Panel.Panel) :
  let c := Panel.camera w u in
  let c' := Panel.camera w (Panel.captureImage w ok u) in
  Panel.waypoints c' = Panel.waypoints c /\
  Panel.refreshImage c'
    = (if ok then S (Panel.refreshImage c) else Panel.refreshImage c).
Proof.
  cbv zeta. unfold Panel.captureImage. destruct ok.
  - rewrite panel_camera_toastr, panel_camera_with_camera. cbn. auto.
  - rewrite panel_camera_toastr. auto.
Qed.

Lemma panel_settled_camera (w : Panel.Which) (currentWP : string) (ok : bool)
      (u : Panel.Panel) :
  let c := Panel.camera w u in
  let c' := Panel.camera w (Panel.waypointCaptureAutoSettled w currentWP ok u) in
  Panel.waypoints c'
    = filter (fun wp => negb (String.eqb wp currentWP)) (Panel.waypoints c) /\
  Panel.waypointsText c' = JS.join " " (Panel.waypoints c') /\
  Panel.refreshImage c'
    = (if ok then S (Panel.refreshImage c) else Panel.refreshImage c).
Proof.
  cbv zeta. unfold Panel.waypointCaptureAutoSettled.
  rewrite panel_camera_toastr, panel_camera_with_camera.
  cbn [Panel.waypoints Panel.waypointsText Panel.refreshImage].
  destruct (panel_captureImage_camera w ok u) as [Hc1 Hc2].
  rewrite Hc1, Hc2. auto.
Qed.

Lemma filter_idem {A : Type} (f : A -> bool) (l : list A) :
  filter f (filter f l) = filter f l.
Proof.
  induction l as [|a l IH]; [reflexivity|]. cbn.
  destruct (f a) eqn:E; [cbn; rewrite E; now f_equal | exact IH].
Qed.

(** Automatic capture at a waypoint.  A capture is requested exactly when
    the current waypoint is in the list, and nothing is written before it
    settles.  Once it has settled, whether or not it succeeded, and on the
    list as it is by then, exactly the entries equal to that waypoint leave
    the list, the others keep their order, and the text becomes the list
    joined with blanks; the image counter advances only when the capture
    succeeded.  A second capture that settles for the same waypoint, as a
    poll during a slow capture starts one, removes nothing more and counts
    again. *)
Theorem panel_waypointCaptureAuto_spec
        (w : Panel.Which) (currentWP : string) (ok : bool) (u : Panel.Panel) :
  let c := Panel.camera w u in
  let u' := Panel.waypointCaptureAutoSettled w currentWP ok u in
  let c' := Panel.camera w u' in
  (Panel.waypointCaptureAuto w currentWP u = true
   <-> In currentWP (Panel.waypoints c)) /\
  Panel.waypoints c'
    = filter (fun wp => negb (String.eqb wp currentWP)) (Panel.waypoints c) /\
  ~ In currentWP (Panel.waypoints c') /\
  (forall wp, wp <> currentWP ->
     (In wp (Panel.waypoints c') <-> In wp (Panel.waypoints c))) /\
  Panel.waypointsText c' = JS.join " " (Panel.waypoints c') /\
  Panel.refreshImage c'
    = (if ok then S (Panel.refreshImage c) else Panel.refreshImage c) /\
  (forall ok2 : bool,
     let c2 := Panel.camera w
                 (Panel.waypointCaptureAutoSettled w currentWP ok2 u') in
     Panel.waypoints c2 = Panel.waypoints c' /\
     Panel.refreshImage c2
       = (if ok2 then S (Panel.refreshImage c') else Panel.refreshImage c')).
Proof.
  cbv zeta.
  destruct (panel_settled_camera w currentWP ok u) as (Hw & Ht & Hr).
  split; [|split; [exact Hw|split; [|split; [|split; [exact Ht|split;
    [exact Hr|]]]]]].
  - unfold Panel.waypointCaptureAuto.
    destruct (Panel.waypoints (Panel.camera w u)) as [|w0 ws].
    + cbn. split; [discriminate | contradiction].
    + cbn [List.length Nat.eqb]. apply existsb_eqb_in.
  - rewrite Hw. intros H. apply filter_In in H. destruct H as [_ H].
    now rewrite String.eqb_refl in H.
  - intros wp Hne. rewrite Hw, filter_In. split; [tauto|].
    intros H. split; [assumption|].
    destruct (String.eqb_spec wp currentWP); [contradiction | reflexivity].
  - intros ok2.
    destruct (panel_settled_camera w currentWP ok2
                (Panel.waypointCaptureAutoSettled w currentWP ok u))
      as (Hw2 & _ & Hr2).
    split; [|exact Hr2]. rewrite Hw2, Hw. apply filter_idem.
Qed.

Lemma panel_waypointCaptureAuto_spec_witness :
  let u := Panel.saveWaypoints Panel.Surface true
             (Panel.with_camera Panel.Surface
                (Panel.mkCamera "" "1 2 3" [] "" 0 0) Panel.initial) in
  Panel.waypointCaptureAuto Panel.Surface "2" u = true /\
  Panel.waypoints
    (Panel.camera Panel.Surface
       (Panel.waypointCaptureAutoSettled Panel.Surface "2" false u))
  = ["1"; "3"]%string.
Proof.
  cbv zeta. split; [reflexivity|].
  refine (eq_trans
            (proj1 (proj2 (panel_waypointCaptureAuto_spec
                             Panel.Surface "2" false _))) _).
  reflexivity.
Defined.

(** * Properties of the earlier dashboard *)

(** [connectGcs] never has two requests under way: in every reachable
    state one request is under way exactly while [isConnecting] is set,
    a click on connect while connecting changes nothing, and when a
    request settles the connection flag tells whether the server answered
    with an ok response. *)
Theorem earlier_connect_once (evs : list Earlier.Event) :
  let u := Earlier.run evs Earlier.initial in
  Earlier.requests u = (if Earlier.isConnecting u then 1 else 0)%nat /\
  (Earlier.isConnecting u = true -> Earlier.connectGcs u = u) /\
  (forall r,
     Earlier.isConnecting u = true ->
     let v := Earlier.handle (Earlier.Settle r) u in
     Earlier.isConnecting v = false /\
     Earlier.requests v = 0%nat /\
     Earlier.app_connect v
       = match r with Earlier.Response true => true | _ => false end).
Proof.
  cbv zeta.
  assert (Hinv : Earlier.requests (Earlier.run evs Earlier.initial)
                 = (if Earlier.isConnecting (Earlier.run evs Earlier.initial)
                    then 1 else 0)%nat).
  { assert (H0 : Earlier.requests Earlier.initial
                 = (if Earlier.isConnecting Earlier.initial then 1 else 0)%nat)
      by reflexivity.
    revert H0. generalize Earlier.initial.
    induction evs as [|ev evs IH]; intros u Hu; [exact Hu|].
    cbn [Earlier.run fold_left]. apply IH.
    destruct ev as [| |r]; cbn.
    - unfold Earlier.connectGcs.
      destruct (Earlier.isConnecting u) eqn:E; cbn; [now rewrite E|].
      now rewrite Hu.
    - exact Hu.
    - destruct (Earlier.requests u) eqn:En; [now rewrite En|].
      destruct (Earlier.isConnecting u); [|discriminate].
      injection Hu as ->.
      destruct r as [[|]|]; cbn; now rewrite En. }
  set (u := Earlier.run evs Earlier.initial) in *.
  split; [exact Hinv|]. split.
  - intros Hc. unfold Earlier.connectGcs. now rewrite Hc.
  - intros r Hc. rewrite Hc in Hinv. cbn. rewrite Hinv.
    destruct r as [[|]|]; cbn; rewrite Hinv; auto.
Qed.

(** * The CSV export of [trj.js] *)

Lemma list_ascii_append (a b : string) :
  list_ascii_of_string (String.append a b)
  = list_ascii_of_string a ++ list_ascii_of_string b.
Proof. induction a as [|c a IH]; cbn; [reflexivity | now rewrite IH]. Qed.

Lemma trj_csvRow_fields
      (toFixed : R -> nat -> string) (toString toISOString : R -> string)
      (p : Trj.PathPoint) :
  Trj.csvRow toFixed toString toISOString p
  = JS.join ","
      [toFixed (Trj.x p) 3%nat; toFixed (Trj.y p) 3%nat; toString (Trj.lat p);
       toString (Trj.lon p); toString (Trj.accuracy p);
       toString (Trj.speed p); toISOString (Trj.timestamp p)].
Proof. reflexivity. Qed.

(** When numbers and dates print without line breaks and without commas,
    [exportCSV] answers nothing exactly for an empty path, and otherwise a
    text whose lines are the header followed by one line per recorded
    point, in order, each line splitting at its commas into the seven
    fields of its point. *)
Theorem trj_exportCSV_rows
        (toFixed : R -> nat -> string) (toString toISOString : R -> string)
        (s : Trj.State) :
  (forall r n c, In c (list_ascii_of_string (toFixed r n)) ->
                 c <> Trj.newline /\ c <> ","%char) ->
  (forall r c, In c (list_ascii_of_string (toString r)) ->
               c <> Trj.newline /\ c <> ","%char) ->
  (forall r c, In c (list_ascii_of_string (toISOString r)) ->
               c <> Trj.newline /\ c <> ","%char) ->
  (Trj.exportCSV toFixed toString toISOString s = None
   <-> Trj.path s = []) /\
  (forall csv,
     Trj.exportCSV toFixed toString toISOString s = Some csv ->
     exists rows,
       JS.split Trj.newline csv = Trj.csvHeader :: rows /\
       List.length rows = List.length (Trj.path s) /\
       map (JS.split ","%char) rows
       = map (fun p => [toFixed (Trj.x p) 3%nat; toFixed (Trj.y p) 3%nat;
                        toString (Trj.lat p); toString (Trj.lon p);
                        toString (Trj.accuracy p); toString (Trj.speed p);
                        toISOString (Trj.timestamp p)])
             (Trj.path s)).
Proof.
  intros Hfixed Hstring Hiso. unfold Trj.exportCSV.
  destruct (Trj.path s) as [|first rest] eqn:Ep.
  - cbn. split; [tauto | discriminate].
  - rewrite <- Ep. replace (List.length (Trj.path s) =? 0)%nat with false
      by (rewrite Ep; reflexivity).
    split; [split; [discriminate | rewrite Ep; discriminate]|].
    intros csv [= <-].
    exists (map (Trj.csvRow toFixed toString toISOString) (Trj.path s)).
    assert (Hfields : forall p,
               Forall (fun w => forall c, In c (list_ascii_of_string w) ->
                                 c <> Trj.newline /\ c <> ","%char)
                      [toFixed (Trj.x p) 3%nat; toFixed (Trj.y p) 3%nat;
                       toString (Trj.lat p); toString (Trj.lon p);
                       toString (Trj.accuracy p); toString (Trj.speed p);
                       toISOString (Trj.timestamp p)]).
    { intros p.
      repeat (apply Forall_cons;
              [first [apply Hfixed | apply Hstring | apply Hiso]|]).
      apply Forall_nil. }
    split; [|split].
    + apply (split_join Trj.newline
               (Trj.csvHeader
                :: map (Trj.csvRow toFixed toString toISOString) (Trj.path s)));
        [discriminate|].
      constructor.
      * cbv. intros H. repeat (destruct H as [H|H]; [discriminate H|]).
        exact H.
      * apply Forall_map, Forall_forall. intros p _ Hin.
        unfold Trj.csvRow in Hin.
        repeat (rewrite list_ascii_append in Hin;
                apply in_app_or in Hin; destruct Hin as [Hin|Hin]);
          try (apply Hfixed in Hin; tauto);
          try (apply Hstring in Hin; tauto);
          try (apply Hiso in Hin; tauto);
          cbn in Hin; destruct Hin as [Hin|[]]; discriminate Hin.
    + apply length_map.
    + rewrite map_map. apply map_ext. intros p.
      rewrite trj_csvRow_fields. apply split_join; [discriminate|].
      eapply Forall_impl; [|apply Hfields].
      intros w Hw Hin. apply Hw in Hin. tauto.
Qed.

Lemma trj_exportCSV_rows_witness :
  exists rows,
    JS.split Trj.newline
      (JS.join (String Trj.newline EmptyString)
         (Trj.csvHeader
          :: map (Trj.csvRow (fun _ _ => "0"%string) (fun _ => "1"%string)
                             (fun _ => "2"%string))
                 (Trj.path (Trj.state trj_one_point))))
    = Trj.csvHeader :: rows /\
    List.length rows = List.length (Trj.path (Trj.state trj_one_point)).
Proof.
  assert (H0 : forall c, In c (list_ascii_of_string "0") ->
                         c <> Trj.newline /\ c <> ","%char)
    by (intros c [<-|[]]; split; discriminate).
  assert (H1 : forall c, In c (list_ascii_of_string "1") ->
                         c <> Trj.newline /\ c <> ","%char)
    by (intros c [<-|[]]; split; discriminate).
  assert (H2 : forall c, In c (list_ascii_of_string "2") ->
                         c <> Trj.newline /\ c <> ","%char)
    by (intros c [<-|[]]; split; discriminate).
  destruct (proj2 (trj_exportCSV_rows
                     (fun _ _ => "0"%string) (fun _ => "1"%string)
                     (fun _ => "2"%string) (Trj.state trj_one_point)
                     (fun _ _ => H0) (fun _ => H1) (fun _ => H2))
                  _ ltac:(unfold Trj.exportCSV;
                          rewrite trj_one_point_path; reflexivity))
    as (rows & Hs & Hl & _).
  exists rows. split; assumption.
Defined.

(** * The grid of [trj.js] *)

Lemma forLoop_ticks (body : R -> list Canvas2D.Cmd) (limit step : R)
      (m : nat) :
  forall (k fuel : nat),
    (forall j, (k <= j < k + m)%nat -> INR j * step <= limit) ->
    limit < INR (k + m) * step ->
    (m < fuel)%nat ->
    Trj.forLoop fuel body limit step (INR k * step)
    = Some (flat_map body (map (fun j => INR j * step) (seq k m))).
Proof.
  induction m as [|m IH]; intros k fuel Hin Hout Hfuel.
  - destruct fuel as [|fuel]; [lia|]. cbn [Trj.forLoop seq map flat_map].
    rewrite Nat.add_0_r in Hout.
    replace (JS.leb (INR k * step) limit) with false
      by (symmetry; now apply leb_false_iff).
    reflexivity.
  - destruct fuel as [|fuel]; [lia|]. cbn [Trj.forLoop seq map flat_map].
    replace (JS.leb (INR k * step) limit) with true
      by (symmetry; apply leb_true_iff; apply Hin; lia).
    replace (INR k * step + step) with (INR (S k) * step)
      by (rewrite S_INR; ring).
    rewrite (IH (S k) fuel); [reflexivity | | | lia].
    + intros j Hj. apply Hin. lia.
    + now rewrite Nat.add_succ_comm.
Qed.

Lemma tick_count (limit step : R) :
  0 < step ->
  exists n : nat,
    (forall j, (j < n)%nat -> INR j * step <= limit) /\
    limit < INR n * step.
Proof.
  intros Hstep. destruct (Rlt_dec limit 0) as [Hneg | Hpos].
  - exists 0%nat. split; [lia|]. cbn. lra.
  - assert (Hq : 0 <= limit / step).
    { apply Rmult_le_pos; [lra|]. left. now apply Rinv_0_lt_compat. }
    pose proof (floor_spec (limit / step)) as [Hlo Hhi].
    pose proof (floor_nonneg _ Hq) as Hz. unfold JS.floor in *.
    apply le_IZR in Hz.
    set (z := Int_part (limit / step)) in *.
    assert (Hn : INR (Z.to_nat z) = IZR z).
    { rewrite INR_IZR_INZ, Z2Nat.id by assumption. reflexivity. }
    exists (S (Z.to_nat z)). split.
    + intros j Hj.
      assert (Hj' : INR j <= INR (Z.to_nat z)) by (apply le_INR; lia).
      rewrite Hn in Hj'.
      assert (INR j <= limit / step) by lra.
      apply (Rmult_le_compat_r step) in H; [|lra].
      replace (limit / step * step) with limit in H by (field; lra).
      exact H.
    + rewrite S_INR, Hn.
      apply (Rmult_lt_compat_r step) in Hhi; [|lra].
      replace (limit / step * step) with limit in Hhi by (field; lra).
      exact Hhi.
Qed.

Lemma trj_spacing_pos (v : R) : 1 <= Trj.spacing v.
Proof. rewrite trj_spacing_cases. geb_cases; lra. Qed.

(** [drawGrid] on a square canvas with a positive scale.  Both loops end:
    with [n] the number of multiples of the grid spacing that fit into the
    view range, any fuel above [n] suffices.  The grid has one vertical and
    one horizontal line at each of these multiples, starting at 0, and no
    line is skipped: every one of them lies between the margins. *)
Theorem trj_drawGrid_spec (s : Trj.State) :
  0 < Trj.pixelsPerMeter s ->
  Trj.width (Trj.canvas s) = Trj.height (Trj.canvas s) ->
  exists n : nat,
    let ticks := map (fun j => INR j * Trj.getGridSpacing s) (seq 0 n) in
    (forall j, (j < n)%nat -> INR j * Trj.getGridSpacing s <= Trj.viewRange s) /\
    Trj.viewRange s < INR n * Trj.getGridSpacing s /\
    (forall fuel, (n < fuel)%nat ->
       Trj.drawGrid fuel s
       = Some ([Canvas2D.StrokeStyle "#111"; Canvas2D.LineWidth 1;
                Canvas2D.Font "9px monospace"; Canvas2D.FillStyle "#333"]
               ++ flat_map (Trj.gridLineX s) ticks
               ++ flat_map (Trj.gridLineY s) ticks)) /\
    (forall x, In x ticks ->
       Trj.MARGIN <= fst (Trj.xyToCanvas s x 0)
                  <= Trj.width (Trj.canvas s) - Trj.MARGIN /\
       Trj.MARGIN <= snd (Trj.xyToCanvas s 0 x)
                  <= Trj.height (Trj.canvas s) - Trj.MARGIN /\
       hd_error (Trj.gridLineX s x) = Some Canvas2D.BeginPath /\
       hd_error (Trj.gridLineY s x) = Some Canvas2D.BeginPath).
Proof.
  intros Hppm Hsq.
  pose proof (trj_spacing_pos (Trj.viewRange s)) as Hsp.
  fold (Trj.getGridSpacing s) in Hsp.
  destruct (tick_count (Trj.viewRange s) (Trj.getGridSpacing s) ltac:(lra))
    as (n & Hin & Hout).
  exists n. cbv zeta. split; [exact Hin|]. split; [exact Hout|]. split.
  - intros fuel Hfuel.
    assert (Hstart : INR 0 * Trj.getGridSpacing s = 0) by (cbn [INR]; ring).
    pose proof (forLoop_ticks (Trj.gridLineX s) (Trj.viewRange s)
                  (Trj.getGridSpacing s) n 0 fuel
                  (fun j Hj => Hin j (proj2 Hj)) Hout Hfuel) as HX.
    pose proof (forLoop_ticks (Trj.gridLineY s) (Trj.viewRange s)
                  (Trj.getGridSpacing s) n 0 fuel
                  (fun j Hj => Hin j (proj2 Hj)) Hout Hfuel) as HY.
    rewrite Hstart in HX, HY.
    unfold Trj.drawGrid. cbv zeta.
    change ((Trj.width (Trj.canvas s) - Trj.MARGIN * 2) / Trj.pixelsPerMeter s)
      with (Trj.viewRange s).
    rewrite HX, HY. reflexivity.
  - intros x Hx. apply in_map_iff in Hx. destruct Hx as (j & <- & Hj).
    apply in_seq in Hj.
    assert (Hle : INR j * Trj.getGridSpacing s <= Trj.viewRange s)
      by (apply Hin; lia).
    assert (H0 : 0 <= INR j * Trj.getGridSpacing s).
    { apply Rmult_le_pos; [apply pos_INR | lra]. }
    set (x := INR j * Trj.getGridSpacing s) in *.
    assert (Hpx : x * Trj.pixelsPerMeter s
                  <= Trj.width (Trj.canvas s) - Trj.MARGIN * 2).
    { unfold Trj.viewRange in Hle.
      apply (Rmult_le_compat_r (Trj.pixelsPerMeter s)) in Hle; [|lra].
      replace ((Trj.width (Trj.canvas s) - Trj.MARGIN * 2)
               / Trj.pixelsPerMeter s * Trj.pixelsPerMeter s)
        with (Trj.width (Trj.canvas s) - Trj.MARGIN * 2) in Hle
        by (field; lra).
      exact Hle. }
    assert (Hp0 : 0 <= x * Trj.pixelsPerMeter s)
      by (apply Rmult_le_pos; lra).
    assert (HX : Trj.MARGIN <= fst (Trj.xyToCanvas s x 0)
                 <= Trj.width (Trj.canvas s) - Trj.MARGIN)
      by (unfold Trj.xyToCanvas; cbn [fst]; lra).
    assert (HY : Trj.MARGIN <= snd (Trj.xyToCanvas s 0 x)
                 <= Trj.height (Trj.canvas s) - Trj.MARGIN)
      by (unfold Trj.xyToCanvas; cbn [snd]; lra).
    split; [exact HX|]. split; [exact HY|].
    unfold Trj.gridLineX, Trj.gridLineY. cbv zeta.
    replace (JS.ltb (fst (Trj.xyToCanvas s x 0)) Trj.MARGIN) with false
      by (symmetry; apply ltb_false_iff; lra).
    replace (JS.gtb (fst (Trj.xyToCanvas s x 0))
                    (Trj.width (Trj.canvas s) - Trj.MARGIN)) with false
      by (symmetry; apply gtb_false_iff; lra).
    replace (JS.ltb (snd (Trj.xyToCanvas s 0 x)) Trj.MARGIN) with false
      by (symmetry; apply ltb_false_iff; lra).
    replace (JS.gtb (snd (Trj.xyToCanvas s 0 x))
                    (Trj.height (Trj.canvas s) - Trj.MARGIN)) with false
      by (symmetry; apply gtb_false_iff; lra).
    split; reflexivity.
Qed.

Lemma trj_drawGrid_spec_witness :
  0 < Trj.pixelsPerMeter trj_state_450 /\
  Trj.width (Trj.canvas trj_state_450) = Trj.height (Trj.canvas trj_state_450) /\
  exists n : nat,
    Trj.viewRange trj_state_450 < INR n * Trj.getGridSpacing trj_state_450.
Proof.
  assert (H : 0 < Trj.pixelsPerMeter trj_state_450)
    by (cbn; unfold Trj.SCALE; lra).
  split; [exact H|]. split; [reflexivity|].
  destruct (trj_drawGrid_spec trj_state_450 H eq_refl) as (n & _ & Hn & _).
  exists n. exact Hn.
Defined.

Lemma nan_eqb (x : float) : (nan =? x)%float = false.
Proof. rewrite FloatAxioms.eqb_spec. reflexivity. Qed.

Lemma leb_nan (x : float) : (x <=? nan)%float = false.
Proof. rewrite FloatAxioms.leb_spec. cbn. destruct (Prim2SF x); reflexivity. Qed.

Lemma add_nan (x : float) : (x + nan)%float = nan.
Proof.
  apply Prim2SF_inj. rewrite FloatAxioms.add_spec. cbn.
  destruct (Prim2SF x); reflexivity.
Qed.

Lemma nan_add (x : float) : (nan + x)%float = nan.
Proof.
  apply Prim2SF_inj. rewrite FloatAxioms.add_spec. reflexivity.
Qed.

Lemma sample_host_rounds : Binary64.rounds_to_nearest_at_8 Binary64.sample_host.
Proof.
  repeat split; try reflexivity.
  intros y. cbn. destruct (y =? 0)%float; reflexivity.
Qed.

(** In both files the distance is computed from [a] alone. *)
Lemma binary64_distance_a (h : Binary64.Host) (lat1 lon1 lat2 lon2 : float) :
  let a := Binary64.a h lat1 lon1 lat2 lon2 in
  Binary64.Trj.calculateDistance h lat1 lon1 lat2 lon2
    = (Binary64.Trj.EARTH_RADIUS * 2 *
       Binary64.Math_atan2 h (Binary64.Math_sqrt a)
                           (Binary64.Math_sqrt (1 - a)))%float /\
  Binary64.Krakatau.calculateDistance h lat1 lon1 lat2 lon2
    = (Binary64.Krakatau.EARTH_RADIUS * 2 *
       Binary64.Math_atan2 h (Binary64.Math_sqrt a)
                           (Binary64.Math_sqrt (1 - a)))%float.
Proof. split; reflexivity. Qed.

(** Between latitude 8 and latitude -8, half a turn apart in longitude, the
    rounded squares add up to more than 1. *)
Lemma binary64_a_near_antipodes (h : Binary64.Host) :
  Binary64.rounds_to_nearest_at_8 h ->
  Binary64.a h 8 0 (-8) 180 = 1.0000000000000002%float /\
  Binary64.a h 8 10 (-8) (-170) = 1.0000000000000002%float.
Proof.
  intros (S1 & S2 & S3 & C1 & C2 & P1 & P2 & P3 & _).
  unfold Binary64.a.
  change ((-8 - 8) * Binary64.Math_PI / 180 / 2)%float
    with (-0.13962634015954636)%float.
  change ((180 - 0) * Binary64.Math_PI / 180 / 2)%float
    with (1.5707963267948966)%float.
  change ((-170 - 10) * Binary64.Math_PI / 180 / 2)%float
    with (-1.5707963267948966)%float.
  change (8 * Binary64.Math_PI / 180)%float with (0.13962634015954636)%float.
  change (-8 * Binary64.Math_PI / 180)%float
    with (-0.13962634015954636)%float.
  rewrite S1, S2, S3, C1, C2, P1, P2, P3. split; reflexivity.
Qed.

(** A square root of a negative number makes the distance not a number. *)
Lemma binary64_distance_nan (h : Binary64.Host) (lat1 lon1 lat2 lon2 : float) :
  (forall y : float, Binary64.Math_atan2 h y nan = nan) ->
  Binary64.Math_sqrt (1 - Binary64.a h lat1 lon1 lat2 lon2) = nan ->
  Binary64.Trj.calculateDistance h lat1 lon1 lat2 lon2 = nan /\
  Binary64.Krakatau.calculateDistance h lat1 lon1 lat2 lon2 = nan.
Proof.
  intros Hatan Hsqrt.
  destruct (binary64_distance_a h lat1 lon1 lat2 lon2) as [-> ->].
  rewrite Hsqrt, Hatan. split; reflexivity.
Qed.

(** C6, as both files violate it.  On a host that rounds to nearest at the
    arguments concerned, as V8 and the C library do, the distance between
    A = (8, 0) and B = (-8, 180) is not a number: [a] comes out as
    1.0000000000000002, so that [Math.sqrt(1 - a)] is NaN.  Hence
    [distance(A, B) == distance(B, A)] is false, and so is
    [distance(A, B) >= 0]. *)
Theorem calculateDistance_not_a_number (h : Binary64.Host) :
  Binary64.rounds_to_nearest_at_8 h ->
  let a := Binary64.a h 8 0 (-8) 180 in
  let d := Binary64.Trj.calculateDistance h 8 0 (-8) 180 in
  let d' := Binary64.Trj.calculateDistance h (-8) 180 8 0 in
  let k := Binary64.Krakatau.calculateDistance h 8 0 (-8) 180 in
  let k' := Binary64.Krakatau.calculateDistance h (-8) 180 8 0 in
  (a = 1.0000000000000002 /\ Binary64.Math_sqrt (1 - a) = nan)%float /\
  (PrimFloat.is_nan d = true /\ (d =? d') = false /\ (0 <=? d) = false)%float /\
  (PrimFloat.is_nan k = true /\ (k =? k') = false /\ (0 <=? k) = false)%float.
Proof.
  intros Hh. cbv zeta.
  destruct (binary64_a_near_antipodes h Hh) as [Ha _].
  assert (Hs : Binary64.Math_sqrt (1 - Binary64.a h 8 0 (-8) 180) = nan)
    by (rewrite Ha; reflexivity).
  destruct Hh as (_ & _ & _ & _ & _ & _ & _ & _ & Hatan).
  destruct (binary64_distance_nan h 8 0 (-8) 180 Hatan Hs) as [-> ->].
  split; [split; assumption|].
  split; (split; [reflexivity|]); (split; [apply nan_eqb | reflexivity]).
Qed.

Lemma calculateDistance_not_a_number_witness :
  Binary64.rounds_to_nearest_at_8 Binary64.sample_host /\
  Binary64.a Binary64.sample_host 8 0 (-8) 180 = 1.0000000000000002%float /\
  PrimFloat.is_nan
    (Binary64.Krakatau.calculateDistance Binary64.sample_host 8 0 (-8) 180)
  = true.
Proof.
  split; [exact sample_host_rounds|].
  destruct (calculateDistance_not_a_number Binary64.sample_host
              sample_host_rounds) as ((Ha & _) & _ & Hk & _).
  split; [exact Ha | exact Hk].
Defined.

(** [updateGPSPosition] only tests whether the distance is below half a
    meter: a distance that is not a number passes and is added. *)
Lemma binary64_krakatau_update_nan
      (h : Binary64.Host) (now : float) (a : Binary64.Krakatau.App)
      (l : Binary64.Krakatau.PathPoint) :
  Binary64.Krakatau.invalid (Binary64.Krakatau.vehicleData a) = false ->
  last_item (Binary64.Krakatau.path (Binary64.Krakatau.gpsTracker a))
    = Some l ->
  Binary64.Krakatau.calculateDistance h
    (Binary64.Krakatau.lat l) (Binary64.Krakatau.lon l)
    (Binary64.to_number
       (Binary64.Krakatau.v_lat (Binary64.Krakatau.vehicleData a)))
    (Binary64.to_number
       (Binary64.Krakatau.long (Binary64.Krakatau.vehicleData a))) = nan ->
  let g := Binary64.Krakatau.gpsTracker a in
  let g' := Binary64.Krakatau.gpsTracker
              (fst (Binary64.Krakatau.updateGPSPosition h now a)) in
  Binary64.Krakatau.totalDistance g' = nan /\
  (Binary64.Krakatau.ctx_bound a = true ->
   List.length (Binary64.Krakatau.path g')
   = S (List.length (Binary64.Krakatau.path g))).
Proof.
  intros Hinv Hl Hd. cbv zeta.
  unfold Binary64.Krakatau.updateGPSPosition. rewrite Hinv.
  destruct (Binary64.Krakatau.originGPS (Binary64.Krakatau.gpsTracker a))
    as [o|] eqn:Ho;
    cbn -[Binary64.Krakatau.calculateDistance Binary64.to_number];
    rewrite Hl, Hd;
    change (nan <? 0.5)%float with false; cbv iota;
    unfold Binary64.Krakatau.gpsToLocalXY;
    cbn -[Binary64.Krakatau.calculateDistance Binary64.to_number];
    rewrite ?Ho, add_nan;
    (destruct (Binary64.Krakatau.ctx_bound a);
     cbn -[Binary64.Krakatau.calculateDistance Binary64.to_number];
     (split; [reflexivity|]); intros Hc;
     [rewrite length_app; cbn; lia | discriminate]).
Qed.

(** [handlePosition] adds the distance only when it is at least
    [MIN_DISTANCE]: a distance that is not a number is not added, and the
    fix is recorded. *)
Lemma binary64_trj_handlePosition_nan
      (h : Binary64.Host) (c : Binary64.Trj.Coords) (now : float)
      (s : Binary64.Trj.State) (l : Binary64.Trj.PathPoint) :
  last_item (Binary64.Trj.path s) = Some l ->
  Binary64.Trj.calculateDistance h
    (Binary64.Trj.lat l) (Binary64.Trj.lon l)
    (Binary64.Trj.latitude c) (Binary64.Trj.longitude c) = nan ->
  let s' := Binary64.Trj.handlePosition h c now s in
  Binary64.Trj.totalDistance s' = Binary64.Trj.totalDistance s /\
  List.length (Binary64.Trj.path s') = S (List.length (Binary64.Trj.path s)).
Proof.
  intros Hl Hd. cbv zeta. unfold Binary64.Trj.handlePosition.
  destruct (Binary64.Trj.originGPS s) as [o|];
    cbn -[Binary64.Trj.calculateDistance]; rewrite Hl, Hd;
    change (nan <? Binary64.Trj.MIN_DISTANCE)%float with false;
    change (Binary64.Trj.MIN_DISTANCE <=? nan)%float with false;
    cbn -[Binary64.Trj.calculateDistance];
    (split; [reflexivity|]); rewrite length_app; cbn; lia.
Qed.

Lemma binary64_krakatau_at_8_10 (h : Binary64.Host) :
  exists pt,
    Binary64.krakatau_at_8_10 h =
    Binary64.Krakatau.mkApp
      (Binary64.Krakatau.mkVehicle (Binary64.Num 8) (Binary64.Num 10))
      (Binary64.Krakatau.mkTracker
         (Some (Binary64.Krakatau.mkOrigin 8 10)) [pt] 0 (Some 0%float) true)
      true /\
    Binary64.Krakatau.lat pt = 8%float /\
    Binary64.Krakatau.lon pt = 10%float.
Proof. eexists. split; [reflexivity|]. split; reflexivity. Qed.

Lemma binary64_trj_at_8_10 (h : Binary64.Host) :
  exists pt,
    Binary64.trj_at_8_10 h =
    Binary64.Trj.mkState (Some (Binary64.Trj.mkOrigin 8 10)) [pt] 0
                         (Some 0%float) 0 /\
    Binary64.Trj.lat pt = 8%float /\
    Binary64.Trj.lon pt = 10%float.
Proof. eexists. split; [reflexivity|]. split; reflexivity. Qed.

(** C4, as [script.js] violates it.  With one point recorded at latitude 8,
    longitude 10, a vehicle position at latitude -8, longitude -170 is at a
    distance that is not a number.  [updateGPSPosition] records the fix and
    adds that distance: the odometer is no longer a number, the comparison
    of the old reading with the new one fails, and whatever is added later
    leaves it so.  [handlePosition] of [trj.js], on the same two fixes,
    records the second one and leaves the odometer as it was. *)
Theorem odometer_not_a_number (h : Binary64.Host) (now : float) :
  Binary64.rounds_to_nearest_at_8 h ->
  let a1 := Binary64.krakatau_at_8_10 h in
  let a2 := Binary64.Krakatau.poll h
              (Binary64.Krakatau.mkVehicle (Binary64.Num (-8))
                                           (Binary64.Num (-170)))
              now a1 in
  let g1 := Binary64.Krakatau.gpsTracker a1 in
  let g2 := Binary64.Krakatau.gpsTracker a2 in
  let s1 := Binary64.trj_at_8_10 h in
  let s2 := Binary64.Trj.handlePosition h
              (Binary64.Trj.mkCoords (-8) (-170) 5 None) now s1 in
  (List.length (Binary64.Krakatau.path g1) = 1%nat /\
   Binary64.Krakatau.totalDistance g1 = 0%float) /\
  (List.length (Binary64.Krakatau.path g2) = 2%nat /\
   PrimFloat.is_nan (Binary64.Krakatau.totalDistance g2) = true /\
   (Binary64.Krakatau.totalDistance g1
    <=? Binary64.Krakatau.totalDistance g2)%float = false /\
   (forall d : float,
      (Binary64.Krakatau.totalDistance g2 + d)%float = nan)) /\
  (List.length (Binary64.Trj.path s1) = 1%nat /\
   List.length (Binary64.Trj.path s2) = 2%nat /\
   Binary64.Trj.totalDistance s2 = Binary64.Trj.totalDistance s1).
Proof.
  intros Hh. cbv zeta.
  destruct (binary64_a_near_antipodes h Hh) as [_ Ha].
  assert (Hs : Binary64.Math_sqrt (1 - Binary64.a h 8 10 (-8) (-170)) = nan)
    by (rewrite Ha; reflexivity).
  destruct Hh as (_ & _ & _ & _ & _ & _ & _ & _ & Hatan).
  destruct (binary64_distance_nan h 8 10 (-8) (-170) Hatan Hs) as [Ht Hk].
  destruct (binary64_krakatau_at_8_10 h) as (pt & -> & Hlat & Hlon).
  destruct (binary64_trj_at_8_10 h) as (qt & -> & Hlat' & Hlon').
  split; [split; reflexivity|]. split.
  - unfold Binary64.Krakatau.poll, Binary64.Krakatau.updateGPSFromVehicle.
    cbn [Binary64.Krakatau.gpsTracker Binary64.Krakatau.isTracking negb
         Binary64.Krakatau.ctx_bound].
    change (Binary64.Krakatau.invalid
              (Binary64.Krakatau.vehicleData
                 (Binary64.Krakatau.mkApp
                    (Binary64.Krakatau.mkVehicle (Binary64.Num (-8))
                                                 (Binary64.Num (-170)))
                    (Binary64.Krakatau.mkTracker
                       (Some (Binary64.Krakatau.mkOrigin 8 10)) [pt] 0
                       (Some 0%float) true) true)))
      with false.
    cbv iota.
    match goal with
    | |- context [Binary64.Krakatau.updateGPSPosition h now ?b] =>
        destruct (binary64_krakatau_update_nan h now b pt) as [E L];
          [reflexivity | reflexivity
          | cbn [Binary64.Krakatau.vehicleData Binary64.Krakatau.v_lat
                 Binary64.Krakatau.long Binary64.to_number];
            rewrite Hlat, Hlon; exact Hk |]
    end.
    rewrite E. split; [apply L; reflexivity|].
    split; [reflexivity|]. split; [apply leb_nan | apply nan_add].
  - destruct (binary64_trj_handlePosition_nan h
                (Binary64.Trj.mkCoords (-8) (-170) 5 None) now
                (Binary64.Trj.mkState (Some (Binary64.Trj.mkOrigin 8 10))
                                      [qt] 0 (Some 0%float) 0) qt)
      as [E L]; [reflexivity | cbn; rewrite Hlat', Hlon'; exact Ht |].
    split; [reflexivity|]. split; [exact L | exact E].
Qed.

Lemma odometer_not_a_number_witness :
  Binary64.rounds_to_nearest_at_8 Binary64.sample_host /\
  PrimFloat.is_nan
    (Binary64.Krakatau.totalDistance
       (Binary64.Krakatau.gpsTracker
          (Binary64.Krakatau.poll Binary64.sample_host
             (Binary64.Krakatau.mkVehicle (Binary64.Num (-8))
                                          (Binary64.Num (-170)))
             2000
             (Binary64.krakatau_at_8_10 Binary64.sample_host)))) = true.
Proof.
  split; [exact sample_host_rounds|].
  exact (proj1 (proj2 (proj1 (proj2
           (odometer_not_a_number Binary64.sample_host 2000
              sample_host_rounds))))).
Defined.
